(** * Driving-data analytics engine: drive merging, efficiency points,
    commute routes and trip cost.

    A shallow embedding of [drive-analyzer.ts] ([DriveAnalyzer]),
    [trip-calculator.ts] ([TripCalculator]), the efficiency analyzer
    ([EfficiencyAnalyzer]) and the commute analyzer ([CommuteAnalyzer]),
    with the charging analyzer ([ChargingAnalyzer]) and the charging
    reminders ([ChargingReminderSystem]).

    Numbers.  A JavaScript [number] is embedded as an exact rational
    ([Q]): [+], [-], [*] and [/] are the field operations, comparisons
    are the order of [Q], and [Math.round], [Math.ceil], [Math.min],
    [Math.max] are the exact functions below.  The embedding agrees with
    the code on every computation whose intermediate values are finite,
    whose divisors are non-zero and whose floating-point rounding does
    not cross a threshold; where the code guards a division, the guard
    is kept.  The code computes in binary64, so a value that is exactly
    on a threshold, or exactly half-way between two hundredths, may fall
    on either side there: properties of a rounded figure are stated to
    the cent ([withinCent]), and properties of a threshold on a computed
    value for arguments that are clear of it by more than the rounding
    can move them.  Equality of numbers is [==] ([Qeq]); equality of
    whole results is Leibniz equality.  [Binary64] evaluates the
    future-trip estimate, the charging-cost estimate and the consumption
    rate on IEEE 754 doubles.

    Arrays.  An array is a [list]; [Array.prototype.sort] is stable
    (ECMAScript 2019), so with a comparator that is a weak order its
    result is the one stable arrangement, computed here by insertion.
    [Effects] has the entry points with the arrays of drives in a store,
    for what a call does to the array it is given.

    Text.  A string is a [string] of bytes.  Output that is formatted
    text only ([toFixed], [toLocaleTimeString]) or that reads the host
    time zone or the wall clock is left out of the records, as said at
    each record. *)

From Stdlib Require Import QArith Qround Qminmax Lqa ZArith Lia.
From Stdlib Require Import List String Ascii DecimalString Bool.
From Stdlib Require Import Permutation Sorted PeanoNat PrimFloat.
Import ListNotations.

Open Scope Q_scope.

(* ================================================================== *)
(** ** JavaScript numbers and [Math] *)

Module JS.

(** [a < b] and [a > b] on numbers. *)
Definition ltb (a b : Q) : bool := negb (Qle_bool b a).
Definition gtb (a b : Q) : bool := ltb b a.
(** [a <= b] on numbers. *)
Definition leb (a b : Q) : bool := Qle_bool a b.
(** [a === b] on numbers. *)
Definition eqb (a b : Q) : bool := Qeq_bool a b.

(** [Math.round]: the nearest integer, halves rounded up. *)
Definition Math_round (x : Q) : Z := Qfloor (x + (1 # 2)).
(** [Math.ceil]. *)
Definition Math_ceil (x : Q) : Z := Qceiling x.
(** [Math.min(a, b)] and [Math.max(a, b)]. *)
Definition Math_min (a b : Q) : Q := if ltb b a then b else a.
Definition Math_max (a b : Q) : Q := if ltb a b then b else a.

(** The idiom [Math.round(x * 100) / 100]. *)
Definition round2 (x : Q) : Q := inject_Z (Math_round (x * 100)) / 100.
(** [Math.round(x * 1000) / 1000] and [Math.round(x * 10) / 10]. *)
Definition round3 (x : Q) : Q := inject_Z (Math_round (x * 1000)) / 1000.
Definition round1 (x : Q) : Q := inject_Z (Math_round (x * 10)) / 10.

(** [xs.reduce((s, x) => s + x, 0)]. *)
Definition sum (xs : list Q) : Q := fold_left Qplus xs 0.

(** [n.toString()] for an integer [n]. *)
Definition string_of_Z (n : Z) : string := NilZero.string_of_int (Z.to_int n).

(** [arr.sort(cmp)]: stable; [x] stays in front of a later [y] unless
    [cmp(x, y) > 0]. *)
Section Sort.
Context {A : Type} (cmp : A -> A -> Q).

Fixpoint insert (x : A) (l : list A) : list A :=
  match l with
  | [] => [x]
  | y :: ys => if gtb (cmp x y) 0 then y :: insert x ys else x :: l
  end.

Fixpoint sort (l : list A) : list A :=
  match l with
  | [] => []
  | x :: xs => insert x (sort xs)
  end.

End Sort.

(** What a call that may [throw] produces. *)
Inductive result (A : Type) : Type :=
| Ok (a : A)
| Throw (msg : string).
Arguments Ok {A} a.
Arguments Throw {A} msg.

Definition bind {A B} (m : result A) (k : A -> result B) : result B :=
  match m with
  | Ok a => k a
  | Throw msg => Throw msg
  end.

End JS.

Notation "x <- m ;; k" := (JS.bind m (fun x => k))
  (at level 61, m at next level, right associativity).

(* ================================================================== *)
(** ** The raw drive record ([TessieDrive]) *)

(** Modelled from the spec: the interface [TessieDrive] is declared in
    [tessie-client], which is not among the sources.  It is the spec's
    RawDrive: an identifier, start and end Unix timestamps (seconds),
    start and end location labels, start and end battery percentages,
    the odometer distance, and the average and maximum speed.  The fields
    are those the analyzers read, under the names they read them by.
    [average_speed] and [max_speed] are read through [x || 0], which on a
    number is the number itself ([0] is the only falsy finite number). *)
Record TessieDrive : Type := mkDrive {
  id : Z;
  started_at : Q;
  ended_at : Q;
  starting_location : string;
  ending_location : string;
  starting_battery : Q;
  ending_battery : Q;
  odometer_distance : Q;
  average_speed : Q;
  max_speed : Q
}.

(** The data-model invariant of a raw drive. *)
Definition well_formed (d : TessieDrive) : Prop := started_at d <= ended_at d.

(** [(a, b) => a.started_at - b.started_at]. *)
Definition byStart (a b : TessieDrive) : Q := started_at a - started_at b.

(** The elements of an array after
    [.sort((a, b) => a.started_at - b.started_at)]. *)
Definition sortDrives (drives : list TessieDrive) : list TessieDrive :=
  JS.sort byStart drives.

(* ================================================================== *)
(** ** Trip segmenter ([DriveAnalyzer]) *)

Module DriveAnalyzer.

Inductive StopType : Type := short | charging | excluded.

(** A stop; [stop_started_at] and [stop_ended_at] are its [started_at]
    and [ended_at]. *)
Record DriveStop : Type := mkStop {
  location : string;
  duration_minutes : Q;
  stop_type : StopType;
  stop_started_at : Q;
  stop_ended_at : Q
}.

(** A merged drive.  The fields it shares by name with a raw drive carry
    the prefix [m_] here, and [merged_id] is its [id]. *)
Record MergedDrive : Type := mkMerged {
  merged_id : string;
  originalDriveIds : list Z;
  m_started_at : Q;
  m_ended_at : Q;
  m_starting_location : string;
  m_ending_location : string;
  m_starting_battery : Q;
  m_ending_battery : Q;
  total_distance : Q;
  total_duration_minutes : Q;
  driving_duration_minutes : Q;
  stops : list DriveStop;
  autopilot_distance : Q;
  autopilot_percentage : Q;
  energy_consumed : Q;
  m_average_speed : Q;
  m_max_speed : Q
}.

(** [(currentDrive.started_at - prevDrive.ended_at) / 60]. *)
Definition gapMinutes (prevDrive currentDrive : TessieDrive) : Q :=
  (started_at currentDrive - ended_at prevDrive) / 60.

Definition shouldMergeDrives
    (prevDrive currentDrive : TessieDrive) (gap : Q) : bool :=
  if JS.ltb gap 7 then true
  else
    let batteryIncrease :=
      starting_battery currentDrive - ending_battery prevDrive in
    if JS.gtb batteryIncrease 5 then true else false.

(** [calculateSpeedConsistency]. *)
Definition calculateSpeedConsistency (average_speed max_speed : Q) : Q :=
  if JS.eqb average_speed 0 || JS.eqb max_speed 0 then 0
  else
    let speedRatio := average_speed / max_speed in
    if JS.gtb speedRatio 0.85 then 1
    else if JS.gtb speedRatio 0.75 then 0.8
    else if JS.gtb speedRatio 0.65 then 0.6
    else if JS.gtb speedRatio 0.55 then 0.4
    else 0.2.

(** [predictAutopilotUsage], on the four fields of the merged drive it
    reads. *)
Definition predictAutopilotUsage
    (total_distance average_speed max_speed driving_duration_minutes : Q)
    : Q :=
  if JS.ltb total_distance 5 then 0
  else
    let l0 := 0 in
    let l1 :=
      if JS.gtb average_speed 45 then l0 + 0.4
      else if JS.gtb average_speed 35 then l0 + 0.2
      else l0 in
    let l2 :=
      if JS.gtb total_distance 30 then l1 + 0.3
      else if JS.gtb total_distance 15 then l1 + 0.2
      else if JS.gtb total_distance 10 then l1 + 0.1
      else l1 in
    let speedConsistency :=
      calculateSpeedConsistency average_speed max_speed in
    let l3 := l2 + speedConsistency * 0.2 in
    let avgDrivingSpeed :=
      total_distance / (driving_duration_minutes / 60) in
    let l4 :=
      if JS.gtb avgDrivingSpeed 50 && JS.gtb driving_duration_minutes 30
      then l3 + 0.1 else l3 in
    let autopilotLikelihood := JS.Math_min l4 0.9 in
    let estimatedAutopilotMiles := total_distance * autopilotLikelihood in
    JS.round2 estimatedAutopilotMiles.

(** The loop of [createMergedDrive] over consecutive members: a stop is
    recorded for every gap of positive length. *)
Fixpoint collectStops (drives : list TessieDrive) : list DriveStop :=
  match drives with
  | current :: ((next :: _) as rest) =>
      let gap := (started_at next - ended_at current) / 60 in
      let here :=
        if JS.gtb gap 0 then
          let batteryChange :=
            starting_battery next - ending_battery current in
          let stopType :=
            if JS.gtb batteryChange 5 then charging
            else if JS.ltb gap 7 then short else excluded in
          [ mkStop (ending_location current) (JS.round2 gap) stopType
                   (ended_at current) (started_at next) ]
        else [] in
      here ++ collectStops rest
  | _ => []
  end.

(** [Math.max(...xs)] for the spread of a non-empty array [x :: xs]. *)
Definition maxOf (x : Q) (xs : list Q) : Q := fold_left JS.Math_max xs x.

(** The body of [createMergedDrive] for the non-empty group
    [firstDrive :: others].  The average speed divides by the driving
    time; for drives of no duration over a positive distance the code's
    quotient is [Infinity], where the division of [Q] gives 0. *)
Definition buildMerged (firstDrive : TessieDrive) (others : list TessieDrive)
    : MergedDrive :=
  let drives := firstDrive :: others in
  let lastDrive := last others firstDrive in
  let stops := collectStops drives in
  let totalDistance := JS.sum (map odometer_distance drives) in
  let totalDuration := (ended_at lastDrive - started_at firstDrive) / 60 in
  let drivingDuration :=
    fold_left (fun sum drive => sum + (ended_at drive - started_at drive) / 60)
              drives 0 in
  let maxSpeed := maxOf (max_speed firstDrive) (map max_speed others) in
  let averageSpeed :=
    if JS.gtb totalDistance 0 then totalDistance / (drivingDuration / 60)
    else 0 in
  let total_distance' := JS.round2 totalDistance in
  let driving' := JS.round2 drivingDuration in
  let average' := JS.round2 averageSpeed in
  let max' := JS.round2 maxSpeed in
  let predictedAutopilotMiles :=
    predictAutopilotUsage total_distance' average' max' driving' in
  {| merged_id :=
       String.append "merged_"
         (String.concat "_" (map (fun d => JS.string_of_Z (id d)) drives));
     originalDriveIds := map id drives;
     m_started_at := started_at firstDrive;
     m_ended_at := ended_at lastDrive;
     m_starting_location := starting_location firstDrive;
     m_ending_location := ending_location lastDrive;
     m_starting_battery := starting_battery firstDrive;
     m_ending_battery := ending_battery lastDrive;
     total_distance := total_distance';
     total_duration_minutes := JS.round2 totalDuration;
     driving_duration_minutes := driving';
     stops := stops;
     autopilot_distance := predictedAutopilotMiles;
     autopilot_percentage :=
       if JS.gtb totalDistance 0
       then inject_Z (JS.Math_round
                        (predictedAutopilotMiles / totalDistance * 10000))
            / 100
       else 0;
     energy_consumed := starting_battery firstDrive - ending_battery lastDrive;
     m_average_speed := average';
     m_max_speed := max' |}.

Definition createMergedDrive (drives : list TessieDrive)
    : JS.result MergedDrive :=
  match drives with
  | [] => JS.Throw "Cannot create merged drive from empty array"
  | firstDrive :: others => JS.Ok (buildMerged firstDrive others)
  end.

(** The [for] loop of [mergeDrives]: [prevDrive] is [sortedDrives[i-1]],
    [rest] is [sortedDrives[i..]]; the state is [mergedDrives] and
    [currentGroup]. *)
Fixpoint mergeLoop (prevDrive : TessieDrive) (rest : list TessieDrive)
    (mergedDrives : list MergedDrive) (currentGroup : list TessieDrive)
    : JS.result (list MergedDrive * list TessieDrive) :=
  match rest with
  | [] => JS.Ok (mergedDrives, currentGroup)
  | currentDrive :: rest' =>
      let gap := gapMinutes prevDrive currentDrive in
      if shouldMergeDrives prevDrive currentDrive gap then
        mergeLoop currentDrive rest' mergedDrives
                  (currentGroup ++ [currentDrive])
      else
        m <- createMergedDrive currentGroup ;;
        mergeLoop currentDrive rest' (mergedDrives ++ [m]) [currentDrive]
  end.

(** [mergeDrives] from the sorted copy on: the first group, the loop and
    the final group. *)
Definition mergeSorted (sortedDrives : list TessieDrive)
    : JS.result (list MergedDrive) :=
  match sortedDrives with
  | [] => JS.Throw "TypeError: sortedDrives[0] is undefined"
  | first :: rest =>
      st <- mergeLoop first rest [] [first] ;;
      let '(mergedDrives, currentGroup) := st in
      if (0 <? List.length currentGroup)%nat then
        m <- createMergedDrive currentGroup ;;
        JS.Ok (mergedDrives ++ [m])
      else JS.Ok mergedDrives
  end.

Definition mergeDrives (drives : list TessieDrive)
    : JS.result (list MergedDrive) :=
  if (List.length drives =? 0)%nat then JS.Ok []
  else mergeSorted (sortDrives drives).

(** The analysis of the latest merged drive, without [summary] (text
    made of formatted numbers).  [efficiency_miles_per_kwh] is [None]
    where the code leaves it [undefined]. *)
Record DriveAnalysis : Type := mkDriveAnalysis {
  mergedDrive : MergedDrive;
  percentage_used : Q;
  estimated_kwh_used : Q;
  efficiency_miles_per_kwh : option Q;
  total_autopilot_miles : Q;
  fsd_percentage : Q;
  autopilot_available : bool;
  note : string
}.

(** [analyzeBatteryConsumption]: percentage, kWh and miles per kWh. *)
Definition analyzeBatteryConsumption (drive : MergedDrive)
    : Q * Q * option Q :=
  let percentageUsed := JS.round2 (energy_consumed drive) in
  let estimatedTotalCapacity := 75 in
  let estimatedKwhUsed :=
    JS.round2 (percentageUsed / 100 * estimatedTotalCapacity) in
  let efficiency :=
    if JS.gtb (total_distance drive) 0 && JS.gtb estimatedKwhUsed 0
    then Some (JS.round2 (total_distance drive / estimatedKwhUsed))
    else None in
  (percentageUsed, estimatedKwhUsed, efficiency).

(** [analyzeFSDUsage]: miles, percentage and note. *)
Definition analyzeFSDUsage (drive : MergedDrive) : Q * Q * string :=
  let predictedAutopilotMiles :=
    predictAutopilotUsage (total_distance drive) (m_average_speed drive)
                          (m_max_speed drive) (driving_duration_minutes drive) in
  let predictedPercentage :=
    if JS.gtb (total_distance drive) 0
    then inject_Z (JS.Math_round
                     (predictedAutopilotMiles / total_distance drive * 10000))
         / 100
    else 0 in
  (predictedAutopilotMiles, predictedPercentage,
   if JS.gtb predictedAutopilotMiles 0
   then "Estimated based on highway driving patterns and speed consistency"%string
   else "Low probability of FSD usage detected from driving patterns"%string).

(** [analyzeLatestDrive]; [None] is [null]. *)
Definition analyzeLatestDrive (drives : list TessieDrive)
    : JS.result (option DriveAnalysis) :=
  if (List.length drives =? 0)%nat then JS.Ok None
  else
    mergedDrives <- mergeDrives drives ;;
    match rev mergedDrives with
    | [] => JS.Ok None
    | latestMerged :: _ =>
        let '(percentageUsed, estimatedKwhUsed, efficiency) :=
          analyzeBatteryConsumption latestMerged in
        let '(miles, percentage, text) := analyzeFSDUsage latestMerged in
        JS.Ok (Some {| mergedDrive := latestMerged;
                       percentage_used := percentageUsed;
                       estimated_kwh_used := estimatedKwhUsed;
                       efficiency_miles_per_kwh := efficiency;
                       total_autopilot_miles := miles;
                       fsd_percentage := percentage;
                       autopilot_available := true;
                       note := text |})
    end.

End DriveAnalyzer.

(* ================================================================== *)
(** ** Strings and dates *)

Module Str.

Open Scope string_scope.

(** [s.split(c)] for a one-character separator. *)
Fixpoint split (sep : ascii) (s : string) : list string :=
  match s with
  | EmptyString => [EmptyString]
  | String c s' =>
      if Ascii.eqb c sep then EmptyString :: split sep s'
      else match split sep s' with
           | [] => [String c EmptyString]
           | p :: ps => String c p :: ps
           end
  end.

(** White space removed by [trim] (the one-byte members of the class). *)
Definition isWhite (c : ascii) : bool :=
  let n := nat_of_ascii c in
  ((9 <=? n) && (n <=? 13) || (n =? 32))%nat.

Fixpoint trimStart (s : string) : string :=
  match s with
  | EmptyString => EmptyString
  | String c s' => if isWhite c then trimStart s' else s
  end.

Fixpoint trimEnd (s : string) : string :=
  match s with
  | EmptyString => EmptyString
  | String c s' =>
      match trimEnd s' with
      | EmptyString => if isWhite c then EmptyString else String c EmptyString
      | t => String c t
      end
  end.

Definition trim (s : string) : string := trimEnd (trimStart s).

(** The default comparator of [sort()] on strings: the order of the code
    units, which for ASCII text is the order of the bytes. *)
Definition defaultCompare (a b : string) : Q :=
  if String.ltb a b then (-1)%Q else if String.ltb b a then 1%Q else 0%Q.

(** [n] written with at least [w] digits ([padStart(w, '0')]). *)
Fixpoint zeros (n : nat) : string :=
  match n with
  | O => EmptyString
  | S n' => String "0" (zeros n')
  end.

Definition pad (w : nat) (n : Z) : string :=
  let s := JS.string_of_Z n in
  zeros (w - String.length s) ++ s.

(** The civil date of day number [days] (days since 1970-01-01, UTC). *)
Definition civil (days : Z) : Z * Z * Z :=
  let z := (days + 719468)%Z in
  let era := (z / 146097)%Z in
  let doe := (z - era * 146097)%Z in
  let yoe := ((doe - doe / 1460 + doe / 36524 - doe / 146096) / 365)%Z in
  let doy := (doe - (365 * yoe + yoe / 4 - yoe / 100))%Z in
  let mp := ((5 * doy + 2) / 153)%Z in
  let d := (doy - (153 * mp + 2) / 5 + 1)%Z in
  let m := (if mp <? 10 then mp + 3 else mp - 9)%Z in
  let y := (yoe + era * 400 + (if m <=? 2 then 1 else 0))%Z in
  (y, m, d).

(** [new Date(ms).toISOString().split('T')[0]] for years 0 to 9999: the
    time value is [ms] truncated to an integer. *)
Definition isoDate (ms : Q) : string :=
  let t := if Qle_bool 0 ms then Qfloor ms else Qceiling ms in
  let '(y, m, d) := civil (t / 86400000)%Z in
  pad 4 y ++ "-" ++ pad 2 m ++ "-" ++ pad 2 d.

End Str.

(* ================================================================== *)
(** ** Efficiency trend analyzer ([EfficiencyAnalyzer]) *)

Module EfficiencyAnalyzer.

Definition BATTERY_CAPACITY_KWH : Q := 75.
Definition HIGHWAY_SPEED_THRESHOLD : Q := 55.

Inductive WeatherFactor : Type := hot | cold | mild.
Inductive TrendDirection : Type := improving | declining | stable.
Inductive Confidence : Type := high | medium | low.

Record EfficiencyDataPoint : Type := mkPoint {
  date : string;
  efficiency_kwh_per_100mi : Q;
  distance_miles : Q;
  weather_factor : WeatherFactor;
  highway_percentage : Q;
  avg_speed : Q
}.

Record EfficiencyTrend : Type := mkTrend {
  period : string;
  trend_direction : TrendDirection;
  trend_percentage : Q;
  avg_efficiency : Q;
  best_efficiency : Q;
  worst_efficiency : Q;
  confidence : Confidence
}.

(** [current_period], with [efficiency_range.best] and
    [efficiency_range.worst] as [range_best] and [range_worst]. *)
Record CurrentPeriod : Type := mkCurrent {
  cp_avg_efficiency : Q;
  total_miles : Q;
  total_drives : Z;
  range_best : Q;
  range_worst : Q
}.

Record Trends : Type := mkTrends {
  weekly : EfficiencyTrend;
  monthly : EfficiencyTrend;
  seasonal : EfficiencyTrend
}.

(** [factors_analysis], its three groups ([weather_impact],
    [speed_impact], [time_patterns]) laid flat. *)
Record FactorsAnalysis : Type := mkFactors {
  hot_weather_penalty : Q;
  cold_weather_penalty : Q;
  optimal_temp_range : string;
  highway_efficiency : Q;
  city_efficiency : Q;
  optimal_speed_range : string;
  best_day_of_week : string;
  worst_day_of_week : string;
  best_time_of_day : string
}.

Record EfficiencyAnalysis : Type := mkAnalysis {
  current_period : CurrentPeriod;
  trends : Trends;
  factors_analysis : FactorsAnalysis;
  recommendations : list string;
  insights : list string
}.

Definition emptyAnalysis (message : string) : EfficiencyAnalysis :=
  let emptyTrend :=
    {| period := "N/A";
       trend_direction := stable;
       trend_percentage := 0;
       avg_efficiency := 0;
       best_efficiency := 0;
       worst_efficiency := 0;
       confidence := low |} in
  {| current_period :=
       {| cp_avg_efficiency := 0;
          total_miles := 0;
          total_drives := 0;
          range_best := 0;
          range_worst := 0 |};
     trends :=
       {| weekly := emptyTrend; monthly := emptyTrend; seasonal := emptyTrend |};
     factors_analysis :=
       {| hot_weather_penalty := 0;
          cold_weather_penalty := 0;
          optimal_temp_range := "Unknown";
          highway_efficiency := 0;
          city_efficiency := 0;
          optimal_speed_range := "Unknown";
          best_day_of_week := "Unknown";
          worst_day_of_week := "Unknown";
          best_time_of_day := "Unknown" |};
     recommendations := [message];
     insights := [] |}.

(** The consumption rate of one drive, in kWh per 100 miles.  This is
    the exact value of the expression; the code's value is its binary64
    evaluation ([Binary64.efficiencyOf]), a few units in the last place
    away. *)
Definition efficiencyOf (drive : TessieDrive) : Q :=
  let distance := odometer_distance drive in
  let batteryUsed := starting_battery drive - ending_battery drive in
  if JS.gtb distance 0
  then batteryUsed / 100 * BATTERY_CAPACITY_KWH / distance * 100
  else 0.

(** The callback of [drives.map] in [convertToDataPoints]. *)
Definition toDataPoint (drive : TessieDrive) : EfficiencyDataPoint :=
  let distance := odometer_distance drive in
  let efficiency := efficiencyOf drive in
  let avgSpeed := average_speed drive in
  let highwayPercentage :=
    if JS.gtb avgSpeed HIGHWAY_SPEED_THRESHOLD
    then JS.Math_min 100 ((avgSpeed - 25) / 45 * 100)
    else 0 in
  let weatherFactor :=
    if JS.gtb efficiency 35 then cold
    else if JS.gtb efficiency 30 then hot
    else mild in
  {| date := Str.isoDate (started_at drive * 1000);
     efficiency_kwh_per_100mi := efficiency;
     distance_miles := distance;
     weather_factor := weatherFactor;
     highway_percentage := highwayPercentage;
     avg_speed := avgSpeed |}.

(** The predicate of [.filter] in [convertToDataPoints]. *)
Definition plausible (dp : EfficiencyDataPoint) : bool :=
  JS.gtb (efficiency_kwh_per_100mi dp) 0
  && JS.ltb (efficiency_kwh_per_100mi dp) 60.

Definition convertToDataPoints (drives : list TessieDrive)
    : list EfficiencyDataPoint :=
  filter plausible (map toDataPoint drives).

Definition insufficientMessage : string :=
  "Insufficient driving data for trend analysis (minimum 5 drives required)".

Section Analyze.

(** The steps of [analyzeEfficiencyTrends] after [convertToDataPoints]
    (period statistics, trend windows, factor decomposition, insights and
    recommendations) read the wall clock ([new Date()]) and the host time
    zone ([getDay], [getHours]); they are taken as one function of the
    sorted drives and the data points. *)
Variable summarize :
  list TessieDrive -> list EfficiencyDataPoint -> EfficiencyAnalysis.

Definition analyzeEfficiencyTrends (drives : list TessieDrive)
    : EfficiencyAnalysis :=
  if (List.length drives <? 5)%nat then emptyAnalysis insufficientMessage
  else
    let sortedDrives := sortDrives drives in
    let dataPoints := convertToDataPoints sortedDrives in
    summarize sortedDrives dataPoints.

End Analyze.

(** [average]: the mean rounded to two decimals, [0] for no numbers. *)
Definition average (numbers : list Q) : Q :=
  if (List.length numbers =? 0)%nat then 0
  else JS.round2 (JS.sum numbers / inject_Z (Z.of_nat (List.length numbers))).

(** [Math.min(...xs)] and [Math.max(...xs)]; [None] is the [Infinity]
    and [-Infinity] of an empty spread. *)
Definition minOf (xs : list Q) : option Q :=
  match xs with
  | [] => None
  | x :: xs' => Some (fold_left JS.Math_min xs' x)
  end.

Definition maxOf (xs : list Q) : option Q :=
  match xs with
  | [] => None
  | x :: xs' => Some (fold_left JS.Math_max xs' x)
  end.

(** What [calculateCurrentPeriodStats] returns. *)
Record CurrentPeriodStats : Type := mkStats {
  stats_avg_efficiency : Q;
  stats_total_miles : Q;
  stats_total_drives : Z;
  stats_best : option Q;
  stats_worst : option Q
}.

Definition calculateCurrentPeriodStats (dataPoints : list EfficiencyDataPoint)
    : CurrentPeriodStats :=
  let efficiencies := map efficiency_kwh_per_100mi dataPoints in
  let totalMiles :=
    fold_left (fun sum dp => sum + distance_miles dp) dataPoints 0 in
  {| stats_avg_efficiency := average efficiencies;
     stats_total_miles := JS.round2 totalMiles;
     stats_total_drives := Z.of_nat (List.length dataPoints);
     stats_best := minOf efficiencies;
     stats_worst := maxOf efficiencies |}.

Definition isWeather (w : WeatherFactor) (dp : EfficiencyDataPoint) : bool :=
  match weather_factor dp, w with
  | hot, hot | cold, cold | mild, mild => true
  | _, _ => false
  end.

(** The three averages of the weather analysis of
    [analyzeEfficiencyFactors]: mild, hot and cold, the last two falling
    back on the first. *)
Definition weatherAverages (dataPoints : list EfficiencyDataPoint)
    : Q * Q * Q :=
  let hotWeatherData := filter (isWeather hot) dataPoints in
  let coldWeatherData := filter (isWeather cold) dataPoints in
  let mildWeatherData := filter (isWeather mild) dataPoints in
  let mildAvg :=
    if (0 <? List.length mildWeatherData)%nat
    then average (map efficiency_kwh_per_100mi mildWeatherData) else 0 in
  let hotAvg :=
    if (0 <? List.length hotWeatherData)%nat
    then average (map efficiency_kwh_per_100mi hotWeatherData) else mildAvg in
  let coldAvg :=
    if (0 <? List.length coldWeatherData)%nat
    then average (map efficiency_kwh_per_100mi coldWeatherData) else mildAvg in
  (mildAvg, hotAvg, coldAvg).

(** [analyzeEfficiencyFactors], given what [analyzeTimePatterns] (week
    days and hours in the host time zone) returned: best day, worst day
    and best time. *)
Definition analyzeEfficiencyFactors (timePatterns : string * string * string)
    (dataPoints : list EfficiencyDataPoint) : FactorsAnalysis :=
  let '(mildAvg, hotAvg, coldAvg) := weatherAverages dataPoints in
  let highwayData :=
    filter (fun dp => JS.gtb (highway_percentage dp) 50) dataPoints in
  let cityData :=
    filter (fun dp => JS.leb (highway_percentage dp) 50) dataPoints in
  let highwayEfficiency :=
    if (0 <? List.length highwayData)%nat
    then average (map efficiency_kwh_per_100mi highwayData) else 0 in
  let cityEfficiency :=
    if (0 <? List.length cityData)%nat
    then average (map efficiency_kwh_per_100mi cityData) else 0 in
  let '(bestDay, worstDay, bestTime) := timePatterns in
  {| hot_weather_penalty :=
       if JS.gtb mildAvg 0 then (hotAvg - mildAvg) / mildAvg * 100 else 0;
     cold_weather_penalty :=
       if JS.gtb mildAvg 0 then (coldAvg - mildAvg) / mildAvg * 100 else 0;
     optimal_temp_range := "65-75°F";
     highway_efficiency := JS.round2 highwayEfficiency;
     city_efficiency := JS.round2 cityEfficiency;
     optimal_speed_range := "45-65 mph";
     best_day_of_week := bestDay;
     worst_day_of_week := worstDay;
     best_time_of_day := bestTime |}.

End EfficiencyAnalyzer.

(* ================================================================== *)
(** ** Commute route clusterer ([CommuteAnalyzer]) *)

Module CommuteAnalyzer.

Open Scope string_scope.

Definition MIN_ROUTE_FREQUENCY : nat := 3.
Definition HOME_RATE_PER_KWH : Q := 0.13.

(** The separator of a route identifier and of a route name, as the
    source file spells it. *)
Definition arrow : string := " â†” ".

Inductive Trend : Type := improving | declining | stable.

(** A commute route.  [best_efficiency] and [worst_efficiency] are
    [Math.min(...es)] and [Math.max(...es)], which have no finite value
    for an empty [es] ([None]).  The field [time_patterns] (clock times in
    the host time zone and locale) is left out. *)
Record CommuteRoute : Type := mkRoute {
  route_id : string;
  name : string;
  from_location : string;
  to_location : string;
  typical_distance : Q;
  frequency : Q;
  avg_duration_minutes : Q;
  avg_efficiency_kwh_per_100mi : Q;
  avg_battery_used : Q;
  best_efficiency : option Q;
  worst_efficiency : option Q;
  recent_trend : Trend
}.

(** The analysis, without [recommendations] (formatted text) and
    [weekly_summary] (week days in the host time zone). *)
Record CommuteAnalysis : Type := mkCommute {
  routes_detected : Z;
  total_commute_miles : Q;
  total_commute_cost : Q;
  avg_commute_efficiency : Q;
  routes : list CommuteRoute
}.

Definition emptyAnalysis : CommuteAnalysis :=
  {| routes_detected := 0;
     total_commute_miles := 0;
     total_commute_cost := 0;
     avg_commute_efficiency := 0;
     routes := [] |}.

(** [parts[i]] read as a string ([undefined] does not occur where this is
    used: the index is in range). *)
Definition part (parts : list string) (i : nat) : string :=
  nth i parts EmptyString.

Definition normalizeLocation (location : string) : string :=
  let parts := Str.split "," location in
  if (3 <=? List.length parts)%nat then
    Str.trim (part parts (List.length parts - 3)) ++ ", "
    ++ Str.trim (part parts (List.length parts - 2))
  else location.

Definition generateRouteId (startLocation endLocation : string) : string :=
  let start := normalizeLocation startLocation in
  let end_ := normalizeLocation endLocation in
  String.concat arrow (JS.sort Str.defaultCompare [start; end_]).

(** [routes.get(routeId).push(drive)], with [routes.set(routeId, [])]
    first when the key is new; a [Map] iterates in insertion order. *)
Fixpoint pushDrive (routeId : string) (drive : TessieDrive)
    (routes : list (string * list TessieDrive))
    : list (string * list TessieDrive) :=
  match routes with
  | [] => [(routeId, [drive])]
  | (k, ds) :: rest =>
      if String.eqb k routeId then (k, (ds ++ [drive])%list) :: rest
      else (k, ds) :: pushDrive routeId drive rest
  end.

Definition groupDrivesByRoute (drives : list TessieDrive)
    : list (string * list TessieDrive) :=
  fold_left
    (fun routes drive =>
       pushDrive
         (generateRouteId (starting_location drive) (ending_location drive))
         drive routes)
    drives [].

Definition average (numbers : list Q) : Q :=
  if (List.length numbers =? 0)%nat then 0
  else JS.round2 (JS.sum numbers / inject_Z (Z.of_nat (List.length numbers))).

(** The efficiency of one drive as [analyzeRoute] and
    [calculateAvgEfficiencyForDrives] compute it. *)
Definition routeEfficiency (d : TessieDrive) : Q :=
  let distance := odometer_distance d in
  let battery := starting_battery d - ending_battery d in
  if JS.eqb distance 0 then 0 else battery / 100 * 75 / distance * 100.

(** The filter of [calculateAvgEfficiencyForDrives]; the code applies it
    to the binary64 value of the rate. *)
Definition realistic (e : Q) : bool := JS.gtb e 0 && JS.ltb e 50.

Definition calculateAvgEfficiencyForDrives (drives : list TessieDrive) : Q :=
  average (filter realistic (map routeEfficiency drives)).

(** [calculateEfficiencyTrend] from the sorted array on; [n] is
    [drives.length].  A zero [olderEfficiency] makes the quotient
    [-Infinity], [Infinity] or [NaN], by the sign of the numerator.  The
    percentage is exact here and a binary64 value in the code: at an
    improvement of exactly 5% the two can differ. *)
Definition trendOfSorted (n : nat) (sortedDrives : list TessieDrive) : Trend :=
  let recentDrives := skipn (List.length sortedDrives - 6) sortedDrives in
  let olderDrives := firstn (Nat.min 6 (n - 6)) sortedDrives in
  if (List.length olderDrives =? 0)%nat then stable
  else
    let recentEfficiency := calculateAvgEfficiencyForDrives recentDrives in
    let olderEfficiency := calculateAvgEfficiencyForDrives olderDrives in
    if JS.eqb olderEfficiency 0 then
      if JS.eqb (olderEfficiency - recentEfficiency) 0 then stable
      else if JS.ltb (olderEfficiency - recentEfficiency) 0 then declining
      else improving
    else
      let improvement :=
        (olderEfficiency - recentEfficiency) / olderEfficiency * 100 in
      if JS.gtb improvement 5 then improving
      else if JS.ltb improvement (-5) then declining
      else stable.

(** [calculateEfficiencyTrend].  It sorts its argument in place when it
    has six drives or more; the caller sees that through [afterTrend]. *)
Definition calculateEfficiencyTrend (drives : list TessieDrive) : Trend :=
  if (List.length drives <? 6)%nat then stable
  else trendOfSorted (List.length drives) (sortDrives drives).

(** The group array after [calculateEfficiencyTrend] has run on it. *)
Definition afterTrend (drives : list TessieDrive) : list TessieDrive :=
  if (List.length drives <? 6)%nat then drives else sortDrives drives.

(** [calculateWeeklyFrequency] from the sorted array on; [n] is
    [drives.length], which is not zero. *)
Definition frequencyOfSorted (n : nat) (sortedDrives : list TessieDrive) : Q :=
  match sortedDrives with
  | [] => 0
  | firstDrive :: others =>
      let lastDrive := last others firstDrive in
      let timeSpanWeeks :=
        (started_at lastDrive - started_at firstDrive) / (7 * 24 * 3600) in
      if JS.eqb timeSpanWeeks 0
      then inject_Z (Z.of_nat n)
      else JS.round2 (inject_Z (Z.of_nat n) / timeSpanWeeks)
  end.

Definition calculateWeeklyFrequency (drives : list TessieDrive) : Q :=
  if (List.length drives =? 0)%nat then 0
  else frequencyOfSorted (List.length drives) (sortDrives drives).

(** [extractCityName] of [generateRouteName]:
    [parts[parts.length - 3]?.trim() || parts[0].trim()] when the label
    has a comma, its first word otherwise. *)
Definition extractCityName (location : string) : string :=
  let parts := Str.split "," location in
  if (2 <=? List.length parts)%nat then
    let third :=
      if (3 <=? List.length parts)%nat
      then Str.trim (part parts (List.length parts - 3))
      else EmptyString in
    if String.eqb third EmptyString then Str.trim (part parts 0) else third
  else part (Str.split " " location) 0.

Definition generateRouteName (drive : TessieDrive) : string :=
  let startCity := extractCityName (starting_location drive) in
  let endCity := extractCityName (ending_location drive) in
  if String.eqb startCity endCity then startCity ++ " Local"
  else startCity ++ arrow ++ endCity.

(** [Math.min(...xs)] and [Math.max(...xs)]. *)
Definition minOf (xs : list Q) : option Q :=
  match xs with
  | [] => None
  | x :: xs' => Some (fold_left JS.Math_min xs' x)
  end.

Definition maxOf (xs : list Q) : option Q :=
  match xs with
  | [] => None
  | x :: xs' => Some (fold_left JS.Math_max xs' x)
  end.

Definition analyzeRoute (routeGroup : string * list TessieDrive)
    : JS.result CommuteRoute :=
  let '(routeId, drives) := routeGroup in
  let distances := map odometer_distance drives in
  let durations := map (fun d => (ended_at d - started_at d) / 60) drives in
  let batteryUsed :=
    map (fun d => starting_battery d - ending_battery d) drives in
  let efficiencies := filter realistic (map routeEfficiency drives) in
  let recentTrend := calculateEfficiencyTrend drives in
  match afterTrend drives with
  | [] => JS.Throw "TypeError: drives[0] is undefined"
  | drive0 :: _ =>
      JS.Ok
        {| route_id := routeId;
           name := generateRouteName drive0;
           from_location := starting_location drive0;
           to_location := ending_location drive0;
           typical_distance := average distances;
           frequency := calculateWeeklyFrequency (afterTrend drives);
           avg_duration_minutes := average durations;
           avg_efficiency_kwh_per_100mi := average efficiencies;
           avg_battery_used := average batteryUsed;
           best_efficiency := minOf efficiencies;
           worst_efficiency := maxOf efficiencies;
           recent_trend := recentTrend |}
  end.

Definition calculateCommuteCost (totalMiles : Q) : Q :=
  let kwhUsed := totalMiles / 4 in
  kwhUsed * HOME_RATE_PER_KWH.

Definition calculateAvgEfficiency (routes : list CommuteRoute) : Q :=
  if (List.length routes =? 0)%nat then 0
  else
    let total :=
      fold_left (fun sum route => sum + avg_efficiency_kwh_per_100mi route)
                routes 0 in
    JS.round2 (total / inject_Z (Z.of_nat (List.length routes))).

(** [groups.map(group => this.analyzeRoute(group))]. *)
Fixpoint mapRoutes (groups : list (string * list TessieDrive))
    : JS.result (list CommuteRoute) :=
  match groups with
  | [] => JS.Ok []
  | g :: gs =>
      r <- analyzeRoute g ;;
      rs <- mapRoutes gs ;;
      JS.Ok (r :: rs)
  end.

Definition frequentEnough (group : string * list TessieDrive) : bool :=
  (MIN_ROUTE_FREQUENCY <=? List.length (snd group))%nat.

Definition analyzeCommutes (drives : list TessieDrive)
    : JS.result CommuteAnalysis :=
  if (List.length drives <? 10)%nat then JS.Ok emptyAnalysis
  else
    let routeGroups := groupDrivesByRoute drives in
    commuteRoutes <- mapRoutes (filter frequentEnough routeGroups) ;;
    let totalCommuteMiles :=
      fold_left (fun sum route => sum + typical_distance route * frequency route)
                commuteRoutes 0 in
    let totalCommuteCost := calculateCommuteCost totalCommuteMiles in
    JS.Ok
      {| routes_detected := Z.of_nat (List.length commuteRoutes);
         total_commute_miles := JS.round2 totalCommuteMiles;
         total_commute_cost := JS.round2 totalCommuteCost;
         avg_commute_efficiency := calculateAvgEfficiency commuteRoutes;
         routes := commuteRoutes |}.

(** The days of the week, in the order of the [days] array, which is
    also the order in which [dailyStats] is filled and iterated. *)
Inductive Weekday : Type :=
| Sunday | Monday | Tuesday | Wednesday | Thursday | Friday | Saturday.

Definition days : list Weekday :=
  [Sunday; Monday; Tuesday; Wednesday; Thursday; Friday; Saturday].

Definition sameDay (a b : Weekday) : bool :=
  match a, b with
  | Sunday, Sunday | Monday, Monday | Tuesday, Tuesday
  | Wednesday, Wednesday | Thursday, Thursday | Friday, Friday
  | Saturday, Saturday => true
  | _, _ => false
  end.

(** One entry of [dailyStats]. *)
Record DayStats : Type := mkDayStats {
  day_drives : Z;
  day_miles : Q;
  day_efficiency : Q
}.

(** [weekly_summary]; [None] is the day ['N/A']. *)
Record WeeklySummary : Type := mkWeekly {
  total_drives : Z;
  total_miles : Q;
  total_cost : Q;
  avg_efficiency : Q;
  best_day : option Weekday;
  worst_day : option Weekday
}.

(** What the loop over [dailyStats] carries: [bestDay], [worstDay],
    [bestEfficiency] ([None] is [Infinity]) and [worstEfficiency]. *)
Record Extremes : Type := mkExtremes {
  bestDay : option Weekday;
  worstDay : option Weekday;
  bestEfficiency : option Q;
  worstEfficiency : Q
}.

(** One recommendation of [generateCommuteRecommendations], by
    template, with the values its text is built from. *)
Inductive CommuteRecommendation : Type :=
| EfficiencyDeclining (routeName : string)
| HighEnergyUsage (routeName : string) (rate : Q)
| MostFrequentRoute (routeName : string) (perWeek weeklyCost : Q)
| RegularRoutes (count : nat)
| ProTip
| BestAndWorstDay (best worst : Weekday).

Section Calendar.

(** [new Date(t * 1000).getDay()]: the day of the week of the time [t]
    in the host time zone. *)
Variable getDay : Q -> Weekday.

(** The body of [drives.forEach] in [calculateWeeklySummary], on the
    entry of the drive's day. *)
Definition countDrive (stats : DayStats) (drive : TessieDrive) : DayStats :=
  let drives' := (day_drives stats + 1)%Z in
  let distance := odometer_distance drive in
  let battery := starting_battery drive - ending_battery drive in
  {| day_drives := drives';
     day_miles := day_miles stats + odometer_distance drive;
     day_efficiency :=
       if JS.gtb distance 0 then
         let efficiency := battery / 100 * 75 / distance * 100 in
         (day_efficiency stats * inject_Z (drives' - 1) + efficiency)
         / inject_Z drives'
       else day_efficiency stats |}.

Definition fillDay (dailyStats : Weekday -> DayStats) (drive : TessieDrive)
    : Weekday -> DayStats :=
  let day := getDay (started_at drive) in
  fun d => if sameDay d day then countDrive (dailyStats day) drive
           else dailyStats d.

Definition noDayStats : Weekday -> DayStats :=
  fun _ => {| day_drives := 0; day_miles := 0; day_efficiency := 0 |}.

(** The body of [dailyStats.forEach]. *)
Definition compareDay (dailyStats : Weekday -> DayStats) (e : Extremes)
    (day : Weekday) : Extremes :=
  let stats := dailyStats day in
  if (0 <? day_drives stats)%Z then
    let e1 :=
      if (match bestEfficiency e with
          | None => true
          | Some best => JS.ltb (day_efficiency stats) best
          end)
         && JS.gtb (day_efficiency stats) 0
      then {| bestDay := Some day; worstDay := worstDay e;
              bestEfficiency := Some (day_efficiency stats);
              worstEfficiency := worstEfficiency e |}
      else e in
    if JS.gtb (day_efficiency stats) (worstEfficiency e1)
    then {| bestDay := bestDay e1; worstDay := Some day;
            bestEfficiency := bestEfficiency e1;
            worstEfficiency := day_efficiency stats |}
    else e1
  else e.

Definition noExtremes : Extremes :=
  {| bestDay := None; worstDay := None;
     bestEfficiency := None; worstEfficiency := 0 |}.

Definition calculateWeeklySummary (drives : list TessieDrive)
    : WeeklySummary :=
  let dailyStats := fold_left fillDay drives noDayStats in
  let extremes := fold_left (compareDay dailyStats) days noExtremes in
  let totalMiles := JS.sum (map odometer_distance drives) in
  let totalCost := calculateCommuteCost totalMiles in
  let avgEfficiency := calculateAvgEfficiencyForDrives drives in
  {| total_drives := Z.of_nat (List.length drives);
     total_miles := JS.round2 totalMiles;
     total_cost := JS.round2 totalCost;
     avg_efficiency := JS.round2 avgEfficiency;
     best_day := bestDay extremes;
     worst_day := worstDay extremes |}.

End Calendar.

(** The lines [routes.forEach] pushes for one route. *)
Definition routeRecommendations (route : CommuteRoute)
    : list CommuteRecommendation :=
  ((match recent_trend route with
    | declining => [EfficiencyDeclining (name route)]
    | _ => []
    end)
   ++ (if JS.gtb (avg_efficiency_kwh_per_100mi route) 30
       then [HighEnergyUsage (name route)
                             (avg_efficiency_kwh_per_100mi route)]
       else [])
   ++ (if JS.gtb (frequency route) 10
       then [MostFrequentRoute (name route) (frequency route)
               (typical_distance route * frequency route
                * avg_efficiency_kwh_per_100mi route / 100
                * HOME_RATE_PER_KWH)]
       else []))%list.

Definition generateCommuteRecommendations (routes : list CommuteRoute)
    (summary : WeeklySummary) : list CommuteRecommendation :=
  (flat_map routeRecommendations routes
   ++ (if (2 <? List.length routes)%nat
       then [RegularRoutes (List.length routes)] else [])
   ++ [ProTip]
   ++ (match best_day summary, worst_day summary with
       | Some best, Some worst => [BestAndWorstDay best worst]
       | _, _ => []
       end))%list.

End CommuteAnalyzer.

(* ================================================================== *)
(** ** Trip cost calculator ([TripCalculator]) *)

Module TripCalculator.

Definition BATTERY_CAPACITY_KWH : Q := 75.
Definition DEFAULT_HOME_RATE : Q := 0.13.
Definition DEFAULT_SUPERCHARGER_RATE : Q := 0.28.
Definition DEFAULT_GAS_PRICE : Q := 4.50.
Definition DEFAULT_MPG : Q := 30.
Definition CO2_PER_GALLON : Q := 19.6.
Definition CO2_PER_KWH_GRID : Q := 0.855.

(** One line of [charging_strategy]; the numbers are the ones the
    template strings print ([Math.round] of a percentage). *)
Inductive StrategyLine : Type :=
| NoTripData
| HighSuperchargerUsage (percent : Z)
| SingleOvernightCharge
| OptimalStartingCharge (percent : Z)
| OffPeakCharging.

(** The analysis, its groups ([trip_summary], [cost_breakdown],
    [comparison], [environmental_impact]) laid flat. *)
Record TripCostAnalysis : Type := mkTripCost {
  distance_miles : Q;
  duration_hours : Q;
  battery_used_percent : Q;
  energy_used_kwh : Q;
  efficiency_miles_per_kwh : Q;
  electricity_cost : Q;
  charging_stops_cost : Q;
  total_cost : Q;
  cost_per_mile : Q;
  gas_cost_estimate : Q;
  savings : Q;
  savings_percentage : Q;
  optimal_cost : Q;
  current_cost : Q;
  potential_savings : Q;
  charging_strategy : list StrategyLine;
  co2_saved_lbs : Q;
  trees_equivalent : Z
}.

Definition emptyAnalysis : TripCostAnalysis :=
  {| distance_miles := 0; duration_hours := 0; battery_used_percent := 0;
     energy_used_kwh := 0; efficiency_miles_per_kwh := 0;
     electricity_cost := 0; charging_stops_cost := 0; total_cost := 0;
     cost_per_mile := 0;
     gas_cost_estimate := 0; savings := 0; savings_percentage := 0;
     optimal_cost := 0; current_cost := 0; potential_savings := 0;
     charging_strategy := [NoTripData];
     co2_saved_lbs := 0; trees_equivalent := 0 |}.

Definition calculateTotalDuration (drives : list TessieDrive) : Q :=
  match drives with
  | [] => 0
  | firstDrive :: others =>
      let firstStart := started_at firstDrive in
      let lastEnd := ended_at (last others firstDrive) in
      (lastEnd - firstStart) / 3600
  end.

(** [calculateTotalBatteryUsed]; it reads [drives[0]] first. *)
Definition calculateTotalBatteryUsed (drives : list TessieDrive)
    : JS.result Q :=
  match drives with
  | [] => JS.Throw "TypeError: drives[0] is undefined"
  | _ =>
      JS.Ok
        (fold_left
           (fun totalUsed drive =>
              let driveUsage := starting_battery drive - ending_battery drive in
              if JS.gtb driveUsage 0 then totalUsed + driveUsage else totalUsed)
           drives 0)
  end.

Record ChargingCosts : Type := mkCosts {
  electricityCost : Q;
  chargingStopsCost : Q;
  totalCost : Q
}.

(** The loop of [estimateChargingCosts] over consecutive pairs; the state
    is [(homeCost, superchargerCost)]. *)
Fixpoint gapCosts (prevDrive : TessieDrive) (rest : list TessieDrive)
    (homeRate superchargerRate : Q) (costs : Q * Q) : Q * Q :=
  match rest with
  | [] => costs
  | currentDrive :: rest' =>
      let '(homeCost, superchargerCost) := costs in
      let batteryGained :=
        starting_battery currentDrive - ending_battery prevDrive in
      let costs' :=
        if JS.gtb batteryGained 2 then
          let energyAdded := batteryGained / 100 * BATTERY_CAPACITY_KWH in
          let gapHours :=
            (started_at currentDrive - ended_at prevDrive) / 3600 in
          if JS.ltb gapHours 1 && JS.gtb batteryGained 30
          then (homeCost, superchargerCost + energyAdded * superchargerRate)
          else (homeCost + energyAdded * homeRate, superchargerCost)
        else costs in
      gapCosts currentDrive rest' homeRate superchargerRate costs'
  end.

(** The two buckets after the loop, before the unaccounted energy is
    considered. *)
Definition detectedCosts (drives : list TessieDrive)
    (homeRate superchargerRate : Q) : Q * Q :=
  match drives with
  | [] => (0, 0)
  | d :: rest => gapCosts d rest homeRate superchargerRate (0, 0)
  end.

(** [detectedChargingKwh]. *)
Definition detectedChargingKwh (drives : list TessieDrive)
    (homeRate superchargerRate : Q) : Q :=
  let '(homeCost, superchargerCost) :=
    detectedCosts drives homeRate superchargerRate in
  homeCost / homeRate + superchargerCost / superchargerRate.

(** [estimateChargingCosts].  The kWh recovered from the two buckets are
    exact here; in the code each quotient is rounded, so that a gap
    energy of exactly half the total can fall below the half
    ([Binary64.estimateChargingCosts]). *)
Definition estimateChargingCosts (drives : list TessieDrive)
    (totalEnergyKwh homeRate superchargerRate : Q) : ChargingCosts :=
  let '(homeCost, superchargerCost) :=
    detectedCosts drives homeRate superchargerRate in
  let detected := homeCost / homeRate + superchargerCost / superchargerRate in
  let homeCost' :=
    if JS.ltb detected (totalEnergyKwh * 0.5) then
      let unaccountedKwh := totalEnergyKwh - detected in
      homeCost + unaccountedKwh * homeRate
    else homeCost in
  {| electricityCost := homeCost';
     chargingStopsCost := superchargerCost;
     totalCost := homeCost' + superchargerCost |}.

Definition generateChargingStrategy (totalBatteryUsed : Q)
    (costs : ChargingCosts) : list StrategyLine :=
  let superchargerPercent :=
    chargingStopsCost costs / totalCost costs * 100 in
  (if JS.gtb superchargerPercent 40
   then [HighSuperchargerUsage (JS.Math_round superchargerPercent)] else [])
  ++ (if JS.ltb totalBatteryUsed 80 then [SingleOvernightCharge] else [])
  ++ [OptimalStartingCharge
        (JS.Math_round (JS.Math_min 90 (totalBatteryUsed + 20)))]
  ++ (if JS.gtb (electricityCost costs) 0 then [OffPeakCharging] else []).

(** The energy, in kWh, that [calculateTripCost] attributes: the battery
    points used over the sorted drives, times the pack capacity. *)
Definition totalEnergyKwhOf (totalBatteryUsed : Q) : Q :=
  totalBatteryUsed / 100 * BATTERY_CAPACITY_KWH.

(** [calculateTripCost].  [cost_per_mile] divides by the total
    distance; for drives of no distance the code's quotient is
    [Infinity] or [NaN], where the division of [Q] gives 0. *)
Definition calculateTripCost (drives : list TessieDrive)
    (homeRate superchargerRate gasPrice : Q) : JS.result TripCostAnalysis :=
  if (List.length drives =? 0)%nat then JS.Ok emptyAnalysis
  else
    let sortedDrives := sortDrives drives in
    let totalDistance := JS.sum (map odometer_distance drives) in
    let totalDuration := calculateTotalDuration sortedDrives in
    totalBatteryUsed <- calculateTotalBatteryUsed sortedDrives ;;
    let totalEnergyKwh := totalEnergyKwhOf totalBatteryUsed in
    let efficiency :=
      if JS.gtb totalEnergyKwh 0 then totalDistance / totalEnergyKwh else 0 in
    let chargingCosts :=
      estimateChargingCosts sortedDrives totalEnergyKwh
                            homeRate superchargerRate in
    let gasCost := totalDistance / DEFAULT_MPG * gasPrice in
    let optimal := totalEnergyKwh * (homeRate * 0.7) in
    let strategy := generateChargingStrategy totalBatteryUsed chargingCosts in
    let co2Saved :=
      totalDistance / DEFAULT_MPG * CO2_PER_GALLON
      - totalEnergyKwh * CO2_PER_KWH_GRID in
    let treesEquivalent := co2Saved / 48 in
    JS.Ok
      {| distance_miles := JS.round2 totalDistance;
         duration_hours := JS.round2 totalDuration;
         battery_used_percent := JS.round2 totalBatteryUsed;
         energy_used_kwh := JS.round2 totalEnergyKwh;
         efficiency_miles_per_kwh := JS.round2 efficiency;
         electricity_cost := JS.round2 (electricityCost chargingCosts);
         charging_stops_cost := JS.round2 (chargingStopsCost chargingCosts);
         total_cost := JS.round2 (totalCost chargingCosts);
         cost_per_mile := JS.round3 (totalCost chargingCosts / totalDistance);
         gas_cost_estimate := JS.round2 gasCost;
         savings := JS.round2 0;
         savings_percentage := JS.round2 0;
         optimal_cost := JS.round2 optimal;
         current_cost := JS.round2 (totalCost chargingCosts);
         potential_savings := JS.round2 0;
         charging_strategy := strategy;
         co2_saved_lbs := JS.round1 (JS.Math_max 0 co2Saved);
         trees_equivalent := JS.Math_round (JS.Math_max 0 treesEquivalent) |}.

(** The [strategy] text of a future-trip estimate, by template. *)
Inductive TripStrategy (N : Type) : Type :=
| ChargeAtHome (target : N)
| HomeThenSupercharger (stops : N)
| NoChargingNeeded (current : N).
Arguments ChargeAtHome {N} target.
Arguments HomeThenSupercharger {N} stops.
Arguments NoChargingNeeded {N} current.

Record FutureTripCost : Type := mkFuture {
  estimated_cost : Q;
  charging_needed : bool;
  recommended_charge_level : Q;
  charging_stops_needed : Z;
  strategy : TripStrategy Q
}.

(** [totalBatteryNeeded]: the required charge with the 15% buffer, as
    an exact product; [Binary64.totalBatteryNeeded] is the code's
    value. *)
Definition totalBatteryNeeded (distanceMiles : Q) : Q :=
  let efficiencyMilesPerKwh := 4 in
  let energyNeeded := distanceMiles / efficiencyMilesPerKwh in
  let batteryPercentNeeded := energyNeeded / BATTERY_CAPACITY_KWH * 100 in
  batteryPercentNeeded * 1.15.

(** [chargeDeficit]. *)
Definition chargeDeficit (distanceMiles currentBatteryPercent : Q) : Q :=
  JS.Math_max 0 (totalBatteryNeeded distanceMiles - currentBatteryPercent).

Definition estimateFutureTripCost
    (distanceMiles currentBatteryPercent homeRate superchargerRate : Q)
    : FutureTripCost :=
  let needed := totalBatteryNeeded distanceMiles in
  let chargingNeeded := JS.gtb needed currentBatteryPercent in
  let deficit := chargeDeficit distanceMiles currentBatteryPercent in
  let superchargerStopsNeeded := JS.Math_ceil (deficit / 50) in
  let '(estimatedCost, strategy) :=
    if chargingNeeded then
      if JS.leb deficit 60 then
        let kwhNeeded := deficit / 100 * BATTERY_CAPACITY_KWH in
        (kwhNeeded * homeRate,
         ChargeAtHome
           (inject_Z (JS.Math_round (currentBatteryPercent + deficit))))
      else
        let homeChargeKwh :=
          (90 - currentBatteryPercent) / 100 * BATTERY_CAPACITY_KWH in
        let superchargerKwh :=
          (deficit - (90 - currentBatteryPercent)) / 100
          * BATTERY_CAPACITY_KWH in
        (homeChargeKwh * homeRate + superchargerKwh * superchargerRate,
         HomeThenSupercharger (inject_Z superchargerStopsNeeded))
    else (0, NoChargingNeeded currentBatteryPercent) in
  {| estimated_cost := JS.round2 estimatedCost;
     charging_needed := chargingNeeded;
     recommended_charge_level :=
       JS.Math_min 100
         (inject_Z (JS.Math_round (currentBatteryPercent + deficit)));
     charging_stops_needed := superchargerStopsNeeded;
     strategy := strategy |}.

End TripCalculator.

(* ================================================================== *)
(** ** [estimateFutureTripCost], [estimateChargingCosts] and the
    consumption rate in binary64

    The same functions on IEEE 754 doubles, the numbers JavaScript
    computes with, for evaluation at given arguments. *)

Module Binary64.

Import TripCalculator.
Local Set Warnings "-inexact-float".
Local Open Scope float_scope.

Definition two52 : float := 4503599627370496.

(** The nearest integer of [x] (ties to even), for [|x| < 2^52]. *)
Definition rint (x : float) : float :=
  if PrimFloat.leb 0 x then (x + two52) - two52 else (x - two52) + two52.

Definition integral (x : float) : bool := PrimFloat.leb two52 (PrimFloat.abs x).

Definition Math_floor (x : float) : float :=
  if integral x then x
  else let r := rint x in if PrimFloat.ltb x r then r - 1 else r.

Definition Math_ceil (x : float) : float :=
  if integral x then x
  else let r := rint x in if PrimFloat.ltb r x then r + 1 else r.

(** [Math.round]: halves go up. *)
Definition Math_round (x : float) : float :=
  let f := Math_floor x in
  if PrimFloat.leb 0.5 (x - f) then f + 1 else f.

Definition Math_max (a b : float) : float := if PrimFloat.ltb a b then b else a.
Definition Math_min (a b : float) : float := if PrimFloat.ltb b a then b else a.

Definition BATTERY_CAPACITY_KWH : float := 75.
Definition DEFAULT_HOME_RATE : float := 0.13.
Definition DEFAULT_SUPERCHARGER_RATE : float := 0.28.

Record FutureTripCost : Type := mkFuture {
  estimated_cost : float;
  charging_needed : bool;
  recommended_charge_level : float;
  charging_stops_needed : float;
  strategy : TripStrategy float
}.

Definition totalBatteryNeeded (distanceMiles : float) : float :=
  let efficiencyMilesPerKwh := 4 in
  let energyNeeded := distanceMiles / efficiencyMilesPerKwh in
  let batteryPercentNeeded := energyNeeded / BATTERY_CAPACITY_KWH * 100 in
  batteryPercentNeeded * 1.15.

Definition chargeDeficit (distanceMiles currentBatteryPercent : float) : float :=
  Math_max 0 (totalBatteryNeeded distanceMiles - currentBatteryPercent).

Definition estimateFutureTripCost
    (distanceMiles currentBatteryPercent homeRate superchargerRate : float)
    : FutureTripCost :=
  let needed := totalBatteryNeeded distanceMiles in
  let chargingNeeded := PrimFloat.ltb currentBatteryPercent needed in
  let deficit := chargeDeficit distanceMiles currentBatteryPercent in
  let superchargerStopsNeeded := Math_ceil (deficit / 50) in
  let '(estimatedCost, strategy) :=
    if chargingNeeded then
      if PrimFloat.leb deficit 60 then
        let kwhNeeded := deficit / 100 * BATTERY_CAPACITY_KWH in
        (kwhNeeded * homeRate,
         ChargeAtHome (Math_round (currentBatteryPercent + deficit)))
      else
        let homeChargeKwh :=
          (90 - currentBatteryPercent) / 100 * BATTERY_CAPACITY_KWH in
        let superchargerKwh :=
          (deficit - (90 - currentBatteryPercent)) / 100
          * BATTERY_CAPACITY_KWH in
        (homeChargeKwh * homeRate + superchargerKwh * superchargerRate,
         HomeThenSupercharger superchargerStopsNeeded)
    else (0, NoChargingNeeded currentBatteryPercent) in
  {| estimated_cost := Math_round (estimatedCost * 100) / 100;
     charging_needed := chargingNeeded;
     recommended_charge_level :=
       Math_min 100 (Math_round (currentBatteryPercent + deficit));
     charging_stops_needed := superchargerStopsNeeded;
     strategy := strategy |}.

(** [Math.round(x * 100) / 100]. *)
Definition round2 (x : float) : float := Math_round (x * 100) / 100.

(** A drive as [estimateChargingCosts] reads it. *)
Record Drive : Type := mkDrive {
  starting_battery : float;
  ending_battery : float;
  started_at : float;
  ended_at : float
}.

Definition calculateTotalBatteryUsed (drives : list Drive) : float :=
  fold_left
    (fun totalUsed drive =>
       let driveUsage := starting_battery drive - ending_battery drive in
       if PrimFloat.ltb 0 driveUsage then totalUsed + driveUsage
       else totalUsed)
    drives 0.

Fixpoint gapCosts (prevDrive : Drive) (rest : list Drive)
    (homeRate superchargerRate : float) (costs : float * float)
    : float * float :=
  match rest with
  | [] => costs
  | currentDrive :: rest' =>
      let '(homeCost, superchargerCost) := costs in
      let batteryGained :=
        starting_battery currentDrive - ending_battery prevDrive in
      let costs' :=
        if PrimFloat.ltb 2 batteryGained then
          let energyAdded := batteryGained / 100 * BATTERY_CAPACITY_KWH in
          let gapHours :=
            (started_at currentDrive - ended_at prevDrive) / 3600 in
          if PrimFloat.ltb gapHours 1 && PrimFloat.ltb 30 batteryGained
          then (homeCost, superchargerCost + energyAdded * superchargerRate)
          else (homeCost + energyAdded * homeRate, superchargerCost)
        else costs in
      gapCosts currentDrive rest' homeRate superchargerRate costs'
  end.

(** The kWh that [estimateChargingCosts] recovers from the two buckets
    and compares with half of the total. *)
Definition detectedChargingKwh (drives : list Drive)
    (homeRate superchargerRate : float) : float :=
  let '(homeCost, superchargerCost) :=
    match drives with
    | [] => (0, 0)
    | d :: rest => gapCosts d rest homeRate superchargerRate (0, 0)
    end in
  homeCost / homeRate + superchargerCost / superchargerRate.

(** [estimateChargingCosts]: the electricity cost and the cost of the
    charging stops. *)
Definition estimateChargingCosts (drives : list Drive)
    (totalEnergyKwh homeRate superchargerRate : float) : float * float :=
  let '(homeCost, superchargerCost) :=
    match drives with
    | [] => (0, 0)
    | d :: rest => gapCosts d rest homeRate superchargerRate (0, 0)
    end in
  let detected := homeCost / homeRate + superchargerCost / superchargerRate in
  let homeCost' :=
    if PrimFloat.ltb detected (totalEnergyKwh * 0.5) then
      let unaccountedKwh := totalEnergyKwh - detected in
      homeCost + unaccountedKwh * homeRate
    else homeCost in
  (homeCost', superchargerCost).

(** The consumption rate that [convertToDataPoints] stores for a drive
    from [startingBattery] to [endingBattery] over [distance] miles. *)
Definition efficiencyOf (startingBattery endingBattery distance : float)
    : float :=
  let batteryUsed := startingBattery - endingBattery in
  if PrimFloat.ltb 0 distance
  then batteryUsed / 100 * BATTERY_CAPACITY_KWH / distance * 100
  else 0.

End Binary64.

(* ================================================================== *)
(** ** Charging session detector ([ChargingAnalyzer]) *)

Module ChargingAnalyzer.

Open Scope string_scope.

Inductive LocationType : Type := home | work | supercharger | public | unknown.

Record ChargingSession : Type := mkSession {
  session_id : string;
  c_started_at : Q;
  c_ended_at : Q;
  c_location : string;
  location_type : LocationType;
  c_starting_battery : Q;
  c_ending_battery : Q;
  energy_added_kwh : Q;
  cost_estimate : Q;
  cost_per_kwh : Q;
  miles_added : Q;
  charge_rate_kw : Q;
  c_duration_minutes : Q
}.

(** The rates; [time_of_use] holds the off-peak and the peak rate (the
    [hours] texts are not read). *)
Record ChargeRates : Type := mkRates {
  home_rate_per_kwh : Q;
  supercharger_rate_per_kwh : Q;
  public_rate_per_kwh : Q;
  work_rate_per_kwh : Q;
  time_of_use : option (Q * Q)
}.

Definition defaultRates : ChargeRates :=
  {| home_rate_per_kwh := 0.13;
     supercharger_rate_per_kwh := 0.28;
     public_rate_per_kwh := 0.20;
     work_rate_per_kwh := 0;
     time_of_use := Some (0.09, 0.32) |}.

(** The learned locations of one analyzer: [homeLocations],
    [workLocations] (sets, in insertion order) and [frequentLocations]
    (a map to counts). *)
Record Learned : Type := mkLearned {
  homeLocations : list string;
  workLocations : list string;
  frequentLocations : list (string * Z)
}.

Definition noLocations : Learned :=
  {| homeLocations := []; workLocations := []; frequentLocations := [] |}.

(** [set.has(x)] and [set.add(x)]. *)
Definition has (set : list string) (x : string) : bool :=
  existsb (String.eqb x) set.

Definition add (set : list string) (x : string) : list string :=
  if has set x then set else (set ++ [x])%list.

(** [map.get(k) || 0] and [map.set(k, v)] on counts. *)
Fixpoint getCount (m : list (string * Z)) (k : string) : Z :=
  match m with
  | [] => 0%Z
  | (k', v) :: rest => if String.eqb k' k then v else getCount rest k
  end.

Fixpoint setCount (m : list (string * Z)) (k : string) (v : Z)
    : list (string * Z) :=
  match m with
  | [] => [(k, v)]
  | (k', v') :: rest =>
      if String.eqb k' k then (k', v) :: rest
      else (k', v') :: setCount rest k v
  end.

(** [s.toLowerCase()] on the letters A to Z, which are the only letters
    whose lower case is one of a to z apart from two that become k and
    i: enough for a search of words without k and i. *)
Definition lowerAscii (c : ascii) : ascii :=
  let n := nat_of_ascii c in
  if ((65 <=? n) && (n <=? 90))%nat then ascii_of_nat (n + 32) else c.

Fixpoint toLowerCase (s : string) : string :=
  match s with
  | EmptyString => EmptyString
  | String c s' => String (lowerAscii c) (toLowerCase s')
  end.

(** [s.includes(word)]. *)
Fixpoint includes (word s : string) : bool :=
  String.prefix word s
  || match s with
     | EmptyString => false
     | String _ s' => includes word s'
     end.

Section Host.

(** [new Date(t * 1000).getHours()]: the hour of the day of the time [t]
    in the host time zone. *)
Variable getHours : Q -> Z.

Variable rates : ChargeRates.

(** [classifyLocation]; it counts long stays and may learn a home
    location. *)
Definition classifyLocation (st : Learned) (location : string)
    (duration batteryGained : Q) : LocationType * Learned :=
  let lowerLocation := toLowerCase location in
  if includes "supercharger" lowerLocation || includes "tesla" lowerLocation
  then (supercharger, st)
  else if JS.ltb duration 60 && JS.gtb batteryGained 40
  then (supercharger, st)
  else if has (homeLocations st) location then (home, st)
  else if has (workLocations st) location then (work, st)
  else if JS.gtb duration 240 then
    let count := getCount (frequentLocations st) location in
    let st1 :=
      {| homeLocations := homeLocations st;
         workLocations := workLocations st;
         frequentLocations :=
           setCount (frequentLocations st) location (count + 1) |} in
    if (5 <? count)%Z then
      (home,
       {| homeLocations := add (homeLocations st1) location;
          workLocations := workLocations st1;
          frequentLocations := frequentLocations st1 |})
    else (if JS.gtb duration 480 then home else work, st1)
  else if JS.gtb duration 30 && JS.ltb duration 240 then (public, st)
  else (unknown, st).

Definition getRateForLocation (locationType : LocationType) (timestamp : Q)
    : Q :=
  let hour := getHours timestamp in
  match locationType with
  | home =>
      match time_of_use rates with
      | Some (offPeak, peak) =>
          if ((23 <=? hour) || (hour <? 7))%Z then offPeak
          else if ((16 <=? hour) && (hour <? 21))%Z then peak
          else home_rate_per_kwh rates
      | None => home_rate_per_kwh rates
      end
  | supercharger => supercharger_rate_per_kwh rates
  | public => public_rate_per_kwh rates
  | work => work_rate_per_kwh rates
  | unknown => public_rate_per_kwh rates
  end.

(** [createChargingSession].  The figures that are rounded to
    hundredths are roundings of exact products here and of binary64
    products in the code: the two agree to the cent. *)
Definition createChargingSession (st : Learned)
    (prevDrive nextDrive : TessieDrive) (batteryGained : Q)
    : ChargingSession * Learned :=
  let duration := (started_at nextDrive - ended_at prevDrive) / 60 in
  let location := ending_location prevDrive in
  let '(locationType, st') :=
    classifyLocation st location duration batteryGained in
  let batteryCapacity := 75 in
  let energyAdded := batteryGained / 100 * batteryCapacity in
  let chargeRate :=
    if JS.gtb duration 0 then energyAdded / (duration / 60) else 0 in
  let costPerKwh := getRateForLocation locationType (ended_at prevDrive) in
  let cost := energyAdded * costPerKwh in
  let milesAdded := energyAdded * 4 in
  ({| session_id :=
        "charge_" ++ JS.string_of_Z (id prevDrive) ++ "_"
        ++ JS.string_of_Z (id nextDrive);
      c_started_at := ended_at prevDrive;
      c_ended_at := started_at nextDrive;
      c_location := location;
      location_type := locationType;
      c_starting_battery := ending_battery prevDrive;
      c_ending_battery := starting_battery nextDrive;
      energy_added_kwh := JS.round2 energyAdded;
      cost_estimate := JS.round2 cost;
      cost_per_kwh := costPerKwh;
      miles_added := JS.round2 milesAdded;
      charge_rate_kw := JS.round1 chargeRate;
      c_duration_minutes := JS.round2 duration |},
   st').

(** The loop of [detectChargingSessions] over consecutive pairs. *)
Fixpoint detectLoop (st : Learned) (prevDrive : TessieDrive)
    (rest : list TessieDrive) : list ChargingSession * Learned :=
  match rest with
  | [] => ([], st)
  | currentDrive :: rest' =>
      let batteryGained :=
        starting_battery currentDrive - ending_battery prevDrive in
      if JS.gtb batteryGained 2 then
        let '(session, st1) :=
          createChargingSession st prevDrive currentDrive batteryGained in
        let '(sessions, st2) := detectLoop st1 currentDrive rest' in
        (session :: sessions, st2)
      else detectLoop st currentDrive rest'
  end.

Definition detectChargingSessions (st : Learned) (drives : list TessieDrive)
    : list ChargingSession * Learned :=
  match sortDrives drives with
  | [] => ([], st)
  | first :: rest => detectLoop st first rest
  end.

(** One line of [sessions_by_location]: its [sessions], [cost] and
    [kwh]. *)
Record Tally : Type := mkTally {
  n_sessions : Z;
  sum_cost : Q;
  sum_kwh : Q
}.

Definition noTally : Tally :=
  {| n_sessions := 0; sum_cost := 0; sum_kwh := 0 |}.

Record ByLocation : Type := mkByLocation {
  at_home : Tally;
  at_supercharger : Tally;
  at_public : Tally;
  at_work : Tally;
  at_unknown : Tally
}.

Definition noSessions : ByLocation :=
  {| at_home := noTally; at_supercharger := noTally; at_public := noTally;
     at_work := noTally; at_unknown := noTally |}.

Definition tally (t : Tally) (session : ChargingSession) : Tally :=
  {| n_sessions := (n_sessions t + 1)%Z;
     sum_cost := sum_cost t + cost_estimate session;
     sum_kwh := sum_kwh t + energy_added_kwh session |}.

(** The body of [sessions.forEach] in [analyzeChargingCosts]. *)
Definition tallySession (byLoc : ByLocation) (session : ChargingSession)
    : ByLocation :=
  match location_type session with
  | home =>
      {| at_home := tally (at_home byLoc) session;
         at_supercharger := at_supercharger byLoc; at_public := at_public byLoc;
         at_work := at_work byLoc; at_unknown := at_unknown byLoc |}
  | supercharger =>
      {| at_home := at_home byLoc;
         at_supercharger := tally (at_supercharger byLoc) session;
         at_public := at_public byLoc; at_work := at_work byLoc;
         at_unknown := at_unknown byLoc |}
  | public =>
      {| at_home := at_home byLoc; at_supercharger := at_supercharger byLoc;
         at_public := tally (at_public byLoc) session;
         at_work := at_work byLoc; at_unknown := at_unknown byLoc |}
  | work =>
      {| at_home := at_home byLoc; at_supercharger := at_supercharger byLoc;
         at_public := at_public byLoc;
         at_work := tally (at_work byLoc) session;
         at_unknown := at_unknown byLoc |}
  | unknown =>
      {| at_home := at_home byLoc; at_supercharger := at_supercharger byLoc;
         at_public := at_public byLoc; at_work := at_work byLoc;
         at_unknown := tally (at_unknown byLoc) session |}
  end.

(** One recommendation, by template, with the numbers its text is built
    from. *)
Inductive Recommendation : Type :=
| NoSessionsFound
| SuperchargerShare (percent : Z) (saving : Z)
| ShiftPeakSessions (count : nat) (saving : Z)
| SlowHomeCharging (averageRate : Q)
| NoWorkplaceCharging
| WellOptimized.

(** A home session that started in the peak window. *)
Definition peakHome (s : ChargingSession) : bool :=
  let hour := getHours (c_started_at s) in
  match location_type s with
  | home => ((16 <=? hour) && (hour <? 21))%Z
  | _ => false
  end.

Definition generateRecommendations (sessions : list ChargingSession)
    (byLocation : ByLocation) : list Recommendation :=
  let superchargerPercent :=
    sum_cost (at_supercharger byLocation)
    / JS.sum (map cost_estimate sessions) * 100 in
  let peakHourSessions := filter peakHome sessions in
  let peakCost := JS.sum (map cost_estimate peakHourSessions) in
  let avgChargeRate :=
    JS.sum (map charge_rate_kw sessions)
    / inject_Z (Z.of_nat (List.length sessions)) in
  let recommendations :=
    ((if JS.gtb superchargerPercent 30
      then [SuperchargerShare
              (JS.Math_round superchargerPercent)
              (JS.Math_round (sum_cost (at_supercharger byLocation) * 0.5))]
      else [])
     ++ (if (0 <? List.length peakHourSessions)%nat
         then [ShiftPeakSessions (List.length peakHourSessions)
                                 (JS.Math_round (peakCost * 0.6))]
         else [])
     ++ (if JS.ltb avgChargeRate 7
            && (0 <? n_sessions (at_home byLocation))%Z
         then [SlowHomeCharging avgChargeRate] else [])
     ++ (if (n_sessions (at_work byLocation) =? 0)%Z
            && (10 <? List.length sessions)%nat
         then [NoWorkplaceCharging] else []))%list in
  if (0 <? List.length recommendations)%nat then recommendations
  else [WellOptimized].

Definition calculatePotentialSavings (sessions : list ChargingSession)
    (byLocation : ByLocation) : Q :=
  let superchargerKwh := sum_kwh (at_supercharger byLocation) in
  let homeRate :=
    match time_of_use rates with
    | Some (offPeak, _) =>
        if JS.eqb offPeak 0 then home_rate_per_kwh rates else offPeak
    | None => home_rate_per_kwh rates
    end in
  let savings1 :=
    0 + superchargerKwh * (supercharger_rate_per_kwh rates - homeRate) * 0.5 in
  let peakSessions := filter peakHome sessions in
  let peakKwh := JS.sum (map energy_added_kwh peakSessions) in
  match time_of_use rates with
  | Some (offPeak, peak) => savings1 + peakKwh * (peak - offPeak)
  | None => savings1
  end.

Record ChargingAnalysis : Type := mkChargingAnalysis {
  total_sessions : Z;
  total_cost : Q;
  total_kwh : Q;
  total_miles_added : Q;
  average_cost_per_session : Q;
  average_cost_per_kwh : Q;
  average_cost_per_mile : Q;
  sessions_by_location : ByLocation;
  recommendations : list Recommendation;
  potential_savings : Q
}.

Definition analyzeChargingCosts (sessions : list ChargingSession)
    : ChargingAnalysis :=
  if (List.length sessions =? 0)%nat then
    {| total_sessions := 0; total_cost := 0; total_kwh := 0;
       total_miles_added := 0; average_cost_per_session := 0;
       average_cost_per_kwh := 0; average_cost_per_mile := 0;
       sessions_by_location := noSessions;
       recommendations := [NoSessionsFound];
       potential_savings := 0 |}
  else
    let totalCost := JS.sum (map cost_estimate sessions) in
    let totalKwh := JS.sum (map energy_added_kwh sessions) in
    let totalMiles := JS.sum (map miles_added sessions) in
    let sessionsByLocation := fold_left tallySession sessions noSessions in
    let recommendations :=
      generateRecommendations sessions sessionsByLocation in
    let potentialSavings :=
      calculatePotentialSavings sessions sessionsByLocation in
    {| total_sessions := Z.of_nat (List.length sessions);
       total_cost := JS.round2 totalCost;
       total_kwh := JS.round2 totalKwh;
       total_miles_added := JS.round2 totalMiles;
       average_cost_per_session :=
         JS.round2 (totalCost / inject_Z (Z.of_nat (List.length sessions)));
       average_cost_per_kwh := JS.round2 (totalCost / totalKwh);
       average_cost_per_mile := JS.round3 (totalCost / totalMiles);
       sessions_by_location := sessionsByLocation;
       recommendations := recommendations;
       potential_savings := JS.round2 potentialSavings |}.

(** The statistics [learnLocations] keeps per location. *)
Record Stay : Type := mkStay {
  stay_count : Z;
  stay_overnight : Z;
  stay_duration : Q
}.

(** [locationFrequency.get(k) || { count: 0, overnight: 0, duration: 0 }]
    and [locationFrequency.set(k, v)]. *)
Fixpoint getStay (m : list (string * Stay)) (k : string) : Stay :=
  match m with
  | [] => {| stay_count := 0; stay_overnight := 0; stay_duration := 0 |}
  | (k', v) :: rest => if String.eqb k' k then v else getStay rest k
  end.

Fixpoint setStay (m : list (string * Stay)) (k : string) (v : Stay)
    : list (string * Stay) :=
  match m with
  | [] => [(k, v)]
  | (k', v') :: rest =>
      if String.eqb k' k then (k', v) :: rest
      else (k', v') :: setStay rest k v
  end.

(** The first loop of [learnLocations], over consecutive pairs of the
    drives as given. *)
Fixpoint stayLoop (prevDrive : TessieDrive) (rest : list TessieDrive)
    (locationFrequency : list (string * Stay)) : list (string * Stay) :=
  match rest with
  | [] => locationFrequency
  | nextDrive :: rest' =>
      let location := ending_location prevDrive in
      let duration := (started_at nextDrive - ended_at prevDrive) / 3600 in
      let stats := getStay locationFrequency location in
      let endHour := getHours (ended_at prevDrive) in
      let overnight :=
        if ((20 <? endHour) || (endHour <? 6))%Z && JS.gtb duration 6
        then (stay_overnight stats + 1)%Z else stay_overnight stats in
      stayLoop nextDrive rest'
        (setStay locationFrequency location
           {| stay_count := (stay_count stats + 1)%Z;
              stay_overnight := overnight;
              stay_duration := stay_duration stats + duration |})
  end.

(** The location with the most overnight stays, [""] when there is
    none. *)
Definition mostOvernights (locationFrequency : list (string * Stay))
    : string :=
  snd (fold_left
         (fun best entry =>
            if (fst best <? stay_overnight (snd entry))%Z
            then (stay_overnight (snd entry), fst entry) else best)
         locationFrequency (0%Z, EmptyString)).

Definition learnLocations (st : Learned) (drives : list TessieDrive)
    : Learned :=
  let locationFrequency :=
    match drives with
    | [] => []
    | first :: rest => stayLoop first rest []
    end in
  let homeLocation := mostOvernights locationFrequency in
  let homes :=
    if String.eqb homeLocation EmptyString then homeLocations st
    else add (homeLocations st) homeLocation in
  let works :=
    fold_left
      (fun works entry =>
         let stats := snd entry in
         if (10 <? stay_count stats)%Z
            && JS.gtb (stay_duration stats / inject_Z (stay_count stats)) 6
            && negb (has homes (fst entry))
         then add works (fst entry) else works)
      locationFrequency (workLocations st) in
  {| homeLocations := homes;
     workLocations := works;
     frequentLocations := frequentLocations st |}.

End Host.

End ChargingAnalyzer.

(* ================================================================== *)
(** ** Charging reminders ([ChargingReminderSystem])

    The reminders, the charging schedule and the range analysis.  The
    texts are kept as templates with the numbers they are built from;
    deadlines and the list of smart insights, which are fixed
    sentences, are left out. *)

Module ChargingReminderSystem.

Open Scope string_scope.

Definition COMFORT_RANGE_THRESHOLD : Q := 50.
Definition EMERGENCY_RANGE_THRESHOLD : Q := 20.
Definition OPTIMAL_CHARGE_LEVEL : Q := 80.
Definition DAILY_CHARGE_LEVEL : Q := 90.
Definition COLD_WEATHER_THRESHOLD : Q := 32.
Definition HOT_WEATHER_THRESHOLD : Q := 85.
Definition OFF_PEAK_START : Q := 23.
Definition OFF_PEAK_END : Q := 7.
Definition PEAK_RATE : Q := 0.35.
Definition OFF_PEAK_RATE : Q := 0.13.

(** The four readings the system takes from the vehicle state; a
    reading that is absent is [None]. *)
Record VehicleState : Type := mkVehicle {
  battery_level : option Q;
  battery_range : option Q;
  charging_state : option string;
  speed : option Q
}.

(** [x || 0] on a number that may be absent. *)
Definition orZero (x : option Q) : Q :=
  match x with Some v => v | None => 0 end.

(** [s || 'Disconnected'] on a string that may be absent; the empty
    string is falsy. *)
Definition orDisconnected (s : option string) : string :=
  match s with
  | Some v => if String.eqb v "" then "Disconnected" else v
  | None => "Disconnected"
  end.

Inductive Priority : Type := urgent | high | medium | low.

Inductive ReminderType : Type :=
| range_warning | optimal_charge | time_of_use | weather_prep | trip_prep
| maintenance.

(** The title and message of a reminder, by template. *)
Inductive ReminderText : Type :=
| CriticalRange (miles : Z)
| LowRange (miles : Z)
| PlugIn (batteryLevel savings : Q)
| PeakHourCharging (savings : Q)
| ColdWeatherPrep (temperature : Q)
| HotWeatherPrep (temperature : Q)
| TripCharging (distance : Q) (chargeNeeded : Z)
| DailyRoutine (dailyMiles : Q) (leftover : Z)
| BatteryHealthTip.

Record ChargingReminder : Type := mkReminder {
  priority : Priority;
  type : ReminderType;
  text : ReminderText;
  action_required : bool;
  time_sensitive : bool
}.

Definition getPriorityWeight (p : Priority) : Q :=
  match p with urgent => 1 | high => 2 | medium => 3 | low => 4 end.

(** [calculateOffPeakSavings]: the difference of two products, exact
    here and rounded in the code. *)
Definition calculateOffPeakSavings (chargePercent : Q) : Q :=
  let kwhNeeded := chargePercent / 100 * 75 in
  let peakCost := kwhNeeded * PEAK_RATE in
  let offPeakCost := kwhNeeded * OFF_PEAK_RATE in
  peakCost - offPeakCost.

Definition isHomeLocation (vehicleState : VehicleState) : bool :=
  JS.eqb (orZero (speed vehicleState)) 0.

Section Clock.

(** [new Date().getHours()]: the hour of the day when the method
    runs. *)
Variable hour : Z.

Definition isDuringPeakHours : bool := ((16 <=? hour) && (hour <=? 21))%Z.

Definition generateReminders (vehicleState : VehicleState) (dailyMiles : Q)
    (nextTripDistance weatherTemp : option Q) : list ChargingReminder :=
  let batteryLevel := orZero (battery_level vehicleState) in
  let rangeMiles := orZero (battery_range vehicleState) in
  let chargingState := orDisconnected (charging_state vehicleState) in
  let isHome := isHomeLocation vehicleState in
  let rangeForTomorrow := rangeMiles - dailyMiles in
  ((if JS.ltb rangeMiles EMERGENCY_RANGE_THRESHOLD then
      [ {| priority := urgent; type := range_warning;
           text := CriticalRange (JS.Math_round rangeMiles);
           action_required := true; time_sensitive := true |} ]
    else if JS.ltb rangeMiles COMFORT_RANGE_THRESHOLD then
      [ {| priority := high; type := range_warning;
           text := LowRange (JS.Math_round rangeMiles);
           action_required := true; time_sensitive := true |} ]
    else [])
   ++ (if isHome && String.eqb chargingState "Disconnected"
          && JS.ltb batteryLevel OPTIMAL_CHARGE_LEVEL
       then
         let chargeNeeded := OPTIMAL_CHARGE_LEVEL - batteryLevel in
         let savings := calculateOffPeakSavings chargeNeeded in
         [ {| priority := if JS.ltb batteryLevel 30 then high else medium;
              type := optimal_charge;
              text := PlugIn batteryLevel savings;
              action_required := true; time_sensitive := false |} ]
       else [])
   ++ (if String.eqb chargingState "Charging" && isDuringPeakHours
       then
         [ {| priority := medium; type := time_of_use;
              text := PeakHourCharging (calculateOffPeakSavings 20);
              action_required := false; time_sensitive := true |} ]
       else [])
   ++ (match weatherTemp with
       | Some temp =>
           if JS.ltb temp COLD_WEATHER_THRESHOLD && JS.ltb batteryLevel 90
           then
             [ {| priority := medium; type := weather_prep;
                  text := ColdWeatherPrep temp;
                  action_required := true; time_sensitive := true |} ]
           else if JS.gtb temp HOT_WEATHER_THRESHOLD
                   && JS.ltb batteryLevel 85
           then
             [ {| priority := medium; type := weather_prep;
                  text := HotWeatherPrep temp;
                  action_required := true; time_sensitive := true |} ]
           else []
       | None => []
       end)
   ++ (match nextTripDistance with
       | Some distance =>
           if negb (JS.eqb distance 0) && JS.gtb distance 0 then
             let requiredRange := distance * 1.3 in
             if JS.ltb rangeMiles requiredRange then
               [ {| priority := high; type := trip_prep;
                    text :=
                      TripCharging distance
                        (JS.Math_ceil ((requiredRange - rangeMiles) / 3));
                    action_required := true; time_sensitive := true |} ]
             else []
           else []
       | None => []
       end)
   ++ (if JS.ltb rangeForTomorrow COMFORT_RANGE_THRESHOLD && isHome
       then
         [ {| priority := medium; type := optimal_charge;
              text := DailyRoutine dailyMiles (JS.Math_round rangeForTomorrow);
              action_required := true; time_sensitive := false |} ]
       else [])
   ++ (if JS.eqb batteryLevel 100 && String.eqb chargingState "Complete"
       then
         [ {| priority := low; type := maintenance;
              text := BatteryHealthTip;
              action_required := false; time_sensitive := false |} ]
       else []))%list.

End Clock.

(** [charging_schedule]: the hours its two times print, and the
    savings. *)
Record ChargingSchedule : Type := mkSchedule {
  optimal_start_hour : Q;
  optimal_end_hour : Q;
  estimated_cost_savings : Q
}.

Definition calculateOptimalSchedule (batteryLevel dailyMiles : Q)
    : ChargingSchedule :=
  let chargeNeeded := JS.Math_max 0 (OPTIMAL_CHARGE_LEVEL - batteryLevel) in
  let chargingHours := inject_Z (JS.Math_ceil (chargeNeeded * 3 / 25)) in
  let optimalStart := JS.Math_max OFF_PEAK_START 23 in
  let optimalEnd := JS.Math_min (OFF_PEAK_END + chargingHours) 7 in
  let savings := calculateOffPeakSavings chargeNeeded in
  {| optimal_start_hour := if JS.eqb optimalStart 23 then 11 else optimalStart;
     optimal_end_hour := optimalEnd;
     estimated_cost_savings := JS.round2 savings |}.

(** [next_charge_needed]; the number of days is [None] when the
    quotient is [Infinity] (no daily miles). *)
Inductive NextCharge : Type :=
| Tonight
| TomorrowEvening
| InDays (days : option Z).

Record RangeAnalysis : Type := mkRange {
  comfort_range : bool;
  emergency_range : bool;
  recommended_charge_level : Q;
  next_charge_needed : NextCharge
}.

Definition analyzeRange (batteryLevel rangeMiles dailyMiles : Q)
    (nextTripDistance : option Q) : RangeAnalysis :=
  let longTrip :=
    match nextTripDistance with
    | Some distance => negb (JS.eqb distance 0) && JS.gtb distance 200
    | None => false
    end in
  let recommendedLevel :=
    if longTrip then JS.Math_min 100 90
    else if JS.gtb dailyMiles 60 then DAILY_CHARGE_LEVEL
    else OPTIMAL_CHARGE_LEVEL in
  let rangeAfterDailyDriving := rangeMiles - dailyMiles in
  {| comfort_range := JS.gtb rangeMiles COMFORT_RANGE_THRESHOLD;
     emergency_range := JS.ltb rangeMiles EMERGENCY_RANGE_THRESHOLD;
     recommended_charge_level := recommendedLevel;
     next_charge_needed :=
       if JS.ltb rangeAfterDailyDriving COMFORT_RANGE_THRESHOLD then Tonight
       else if JS.ltb rangeAfterDailyDriving (dailyMiles * 2)
       then TomorrowEvening
       else if JS.eqb dailyMiles 0 then InDays None
       else InDays (Some (Qfloor (rangeAfterDailyDriving / dailyMiles))) |}.

(** [generateChargingStrategy], with [current_status] laid flat. *)
Record ChargingStrategy : Type := mkStrategy {
  status_battery_level : Q;
  status_charging_state : string;
  status_range_miles : Z;
  plugged_in : bool;
  recommendations : list ChargingReminder;
  charging_schedule : ChargingSchedule;
  range_analysis : RangeAnalysis
}.

Definition byPriority (a b : ChargingReminder) : Q :=
  getPriorityWeight (priority a) - getPriorityWeight (priority b).

Definition generateChargingStrategy (hour : Z) (vehicleState : VehicleState)
    (dailyMiles : Q) (nextTripDistance weatherTemp : option Q)
    : ChargingStrategy :=
  let batteryLevel := orZero (battery_level vehicleState) in
  let rangeMiles := orZero (battery_range vehicleState) in
  let chargingState := orDisconnected (charging_state vehicleState) in
  let pluggedIn :=
    negb (String.eqb chargingState "Disconnected")
    && negb (String.eqb chargingState "Complete") in
  let recommendations :=
    generateReminders hour vehicleState dailyMiles nextTripDistance
                      weatherTemp in
  {| status_battery_level := batteryLevel;
     status_charging_state := chargingState;
     status_range_miles := JS.Math_round rangeMiles;
     plugged_in := pluggedIn;
     recommendations := JS.sort byPriority recommendations;
     charging_schedule := calculateOptimalSchedule batteryLevel dailyMiles;
     range_analysis :=
       analyzeRange batteryLevel rangeMiles dailyMiles nextTripDistance |}.

End ChargingReminderSystem.

(* ================================================================== *)
(** ** The analyzers on shared arrays

    The entry points again, with the arrays of drives in a store, so
    that sorting in place, spreading and pushing act on the array they
    are applied to and every alias of it sees the change.  Numbers,
    records and strings are values; only arrays of drives live in the
    store. *)

Module Effects.

(** A reference to an array of drives, and the store of those arrays. *)
Definition aref : Type := nat.
Definition store : Type := list (list TessieDrive).

(** A computation on the store that returns or throws. *)
Definition St (A : Type) : Type := store -> JS.result A * store.

Definition ret {A : Type} (a : A) : St A := fun h => (JS.Ok a, h).

Definition throw {A : Type} (msg : string) : St A := fun h => (JS.Throw msg, h).

Definition lift {A : Type} (r : JS.result A) : St A := fun h => (r, h).

Definition bind {A B : Type} (m : St A) (k : A -> St B) : St B :=
  fun h =>
    match m h with
    | (JS.Ok a, h') => k a h'
    | (JS.Throw msg, h') => (JS.Throw msg, h')
    end.

Declare Scope st_scope.
Delimit Scope st_scope with st.
Notation "x <~ m ;; k" := (bind m (fun x => k))
  (at level 61, m at next level, right associativity) : st_scope.
Local Open Scope st_scope.

(** The elements of the array [r]. *)
Definition elements (r : aref) (h : store) : list TessieDrive := nth r h [].

(** The store with the array [r] holding [l]. *)
Fixpoint update (r : aref) (l : list TessieDrive) (h : store) : store :=
  match h, r with
  | [], _ => []
  | _ :: t, O => l :: t
  | x :: t, S r' => x :: update r' l t
  end.

(** Reading an array (its length, its elements in order). *)
Definition contents (r : aref) : St (list TessieDrive) :=
  fun h => (JS.Ok (elements r h), h).

(** An array literal: a new array. *)
Definition newArray (l : list TessieDrive) : St aref :=
  fun h => (JS.Ok (List.length h), h ++ [l]).

(** [[...arr]]: a new array with the elements of [arr]. *)
Definition spread (r : aref) : St aref :=
  fun h => (JS.Ok (List.length h), h ++ [elements r h]).

(** [arr.sort((a, b) => a.started_at - b.started_at)]: sorts [arr] itself
    and returns it. *)
Definition sortInPlace (r : aref) : St aref :=
  fun h => (JS.Ok r, update r (sortDrives (elements r h)) h).

(** [arr.push(d)]. *)
Definition push (r : aref) (d : TessieDrive) : St unit :=
  fun h => (JS.Ok tt, update r (elements r h ++ [d]) h).

(** [DriveAnalyzer.mergeDrives].  The group arrays of the loop are made
    and read inside it only. *)
Definition mergeDrives (drives : aref) : St (list DriveAnalyzer.MergedDrive) :=
  ds <~ contents drives ;;
  if (List.length ds =? 0)%nat then ret []
  else
    copy <~ spread drives ;;
    sortedDrives <~ sortInPlace copy ;;
    s <~ contents sortedDrives ;;
    lift (DriveAnalyzer.mergeSorted s).

(** [EfficiencyAnalyzer.analyzeEfficiencyTrends]; the later steps only
    read [sortedDrives]. *)
Definition analyzeEfficiencyTrends
    (summarize : list TessieDrive ->
                 list EfficiencyAnalyzer.EfficiencyDataPoint ->
                 EfficiencyAnalyzer.EfficiencyAnalysis)
    (drives : aref) : St EfficiencyAnalyzer.EfficiencyAnalysis :=
  ds <~ contents drives ;;
  if (List.length ds <? 5)%nat
  then ret (EfficiencyAnalyzer.emptyAnalysis
              EfficiencyAnalyzer.insufficientMessage)
  else
    sortedDrives <~ sortInPlace drives ;;
    s <~ contents sortedDrives ;;
    ret (summarize s (EfficiencyAnalyzer.convertToDataPoints s)).

(** [routes.get(routeId).push(drive)], after [routes.set(routeId, [])]
    for a new key. *)
Fixpoint pushDrive (routeId : string) (drive : TessieDrive)
    (routes : list (string * aref)) : St (list (string * aref)) :=
  match routes with
  | [] =>
      g <~ newArray [] ;;
      _ <~ push g drive ;;
      ret [(routeId, g)]
  | (k, g) :: rest =>
      if String.eqb k routeId then
        _ <~ push g drive ;;
        ret routes
      else
        rest' <~ pushDrive routeId drive rest ;;
        ret ((k, g) :: rest')
  end.

(** The [for ... of] loop of [groupDrivesByRoute]. *)
Fixpoint groupLoop (ds : list TessieDrive) (routes : list (string * aref))
    : St (list (string * aref)) :=
  match ds with
  | [] => ret routes
  | drive :: ds' =>
      routes' <~ pushDrive
                   (CommuteAnalyzer.generateRouteId
                      (starting_location drive) (ending_location drive))
                   drive routes ;;
      groupLoop ds' routes'
  end.

Definition groupDrivesByRoute (drives : aref) : St (list (string * aref)) :=
  ds <~ contents drives ;;
  groupLoop ds [].

Definition calculateEfficiencyTrend (drives : aref) : St CommuteAnalyzer.Trend :=
  ds <~ contents drives ;;
  if (List.length ds <? 6)%nat then ret CommuteAnalyzer.stable
  else
    sortedDrives <~ sortInPlace drives ;;
    s <~ contents sortedDrives ;;
    ret (CommuteAnalyzer.trendOfSorted (List.length s) s).

Definition calculateWeeklyFrequency (drives : aref) : St Q :=
  ds <~ contents drives ;;
  if (List.length ds =? 0)%nat then ret 0
  else
    sortedDrives <~ sortInPlace drives ;;
    s <~ contents sortedDrives ;;
    ret (CommuteAnalyzer.frequencyOfSorted (List.length s) s).

Definition analyzeRoute (routeGroup : string * aref)
    : St CommuteAnalyzer.CommuteRoute :=
  let '(routeId, drives) := routeGroup in
  ds <~ contents drives ;;
  let distances := map odometer_distance ds in
  let durations := map (fun d => (ended_at d - started_at d) / 60) ds in
  let batteryUsed := map (fun d => starting_battery d - ending_battery d) ds in
  let efficiencies :=
    filter CommuteAnalyzer.realistic (map CommuteAnalyzer.routeEfficiency ds) in
  recentTrend <~ calculateEfficiencyTrend drives ;;
  ds1 <~ contents drives ;;
  match ds1 with
  | [] => throw "TypeError: drives[0] is undefined"
  | drive0 :: _ =>
      freq <~ calculateWeeklyFrequency drives ;;
      ret {| CommuteAnalyzer.route_id := routeId;
             CommuteAnalyzer.name := CommuteAnalyzer.generateRouteName drive0;
             CommuteAnalyzer.from_location := starting_location drive0;
             CommuteAnalyzer.to_location := ending_location drive0;
             CommuteAnalyzer.typical_distance :=
               CommuteAnalyzer.average distances;
             CommuteAnalyzer.frequency := freq;
             CommuteAnalyzer.avg_duration_minutes :=
               CommuteAnalyzer.average durations;
             CommuteAnalyzer.avg_efficiency_kwh_per_100mi :=
               CommuteAnalyzer.average efficiencies;
             CommuteAnalyzer.avg_battery_used :=
               CommuteAnalyzer.average batteryUsed;
             CommuteAnalyzer.best_efficiency :=
               CommuteAnalyzer.minOf efficiencies;
             CommuteAnalyzer.worst_efficiency :=
               CommuteAnalyzer.maxOf efficiencies;
             CommuteAnalyzer.recent_trend := recentTrend |}
  end.

(** [groups.filter(group => group.drives.length >= 3)]. *)
Fixpoint frequentGroups (groups : list (string * aref))
    : St (list (string * aref)) :=
  match groups with
  | [] => ret []
  | g :: gs =>
      ds <~ contents (snd g) ;;
      rest <~ frequentGroups gs ;;
      ret (if (CommuteAnalyzer.MIN_ROUTE_FREQUENCY <=? List.length ds)%nat
           then g :: rest else rest)
  end.

(** [groups.map(group => this.analyzeRoute(group))]. *)
Fixpoint mapRoutes (groups : list (string * aref))
    : St (list CommuteAnalyzer.CommuteRoute) :=
  match groups with
  | [] => ret []
  | g :: gs =>
      r <~ analyzeRoute g ;;
      rs <~ mapRoutes gs ;;
      ret (r :: rs)
  end.

Definition analyzeCommutes (drives : aref) : St CommuteAnalyzer.CommuteAnalysis :=
  ds <~ contents drives ;;
  if (List.length ds <? 10)%nat then ret CommuteAnalyzer.emptyAnalysis
  else
    routeGroups <~ groupDrivesByRoute drives ;;
    frequent <~ frequentGroups routeGroups ;;
    commuteRoutes <~ mapRoutes frequent ;;
    let totalCommuteMiles :=
      fold_left
        (fun sum route =>
           sum + CommuteAnalyzer.typical_distance route
                 * CommuteAnalyzer.frequency route)
        commuteRoutes 0 in
    let totalCommuteCost :=
      CommuteAnalyzer.calculateCommuteCost totalCommuteMiles in
    ret {| CommuteAnalyzer.routes_detected :=
             Z.of_nat (List.length commuteRoutes);
           CommuteAnalyzer.total_commute_miles := JS.round2 totalCommuteMiles;
           CommuteAnalyzer.total_commute_cost := JS.round2 totalCommuteCost;
           CommuteAnalyzer.avg_commute_efficiency :=
             CommuteAnalyzer.calculateAvgEfficiency commuteRoutes;
           CommuteAnalyzer.routes := commuteRoutes |}.

End Effects.

(* ================================================================== *)
(** * Vocabulary of the statements *)

(** Non-decreasing start times. *)
Definition startLe (a b : TessieDrive) : Prop := started_at a <= started_at b.

(** The groups the loop of [mergeDrives] forms from [prevDrive] and the
    drives after it, the group under construction being
    [firstDrive :: others]. *)
Fixpoint segments (prevDrive : TessieDrive) (rest : list TessieDrive)
    (firstDrive : TessieDrive) (others : list TessieDrive)
    : list (TessieDrive * list TessieDrive) :=
  match rest with
  | [] => [(firstDrive, others)]
  | currentDrive :: rest' =>
      if DriveAnalyzer.shouldMergeDrives prevDrive currentDrive
           (DriveAnalyzer.gapMinutes prevDrive currentDrive)
      then segments currentDrive rest' firstDrive (others ++ [currentDrive])
      else (firstDrive, others) :: segments currentDrive rest' currentDrive []
  end.

(** The members of a group, in order. *)
Definition members (g : TessieDrive * list TessieDrive) : list TessieDrive :=
  fst g :: snd g.

(** The merged drive of a group. *)
Definition mergedOf (g : TessieDrive * list TessieDrive)
    : DriveAnalyzer.MergedDrive :=
  DriveAnalyzer.buildMerged (fst g) (snd g).

(** The index of the block that holds position [i] when the blocks
    [blocks] are laid end to end. *)
Fixpoint blockOf {A : Type} (blocks : list (list A)) (i : nat) : nat :=
  match blocks with
  | [] => 0
  | b :: bs =>
      if (i <? List.length b)%nat then 0%nat
      else S (blockOf bs (i - List.length b))
  end.

(** The merged drive, by position in the output, that holds the drive at
    position [i] of the start-time order. *)
Definition mergedIndex (out : list DriveAnalyzer.MergedDrive) (i : nat) : nat :=
  blockOf (map DriveAnalyzer.originalDriveIds out) i.


(** Pairwise different start times. *)
Fixpoint distinctStarts (l : list TessieDrive) : Prop :=
  match l with
  | [] => True
  | d :: ds =>
      Forall (fun e => ~ started_at d == started_at e) ds /\ distinctStarts ds
  end.

(** Strictly increasing start times. *)
Definition startLt (a b : TessieDrive) : Prop := started_at a < started_at b.


(** Every numeric field of an efficiency analysis is zero. *)
Definition trendZero (t : EfficiencyAnalyzer.EfficiencyTrend) : Prop :=
  EfficiencyAnalyzer.trend_percentage t = 0
  /\ EfficiencyAnalyzer.avg_efficiency t = 0
  /\ EfficiencyAnalyzer.best_efficiency t = 0
  /\ EfficiencyAnalyzer.worst_efficiency t = 0.

Definition allZero (a : EfficiencyAnalyzer.EfficiencyAnalysis) : Prop :=
  let c := EfficiencyAnalyzer.current_period a in
  let t := EfficiencyAnalyzer.trends a in
  let f := EfficiencyAnalyzer.factors_analysis a in
  EfficiencyAnalyzer.cp_avg_efficiency c = 0
  /\ EfficiencyAnalyzer.total_miles c = 0
  /\ EfficiencyAnalyzer.total_drives c = 0%Z
  /\ EfficiencyAnalyzer.range_best c = 0
  /\ EfficiencyAnalyzer.range_worst c = 0
  /\ trendZero (EfficiencyAnalyzer.weekly t)
  /\ trendZero (EfficiencyAnalyzer.monthly t)
  /\ trendZero (EfficiencyAnalyzer.seasonal t)
  /\ EfficiencyAnalyzer.hot_weather_penalty f = 0
  /\ EfficiencyAnalyzer.cold_weather_penalty f = 0
  /\ EfficiencyAnalyzer.highway_efficiency f = 0
  /\ EfficiencyAnalyzer.city_efficiency f = 0.

(** The three trend windows report low confidence. *)
Definition lowConfidence (a : EfficiencyAnalyzer.EfficiencyAnalysis) : Prop :=
  let t := EfficiencyAnalyzer.trends a in
  EfficiencyAnalyzer.confidence (EfficiencyAnalyzer.weekly t)
  = EfficiencyAnalyzer.low
  /\ EfficiencyAnalyzer.confidence (EfficiencyAnalyzer.monthly t)
     = EfficiencyAnalyzer.low
  /\ EfficiencyAnalyzer.confidence (EfficiencyAnalyzer.seasonal t)
     = EfficiencyAnalyzer.low.

(** The route key of a drive. *)
Definition routeKey (d : TessieDrive) : string :=
  CommuteAnalyzer.generateRouteId (starting_location d) (ending_location d).

(** The drives of [drives] whose route key is [k], in order. *)
Definition withKey (k : string) (drives : list TessieDrive) : list TessieDrive :=
  filter (fun d => String.eqb (routeKey d) k) drives.

(** [routes.get(k)]. *)
Fixpoint lookup (k : string) (routes : list (string * list TessieDrive))
    : option (list TessieDrive) :=
  match routes with
  | [] => None
  | (k', ds) :: rest => if String.eqb k' k then Some ds else lookup k rest
  end.

(** What relates a retained group to the route reported for it. *)
Definition routeOf (g : string * list TessieDrive)
    (r : CommuteAnalyzer.CommuteRoute) : Prop :=
  CommuteAnalyzer.route_id r = fst g
  /\ CommuteAnalyzer.frequency r
     = CommuteAnalyzer.calculateWeeklyFrequency (snd g).

(** The state of the grouping loop after the drives [seen]. *)
Definition groupsOf (seen : list TessieDrive)
    (routes : list (string * list TessieDrive)) : Prop :=
  NoDup (map fst routes)
  /\ forall k, lookup k routes
               = match withKey k seen with [] => None | ds => Some ds end.

(** The span, in weeks, from the earliest to the latest start of
    [drives] (0 for no drives). *)
Definition timeSpanWeeks (drives : list TessieDrive) : Q :=
  match sortDrives drives with
  | [] => 0
  | firstDrive :: others =>
      (started_at (last others firstDrive) - started_at firstDrive)
      / (7 * 24 * 3600)
  end.

(** A label part without a comma. *)
Fixpoint commaFree (s : string) : bool :=
  match s with
  | EmptyString => true
  | String c s' => negb (Ascii.eqb c ",") && commaFree s'
  end.

(** The energy, in kWh, of the charging gaps after [prevDrive]: the
    consecutive pairs whose battery gain exceeds 2 points. *)
Fixpoint gapEnergyFrom (prevDrive : TessieDrive) (rest : list TessieDrive) : Q :=
  match rest with
  | [] => 0
  | currentDrive :: rest' =>
      let batteryGained :=
        starting_battery currentDrive - ending_battery prevDrive in
      (if JS.gtb batteryGained 2
       then batteryGained / 100 * TripCalculator.BATTERY_CAPACITY_KWH
       else 0)
      + gapEnergyFrom currentDrive rest'
  end.

Definition gapEnergy (drives : list TessieDrive) : Q :=
  match drives with
  | [] => 0
  | d :: rest => gapEnergyFrom d rest
  end.

(** The kWh of the two cost buckets. *)
Definition homeKwh (c : TripCalculator.ChargingCosts) (homeRate : Q) : Q :=
  TripCalculator.electricityCost c / homeRate.

Definition superchargerKwh (c : TripCalculator.ChargingCosts)
    (superchargerRate : Q) : Q :=
  TripCalculator.chargingStopsCost c / superchargerRate.

(** The groups [groups] as the store holds them: the [i]-th group is the
    array numbered [base + i]. *)
Fixpoint refsFrom (base : nat) (groups : list (string * list TessieDrive))
    : list (string * Effects.aref) :=
  match groups with
  | [] => []
  | (k, _) :: rest => (k, base) :: refsFrom (S base) rest
  end.

(** A group of the store, read. *)
Definition deref (h : Effects.store) (g : string * Effects.aref)
    : string * list TessieDrive :=
  (fst g, Effects.elements (snd g) h).

(** What a step that only writes the array [g] leaves of the store. *)
Definition onlyWrites (g : Effects.aref) (h h' : Effects.store) : Prop :=
  List.length h' = List.length h
  /\ forall r, r <> g -> Effects.elements r h' = Effects.elements r h.

(** Consecutive members of a group pass the merge test. *)
Fixpoint chained (g : list TessieDrive) : Prop :=
  match g with
  | a :: ((b :: _) as rest) =>
      DriveAnalyzer.shouldMergeDrives a b (DriveAnalyzer.gapMinutes a b) = true
      /\ chained rest
  | _ => True
  end.

(** A stop that the merge rule allows: short or charging, over a gap of
    positive length. *)
Definition properStop (s : DriveAnalyzer.DriveStop) : Prop :=
  DriveAnalyzer.stop_type s <> DriveAnalyzer.excluded
  /\ DriveAnalyzer.stop_started_at s < DriveAnalyzer.stop_ended_at s.

(** What [createMergedDrive] records between two consecutive members. *)
Definition stopBetween (a b : TessieDrive) : list DriveAnalyzer.DriveStop :=
  if JS.gtb ((started_at b - ended_at a) / 60) 0
  then [ DriveAnalyzer.mkStop (ending_location a)
           (JS.round2 ((started_at b - ended_at a) / 60))
           (if JS.gtb (starting_battery b - ending_battery a) 5
            then DriveAnalyzer.charging
            else if JS.ltb ((started_at b - ended_at a) / 60) 7
                 then DriveAnalyzer.short else DriveAnalyzer.excluded)
           (ended_at a) (started_at b) ]
  else [].

(** The times of a merged drive are in order and its two durations are
    not negative. *)
Definition soundTimes (m : DriveAnalyzer.MergedDrive) : Prop :=
  DriveAnalyzer.m_started_at m <= DriveAnalyzer.m_ended_at m
  /\ 0 <= DriveAnalyzer.total_duration_minutes m
  /\ 0 <= DriveAnalyzer.driving_duration_minutes m.

(** What [analyzeLatestDrive] returns for the merged drive it picked. *)
Definition analysisOf (m : DriveAnalyzer.MergedDrive)
    : DriveAnalyzer.DriveAnalysis :=
  {| DriveAnalyzer.mergedDrive := m;
     DriveAnalyzer.percentage_used :=
       fst (fst (DriveAnalyzer.analyzeBatteryConsumption m));
     DriveAnalyzer.estimated_kwh_used :=
       snd (fst (DriveAnalyzer.analyzeBatteryConsumption m));
     DriveAnalyzer.efficiency_miles_per_kwh :=
       snd (DriveAnalyzer.analyzeBatteryConsumption m);
     DriveAnalyzer.total_autopilot_miles :=
       fst (fst (DriveAnalyzer.analyzeFSDUsage m));
     DriveAnalyzer.fsd_percentage :=
       snd (fst (DriveAnalyzer.analyzeFSDUsage m));
     DriveAnalyzer.autopilot_available := true;
     DriveAnalyzer.note := snd (DriveAnalyzer.analyzeFSDUsage m) |}.

(** The battery points one drive adds to [totalUsed]. *)
Definition driveUsage (d : TessieDrive) : Q :=
  if JS.gtb (starting_battery d - ending_battery d) 0
  then starting_battery d - ending_battery d else 0.

(** What holds of a data point that passed the filter: a plausible rate,
    a positive distance, a highway share between 0 and 100 that exceeds
    50 exactly above the highway speed, and a weather label that follows
    the rate. *)
Definition soundPoint (dp : EfficiencyAnalyzer.EfficiencyDataPoint) : Prop :=
  (0 < EfficiencyAnalyzer.efficiency_kwh_per_100mi dp
   /\ EfficiencyAnalyzer.efficiency_kwh_per_100mi dp < 60)
  /\ 0 < EfficiencyAnalyzer.distance_miles dp
  /\ (0 <= EfficiencyAnalyzer.highway_percentage dp
      /\ EfficiencyAnalyzer.highway_percentage dp <= 100)
  /\ (50 < EfficiencyAnalyzer.highway_percentage dp
      <-> 55 < EfficiencyAnalyzer.avg_speed dp)
  /\ match EfficiencyAnalyzer.weather_factor dp with
     | EfficiencyAnalyzer.cold =>
         35 < EfficiencyAnalyzer.efficiency_kwh_per_100mi dp
     | EfficiencyAnalyzer.hot =>
         30 < EfficiencyAnalyzer.efficiency_kwh_per_100mi dp
         /\ EfficiencyAnalyzer.efficiency_kwh_per_100mi dp <= 35
     | EfficiencyAnalyzer.mild =>
         EfficiencyAnalyzer.efficiency_kwh_per_100mi dp <= 30
     end.

(** What [analyzeRoute] copies from a group into its route: the key,
    the endpoints and the name of one member, and the average rate and
    trend of the members. *)
Definition describes (g : string * list TessieDrive)
    (r : CommuteAnalyzer.CommuteRoute) : Prop :=
  exists d0,
    In d0 (snd g)
    /\ CommuteAnalyzer.route_id r = fst g
    /\ CommuteAnalyzer.from_location r = starting_location d0
    /\ CommuteAnalyzer.to_location r = ending_location d0
    /\ CommuteAnalyzer.name r = CommuteAnalyzer.generateRouteName d0
    /\ CommuteAnalyzer.typical_distance r
       = CommuteAnalyzer.average (map odometer_distance (snd g))
    /\ CommuteAnalyzer.avg_efficiency_kwh_per_100mi r
       = CommuteAnalyzer.calculateAvgEfficiencyForDrives (snd g)
    /\ CommuteAnalyzer.recent_trend r
       = CommuteAnalyzer.calculateEfficiencyTrend (snd g)
    /\ CommuteAnalyzer.frequency r
       = CommuteAnalyzer.calculateWeeklyFrequency
           (CommuteAnalyzer.afterTrend (snd g)).

(** The three columns of [sessions_by_location], summed over its five
    lines. *)
Definition tallyCount (b : ChargingAnalyzer.ByLocation) : Z :=
  (ChargingAnalyzer.n_sessions (ChargingAnalyzer.at_home b)
   + ChargingAnalyzer.n_sessions (ChargingAnalyzer.at_supercharger b)
   + ChargingAnalyzer.n_sessions (ChargingAnalyzer.at_public b)
   + ChargingAnalyzer.n_sessions (ChargingAnalyzer.at_work b)
   + ChargingAnalyzer.n_sessions (ChargingAnalyzer.at_unknown b))%Z.

Definition tallyCost (b : ChargingAnalyzer.ByLocation) : Q :=
  ChargingAnalyzer.sum_cost (ChargingAnalyzer.at_home b)
  + ChargingAnalyzer.sum_cost (ChargingAnalyzer.at_supercharger b)
  + ChargingAnalyzer.sum_cost (ChargingAnalyzer.at_public b)
  + ChargingAnalyzer.sum_cost (ChargingAnalyzer.at_work b)
  + ChargingAnalyzer.sum_cost (ChargingAnalyzer.at_unknown b).

Definition tallyKwh (b : ChargingAnalyzer.ByLocation) : Q :=
  ChargingAnalyzer.sum_kwh (ChargingAnalyzer.at_home b)
  + ChargingAnalyzer.sum_kwh (ChargingAnalyzer.at_supercharger b)
  + ChargingAnalyzer.sum_kwh (ChargingAnalyzer.at_public b)
  + ChargingAnalyzer.sum_kwh (ChargingAnalyzer.at_work b)
  + ChargingAnalyzer.sum_kwh (ChargingAnalyzer.at_unknown b).

(** The learned locations only grow: no home or work location is
    forgotten and no count decreases. *)
Definition grows (st st' : ChargingAnalyzer.Learned) : Prop :=
  incl (ChargingAnalyzer.homeLocations st) (ChargingAnalyzer.homeLocations st')
  /\ incl (ChargingAnalyzer.workLocations st)
          (ChargingAnalyzer.workLocations st')
  /\ forall k,
       (ChargingAnalyzer.getCount (ChargingAnalyzer.frequentLocations st) k
        <= ChargingAnalyzer.getCount (ChargingAnalyzer.frequentLocations st') k)%Z.

(** [x] is [y] to the cent: the two differ by less than a hundredth. *)
Definition withinCent (x y : Q) : Prop := y - 0.01 < x /\ x < y + 0.01.

(** The energy of a session before rounding, from its two battery
    levels. *)
Definition sessionEnergy (s : ChargingAnalyzer.ChargingSession) : Q :=
  (ChargingAnalyzer.c_ending_battery s - ChargingAnalyzer.c_starting_battery s)
  / 100 * 75.

(** What holds of every detected session: the battery rose by more than
    2 points, and the four rounded figures are, to the cent, 0.75 kWh per
    point, 4 miles per kWh, the energy at the session's rate, and the
    minutes between its two ends. *)
Definition soundSession (s : ChargingAnalyzer.ChargingSession) : Prop :=
  2 < ChargingAnalyzer.c_ending_battery s
      - ChargingAnalyzer.c_starting_battery s
  /\ withinCent (ChargingAnalyzer.energy_added_kwh s) (sessionEnergy s)
  /\ withinCent (ChargingAnalyzer.miles_added s) (sessionEnergy s * 4)
  /\ withinCent (ChargingAnalyzer.cost_estimate s)
                (sessionEnergy s * ChargingAnalyzer.cost_per_kwh s)
  /\ withinCent (ChargingAnalyzer.c_duration_minutes s)
                ((ChargingAnalyzer.c_ended_at s
                  - ChargingAnalyzer.c_started_at s) / 60)
  /\ 1.5 <= ChargingAnalyzer.energy_added_kwh s.

(** The consecutive pairs of an array, in order: the gaps between its
    drives. *)
Fixpoint pairsFrom (prevDrive : TessieDrive) (rest : list TessieDrive)
    : list (TessieDrive * TessieDrive) :=
  match rest with
  | [] => []
  | currentDrive :: rest' =>
      (prevDrive, currentDrive) :: pairsFrom currentDrive rest'
  end.

Definition gapsOf (drives : list TessieDrive)
    : list (TessieDrive * TessieDrive) :=
  match drives with
  | [] => []
  | d :: rest => pairsFrom d rest
  end.

(** A gap over which the battery rose by more than 2 points. *)
Definition charged (gap : TessieDrive * TessieDrive) : bool :=
  JS.gtb (starting_battery (snd gap) - ending_battery (fst gap)) 2.

(** The session [s] closes [gap]: it is named after the two drives, it
    lasts from the end of the first to the start of the second, at the
    place where the first ended, and its battery levels are theirs. *)
Definition closes (s : ChargingAnalyzer.ChargingSession)
    (gap : TessieDrive * TessieDrive) : Prop :=
  ChargingAnalyzer.session_id s
  = ("charge_" ++ JS.string_of_Z (id (fst gap)) ++ "_"
     ++ JS.string_of_Z (id (snd gap)))%string
  /\ ChargingAnalyzer.c_started_at s = ended_at (fst gap)
  /\ ChargingAnalyzer.c_ended_at s = started_at (snd gap)
  /\ ChargingAnalyzer.c_location s = ending_location (fst gap)
  /\ ChargingAnalyzer.c_starting_battery s = ending_battery (fst gap)
  /\ ChargingAnalyzer.c_ending_battery s = starting_battery (snd gap).

(** [a] is directly followed by [b] in [l]. *)
Definition adjacentIn {A : Type} (a b : A) (l : list A) : Prop :=
  exists front back, l = (front ++ a :: b :: back)%list.

(** Rates under which moving a charge cannot cost more: the Supercharger
    rate is at least the home rate that [calculatePotentialSavings]
    compares it with, and the peak rate is at least the off-peak rate. *)
Definition orderedRates (rates : ChargingAnalyzer.ChargeRates) : Prop :=
  match ChargingAnalyzer.time_of_use rates with
  | Some (offPeak, peak) =>
      offPeak <= peak
      /\ (if JS.eqb offPeak 0
          then ChargingAnalyzer.home_rate_per_kwh rates else offPeak)
         <= ChargingAnalyzer.supercharger_rate_per_kwh rates
  | None =>
      ChargingAnalyzer.home_rate_per_kwh rates
      <= ChargingAnalyzer.supercharger_rate_per_kwh rates
  end.

(** The state of the best-and-worst loop is consistent: either no day
    has been chosen yet, or both have, with a positive best rate that is
    at most the worst rate. *)
Definition consistentExtremes (e : CommuteAnalyzer.Extremes) : Prop :=
  (CommuteAnalyzer.bestDay e = None /\ CommuteAnalyzer.worstDay e = None
   /\ CommuteAnalyzer.bestEfficiency e = None
   /\ CommuteAnalyzer.worstEfficiency e == 0)
  \/ (exists b w eb,
        CommuteAnalyzer.bestDay e = Some b
        /\ CommuteAnalyzer.worstDay e = Some w
        /\ CommuteAnalyzer.bestEfficiency e = Some eb
        /\ 0 < eb /\ eb <= CommuteAnalyzer.worstEfficiency e).

(** The days chosen so far have drives. *)
Definition chosenHaveDrives
    (dailyStats : CommuteAnalyzer.Weekday -> CommuteAnalyzer.DayStats)
    (e : CommuteAnalyzer.Extremes) : Prop :=
  forall d,
    CommuteAnalyzer.bestDay e = Some d \/ CommuteAnalyzer.worstDay e = Some d ->
    (0 < CommuteAnalyzer.day_drives (dailyStats d))%Z.

(** Reminders in the order of their priority weights. *)
Definition byWeight (a b : ChargingReminderSystem.ChargingReminder) : Prop :=
  ChargingReminderSystem.getPriorityWeight (ChargingReminderSystem.priority a)
  <= ChargingReminderSystem.getPriorityWeight
       (ChargingReminderSystem.priority b).

(** The reminder of a range below the emergency threshold. *)
Definition criticalRange (rangeMiles : Q)
    : ChargingReminderSystem.ChargingReminder :=
  {| ChargingReminderSystem.priority := ChargingReminderSystem.urgent;
     ChargingReminderSystem.type := ChargingReminderSystem.range_warning;
     ChargingReminderSystem.text :=
       ChargingReminderSystem.CriticalRange (JS.Math_round rangeMiles);
     ChargingReminderSystem.action_required := true;
     ChargingReminderSystem.time_sensitive := true |}.

(** A drive whose consumption rate is clear of the two ends of the range
    that [convertToDataPoints] keeps: rounding cannot move it across. *)
Definition clearOfEnds (d : TessieDrive) : Prop :=
  EfficiencyAnalyzer.efficiencyOf d <= 0
  \/ (0.001 <= EfficiencyAnalyzer.efficiencyOf d
      /\ EfficiencyAnalyzer.efficiencyOf d <= 59.999)
  \/ 60.001 <= EfficiencyAnalyzer.efficiencyOf d.

(** A drive whose rate is clear of the two ends of the range that
    [calculateAvgEfficiencyForDrives] averages over: rounding cannot move
    it across. *)
Definition clearOfFilter (d : TessieDrive) : Prop :=
  CommuteAnalyzer.routeEfficiency d <= 0
  \/ (0.001 <= CommuteAnalyzer.routeEfficiency d
      /\ CommuteAnalyzer.routeEfficiency d <= 49.999)
  \/ 50.001 <= CommuteAnalyzer.routeEfficiency d.

(** ** Sample drives *)

Module Sample.

(** A drive from [from] to [to] with the given identifier, times (in
    seconds), battery levels and distance. *)
Definition drive (n : Z) (start stop : Q) (from to : string)
    (battery0 battery1 distance : Q) : TessieDrive :=
  {| id := n; started_at := start; ended_at := stop;
     starting_location := from; ending_location := to;
     starting_battery := battery0; ending_battery := battery1;
     odometer_distance := distance; average_speed := 30; max_speed := 45 |}.

Definition home : string := "12 Oak St, Springfield, IL, USA".
Definition work : string := "500 Main St, Shelbyville, IL, USA".


(** Three drives: the second starts 5 minutes after the first ends, the
    third 30 minutes after the second ends. *)
Definition morning : list TessieDrive :=
  [ drive 1 0 600 home work 80 78 5.25;
    drive 2 900 1500 work work 78 76 4.5;
    drive 3 3300 3900 work home 76 74 6 ].

(** A drive that uses no battery: its consumption rate is exactly 0. *)
Definition coasting : TessieDrive := drive 4 5000 5600 work home 74 74 5.

(** Ten drives.  Three go between Springfield and Shelbyville (there,
    back to another street of Springfield, there again, over one week),
    two go from Ogdenville to Capital City, five stay in Brockway. *)
Definition elm : string := "99 Elm St, Springfield, IL, USA".
Definition pine : string := "1 Pine Rd, Ogdenville, IL, USA".
Definition lake : string := "2 Lake Dr, Capital City, IL, USA".
Definition hill : string := "7 Hill St, Brockway, IL, USA".

Definition roundTrips : list TessieDrive :=
  [ drive 1 0 1200 home work 80 74 12;
    drive 2 302400 303600 work elm 74 68 12;
    drive 3 604800 606000 home work 90 84 12 ].

Definition tenDrives : list TessieDrive :=
  roundTrips
  ++ [ drive 4 700000 701000 pine lake 80 75 10;
       drive 5 710000 711000 pine lake 75 70 10;
       drive 6 720000 720600 hill hill 70 69 2;
       drive 7 730000 730600 hill hill 69 68 2;
       drive 8 740000 740600 hill hill 68 67 2;
       drive 9 750000 750600 hill hill 67 66 2;
       drive 10 760000 760600 hill hill 66 65 2 ].


(** Two drives with a two-hour stop between them during which the
    battery goes from 40 to 52; each drive uses 10 points. *)
Definition topUp : list TessieDrive :=
  [ drive 1 0 3600 home work 50 40 30;
    drive 2 10800 14400 work home 52 42 30 ].

(** Five drives, latest first. *)
Definition latestFirst : list TessieDrive :=
  [ drive 5 40000 40600 hill hill 66 65 2;
    drive 4 30000 30600 hill hill 67 66 2;
    drive 3 20000 20600 hill hill 68 67 2;
    drive 2 10000 10600 hill hill 69 68 2;
    drive 1 0 600 hill hill 70 69 2 ].

(** Two drives that start at the same second. *)
Definition twin1 : TessieDrive := drive 1 0 60 home work 80 79 1.
Definition twin2 : TessieDrive := drive 2 0 60 home work 80 79 1.

(** Two drives from 80% to 59% with a recharge to 80% between them: the
    gap accounts for exactly half of the energy used.  The same drives
    as [estimateChargingCosts] reads them in binary64. *)
Definition halfway : list TessieDrive :=
  [ drive 1 0 3600 home work 80 59 60;
    drive 2 36000 39600 work home 80 59 60 ].

Definition halfway64 : list Binary64.Drive :=
  [ Binary64.mkDrive 80%float 59%float 0%float 3600%float;
    Binary64.mkDrive 80%float 59%float 36000%float 39600%float ].

(** 57 points over 71.25 miles: a consumption rate of exactly 60. *)
Definition sixty : TessieDrive := drive 1 0 5400 home work 80 23 71.25.

(** Seven drives of 75 miles: the oldest uses 16 points, the six after
    it 12 points each. *)
Definition lighter : list TessieDrive :=
  [ drive 1 0 5400 home work 80 64 75;
    drive 2 86400 91800 work home 80 68 75;
    drive 3 172800 178200 home work 80 68 75;
    drive 4 259200 264600 work home 80 68 75;
    drive 5 345600 351000 home work 80 68 75;
    drive 6 432000 437400 work home 80 68 75;
    drive 7 518400 523800 home work 80 68 75 ].

End Sample.

(* ================================================================== *)
(** * Properties *)

Import JS.

(** ** Strings and dates, on examples *)

Example isoDate_examples :
  Str.isoDate (1700000000 * 1000) = "2023-11-14"%string
  /\ Str.isoDate 0 = "1970-01-01"%string
  /\ Str.isoDate (951782400 * 1000) = "2000-02-29"%string
  /\ Str.isoDate (951868800 * 1000 - 1) = "2000-02-29"%string
  /\ Str.isoDate (-1000) = "1969-12-31"%string
  /\ Str.isoDate (1735689599 * 1000 + (1 # 2)) = "2024-12-31"%string.
Proof. repeat split; vm_compute; reflexivity. Qed.

Example split_trim_examples :
  Str.split "," "a, b,,c" = ["a"; " b"; ""; "c"]%string
  /\ Str.split "," "" = [""]%string
  /\ Str.trim "  a b  " = "a b"%string
  /\ CommuteAnalyzer.extractCityName "Springfield, IL" = "Springfield"%string
  /\ CommuteAnalyzer.extractCityName "Main Street" = "Main"%string.
Proof. repeat split; vm_compute; reflexivity. Qed.

(** ** Comparisons and rounding *)

Lemma ltb_lt (a b : Q) : ltb a b = true <-> a < b.
Proof.
  unfold ltb. rewrite negb_true_iff.
  split; intro H.
  - apply Qnot_le_lt. intro L. apply Qle_bool_iff in L. congruence.
  - apply not_true_is_false. intro L. apply Qle_bool_iff in L.
    exact (Qlt_not_le _ _ H L).
Qed.

Lemma ltb_ge (a b : Q) : ltb a b = false <-> b <= a.
Proof.
  unfold ltb. rewrite negb_false_iff. apply Qle_bool_iff.
Qed.

Lemma gtb_gt (a b : Q) : gtb a b = true <-> b < a.
Proof. apply ltb_lt. Qed.

Lemma gtb_le (a b : Q) : gtb a b = false <-> a <= b.
Proof. apply ltb_ge. Qed.

Lemma eqb_eq (a b : Q) : eqb a b = true <-> a == b.
Proof. apply Qeq_bool_iff. Qed.

Lemma eqb_neq (a b : Q) : eqb a b = false <-> ~ a == b.
Proof.
  unfold eqb. split; intro H.
  - intro E. apply Qeq_bool_iff in E. congruence.
  - apply not_true_is_false. intro E. apply H. now apply Qeq_bool_iff.
Qed.

Lemma Math_round_integer (z : Z) (x : Q) : x == inject_Z z -> Math_round x = z.
Proof.
  intro E. unfold Math_round.
  assert (L : inject_Z z <= x + (1 # 2)) by (rewrite E; lra).
  assert (U : x + (1 # 2) < inject_Z (z + 1)).
  { rewrite inject_Z_plus, E. change (inject_Z 1) with 1. lra. }
  apply Qfloor_resp_le in L. rewrite Qfloor_Z in L.
  pose proof (Qfloor_le (x + (1 # 2))) as F.
  assert (G : inject_Z (Qfloor (x + (1 # 2))) < inject_Z (z + 1)) by lra.
  rewrite <- Zlt_Qlt in G. lia.
Qed.

(** A whole number of hundredths is left alone by [round2]. *)
Lemma round2_hundredths (z : Z) (x : Q) :
  x == inject_Z z / 100 -> round2 x == x.
Proof.
  intro E. unfold round2.
  rewrite (Math_round_integer z).
  - now rewrite E.
  - rewrite E. field.
Qed.

Lemma Math_round_nonneg (x : Q) : 0 <= x -> (0 <= Math_round x)%Z.
Proof.
  intro H. unfold Math_round.
  change 0%Z with (Qfloor 0). apply Qfloor_resp_le. lra.
Qed.

Lemma round2_nonneg (x : Q) : 0 <= x -> 0 <= round2 x.
Proof.
  intro H. unfold round2.
  assert (0 <= inject_Z (Math_round (x * 100))).
  { change 0 with (inject_Z 0). rewrite <- Zle_Qle.
    apply Math_round_nonneg. nra. }
  apply Qle_shift_div_l; lra.
Qed.

(** Rounding to hundredths moves a number by half a hundredth at most. *)
Lemma round2_withinCent (x : Q) : withinCent (round2 x) x.
Proof.
  unfold withinCent, round2, Math_round.
  pose proof (Qfloor_le (x * 100 + (1 # 2))) as L.
  pose proof (Qlt_floor (x * 100 + (1 # 2))) as U.
  rewrite inject_Z_plus in U. change (inject_Z 1) with 1 in U.
  split.
  - apply Qlt_shift_div_l; [reflexivity|]. lra.
  - apply Qlt_shift_div_r; [reflexivity|]. lra.
Qed.

(** ** Sums *)

Lemma fold_plus_shift (xs : list Q) (a : Q) :
  fold_left Qplus xs a == a + fold_left Qplus xs 0.
Proof.
  revert a. induction xs as [|x xs IH]; intro a; simpl.
  - lra.
  - rewrite IH, (IH (0 + x)). lra.
Qed.

Lemma sum_cons (x : Q) (xs : list Q) : sum (x :: xs) == x + sum xs.
Proof. unfold sum. simpl. rewrite fold_plus_shift. lra. Qed.


Lemma sum_perm (xs ys : list Q) : Permutation xs ys -> sum xs == sum ys.
Proof.
  induction 1.
  - reflexivity.
  - rewrite !sum_cons. now rewrite IHPermutation.
  - rewrite !sum_cons. lra.
  - now rewrite IHPermutation1.
Qed.

(** ** Sorting *)

Section SortFacts.
Context {A : Type} (cmp : A -> A -> Q).

Lemma insert_perm (x : A) (l : list A) : Permutation (insert cmp x l) (x :: l).
Proof.
  induction l as [|y ys IH]; simpl.
  - reflexivity.
  - destruct (gtb (cmp x y) 0).
    + rewrite IH. apply perm_swap.
    + reflexivity.
Qed.

Lemma sort_perm (l : list A) : Permutation (sort cmp l) l.
Proof.
  induction l as [|x xs IH]; simpl.
  - reflexivity.
  - rewrite insert_perm. now constructor.
Qed.

Lemma sort_length (l : list A) : List.length (sort cmp l) = List.length l.
Proof. apply Permutation_length, sort_perm. Qed.

End SortFacts.

Lemma insert_sorted (x : TessieDrive) (l : list TessieDrive) :
  StronglySorted startLe l -> StronglySorted startLe (insert byStart x l).
Proof.
  induction 1 as [|y ys Hs IH Hall]; simpl.
  - repeat constructor.
  - destruct (gtb (byStart x y) 0) eqn:G.
    + apply gtb_gt in G. unfold byStart in G.
      constructor; [exact IH|].
      eapply Permutation_Forall.
      * symmetry. apply insert_perm.
      * constructor; [unfold startLe; lra | exact Hall].
    + apply gtb_le in G. unfold byStart in G.
      constructor; [now constructor|].
      constructor; [unfold startLe; lra|].
      eapply Forall_impl; [|exact Hall].
      unfold startLe. intros z Hz. lra.
Qed.

Lemma sortDrives_sorted (l : list TessieDrive) :
  StronglySorted startLe (sortDrives l).
Proof.
  unfold sortDrives.
  induction l as [|x xs IH]; simpl.
  - constructor.
  - now apply insert_sorted.
Qed.

Lemma sortDrives_perm (l : list TessieDrive) : Permutation (sortDrives l) l.
Proof. apply sort_perm. Qed.

(** ** The trip segmenter *)

Import DriveAnalyzer.

Lemma shouldMergeDrives_spec (p c : TessieDrive) :
  shouldMergeDrives p c (gapMinutes p c) = true
  <-> gapMinutes p c < 7 \/ 5 < starting_battery c - ending_battery p.
Proof.
  unfold shouldMergeDrives.
  destruct (ltb (gapMinutes p c) 7) eqn:G.
  - apply ltb_lt in G. tauto.
  - apply ltb_ge in G.
    destruct (gtb (starting_battery c - ending_battery p) 5) eqn:B.
    + apply gtb_gt in B. tauto.
    + apply gtb_le in B. split; [discriminate|].
      intros [H|H]; lra.
Qed.

Lemma segments_concat (rest : list TessieDrive) :
  forall prev f os,
    List.concat (map members (segments prev rest f os)) = f :: os ++ rest.
Proof.
  induction rest as [|d rest IH]; intros prev f os; simpl.
  - now rewrite app_nil_r.
  - destruct (shouldMergeDrives prev d (gapMinutes prev d)).
    + rewrite IH. now rewrite <- app_assoc.
    + simpl. rewrite IH. reflexivity.
Qed.

(** The loop returns, and what it returns are the merged drives of the
    groups. *)
Lemma mergeLoop_segments (rest : list TessieDrive) :
  forall prev acc f os,
  exists acc' f' os',
    mergeLoop prev rest acc (f :: os) = Ok (acc', f' :: os')
    /\ acc' ++ [buildMerged f' os']
       = acc ++ map mergedOf (segments prev rest f os).
Proof.
  induction rest as [|d rest IH]; intros prev acc f os; simpl.
  - now exists acc, f, os.
  - destruct (shouldMergeDrives prev d (gapMinutes prev d)).
    + apply (IH d acc f (os ++ [d])).
    + destruct (IH d (acc ++ [buildMerged f os]) d []) as (acc' & f' & os' & E & R).
      exists acc', f', os'. split; [exact E|].
      rewrite R, <- app_assoc. reflexivity.
Qed.

(** [mergeDrives] never throws: its result is the merged drives of the
    groups of the sorted input. *)
Lemma mergeDrives_segments (drives : list TessieDrive) :
  mergeDrives drives
  = Ok (match sortDrives drives with
        | [] => []
        | f :: rest => map mergedOf (segments f rest f [])
        end).
Proof.
  unfold mergeDrives, mergeSorted.
  destruct drives as [|d ds]; [reflexivity|].
  change (List.length (d :: ds) =? 0)%nat with false. cbv iota.
  destruct (sortDrives (d :: ds)) as [|f rest] eqn:S.
  - apply (f_equal (@List.length _)) in S.
    unfold sortDrives in S. rewrite sort_length in S. discriminate.
  - destruct (mergeLoop_segments rest f [] f []) as (acc' & f' & os' & E & R).
    rewrite E. simpl. now rewrite R.
Qed.

Lemma segments_heads_in (rest : list TessieDrive) :
  forall prev f os g,
    In g (segments prev rest f os) -> fst g = f \/ In (fst g) rest.
Proof.
  induction rest as [|d rest IH]; intros prev f os g; simpl.
  - intros [<-|[]]. now left.
  - destruct (shouldMergeDrives prev d (gapMinutes prev d)).
    + intro H. apply IH in H. tauto.
    + intros [<-|H]; [now left|]. apply IH in H.
      destruct H as [H|H]; [right; left; now symmetry | right; now right].
Qed.

Lemma segments_heads_sorted (rest : list TessieDrive) :
  forall prev f os,
    StronglySorted startLe rest ->
    Forall (startLe f) rest ->
    StronglySorted (fun a b => startLe (fst a) (fst b))
                   (segments prev rest f os).
Proof.
  induction rest as [|d rest IH]; intros prev f os Hs Hf; simpl.
  - repeat constructor.
  - inversion Hs as [|? ? Hs' Hd]; subst.
    inversion Hf as [|? ? Hfd Hf']; subst.
    destruct (shouldMergeDrives prev d (gapMinutes prev d)).
    + now apply IH.
    + constructor; [now apply IH|].
      apply Forall_forall. intros g Hg.
      apply segments_heads_in in Hg. simpl.
      destruct Hg as [->|Hg]; [exact Hfd|].
      rewrite Forall_forall in Hf'. now apply Hf'.
Qed.








(** *** Which consecutive drives share a merged drive *)

(** The identifier lists of the merged drives of the groups [S]. *)
Lemma merged_id_blocks (S : list (TessieDrive * list TessieDrive)) :
  map originalDriveIds (map mergedOf S)
  = map (fun g => map id (members g)) S.
Proof. rewrite map_map. reflexivity. Qed.

Lemma blockOf_head {A : Type} (b : list A) (bs : list (list A)) (i : nat) :
  (i < List.length b)%nat -> blockOf (b :: bs) i = 0%nat.
Proof.
  intro H. simpl. apply Nat.ltb_lt in H. now rewrite H.
Qed.

Lemma blockOf_tail {A : Type} (b : list A) (bs : list (list A)) (i : nat) :
  (List.length b <= i)%nat ->
  blockOf (b :: bs) i = S (blockOf bs (i - List.length b)).
Proof.
  intro H. simpl. apply Nat.ltb_ge in H. now rewrite H.
Qed.

Lemma group_ids_length (f : TessieDrive) (os : list TessieDrive) :
  List.length (map id (members (f, os))) = S (List.length os).
Proof. unfold members. simpl. now rewrite length_map. Qed.

Lemma segments_first_block (rest : list TessieDrive) :
  forall prev f os j,
    (j <= List.length os)%nat ->
    blockOf (map (fun g => map id (members g)) (segments prev rest f os)) j
    = 0%nat.
Proof.
  induction rest as [|d rest IH]; intros prev f os j Hj; cbn [segments].
  - cbn [map]. apply blockOf_head. rewrite group_ids_length. lia.
  - destruct (shouldMergeDrives prev d (gapMinutes prev d)).
    + apply IH. rewrite length_app. simpl. lia.
    + cbn [map]. apply blockOf_head. rewrite group_ids_length. lia.
Qed.

Lemma last_cons_default {A : Type} (o f : A) (os : list A) :
  last (o :: os) f = last os o.
Proof.
  revert o f. induction os as [|a os IH]; intros o f.
  - reflexivity.
  - change (last (o :: a :: os) f) with (last (a :: os) f).
    now rewrite (IH a f), (IH a o).
Qed.

Lemma nth_error_group_last (f : TessieDrive) (os rest : list TessieDrive) :
  nth_error (f :: os ++ rest) (List.length os) = Some (last os f).
Proof.
  revert f. induction os as [|o os IH]; intro f.
  - reflexivity.
  - change (nth_error (f :: (o :: os) ++ rest) (List.length (o :: os)))
      with (nth_error (o :: os ++ rest) (List.length os)).
    now rewrite IH, last_cons_default.
Qed.

Lemma nth_error_group_next (f d : TessieDrive) (os rest : list TessieDrive) :
  nth_error (f :: os ++ d :: rest) (S (List.length os)) = Some d.
Proof.
  simpl. rewrite nth_error_app2 by lia. now rewrite Nat.sub_diag.
Qed.

Lemma segments_same_block (rest : list TessieDrive) :
  forall prev f os i a b,
    prev = last os f ->
    (List.length os <= i)%nat ->
    nth_error (f :: os ++ rest) i = Some a ->
    nth_error (f :: os ++ rest) (S i) = Some b ->
    let blocks := map (fun g => map id (members g)) (segments prev rest f os) in
    blockOf blocks i = blockOf blocks (S i)
    <-> shouldMergeDrives a b (gapMinutes a b) = true.
Proof.
  induction rest as [|d rest IH]; intros prev f os i a b Hp Hi Ha Hb blocks.
  - exfalso. rewrite app_nil_r in Hb.
    assert (nth_error (f :: os) (S i) = None)
      by (apply nth_error_None; simpl; lia).
    congruence.
  - subst blocks. cbn [segments].
    destruct (Nat.eq_dec i (List.length os)) as [->|Hne].
    + rewrite nth_error_group_last in Ha.
      rewrite nth_error_group_next in Hb.
      injection Ha as <-. injection Hb as <-. subst prev.
      destruct (shouldMergeDrives (last os f) d (gapMinutes (last os f) d)).
      * rewrite !segments_first_block by (rewrite length_app; simpl; lia).
        tauto.
      * cbn [map].
        rewrite blockOf_head by (rewrite group_ids_length; lia).
        rewrite blockOf_tail by (rewrite group_ids_length; lia).
        split; discriminate.
    + destruct (shouldMergeDrives prev d (gapMinutes prev d)).
      * apply IH.
        -- now rewrite last_last.
        -- rewrite length_app. simpl. lia.
        -- now rewrite <- app_assoc.
        -- now rewrite <- app_assoc.
      * cbn [map].
        rewrite !blockOf_tail by (rewrite group_ids_length; lia).
        rewrite group_ids_length.
        replace (S i - S (List.length os))%nat
          with (S (i - S (List.length os))) by lia.
        assert (Hsplit : f :: os ++ d :: rest = (f :: os) ++ d :: [] ++ rest)
          by reflexivity.
        rewrite Hsplit in Ha, Hb.
        rewrite nth_error_app2 in Ha by (simpl; lia).
        rewrite nth_error_app2 in Hb by (simpl; lia).
        cbn [List.length] in Ha, Hb.
        replace (S i - S (List.length os))%nat
          with (S (i - S (List.length os))) in Hb by lia.
        specialize (IH d d [] (i - S (List.length os))%nat a b
                       eq_refl (Nat.le_0_l _) Ha Hb).
        cbv zeta in IH. rewrite <- IH. split; [now injection 1 | congruence].
Qed.

(** C2.  Take two drives that are next to each other in start-time order.
    [mergeDrives] puts them in the same merged drive exactly when the gap
    from the end of the first to the start of the second is under 7
    minutes or the battery rose by more than 5 points across the gap.  So
    two well-formed drives 5 minutes apart give one merged drive, and two
    drives 30 minutes apart with no battery increase give two, in either
    input order. *)
Theorem mergeDrives_same_merged_iff :
  (forall drives out i prev cur,
      mergeDrives drives = Ok out ->
      nth_error (sortDrives drives) i = Some prev ->
      nth_error (sortDrives drives) (S i) = Some cur ->
      mergedIndex out i = mergedIndex out (S i)
      <-> (started_at cur - ended_at prev) / 60 < 7
          \/ 5 < starting_battery cur - ending_battery prev)
  /\ (forall d1 d2,
        well_formed d1 ->
        started_at d2 - ended_at d1 == 5 * 60 ->
        exists m, mergeDrives [d1; d2] = Ok [m] /\ mergeDrives [d2; d1] = Ok [m])
  /\ (forall d1 d2,
        well_formed d1 ->
        started_at d2 - ended_at d1 == 30 * 60 ->
        starting_battery d2 <= ending_battery d1 ->
        exists m1 m2,
          mergeDrives [d1; d2] = Ok [m1; m2]
          /\ mergeDrives [d2; d1] = Ok [m1; m2]).
Proof.
  assert (Order : forall d1 d2,
             started_at d1 < started_at d2 ->
             sortDrives [d1; d2] = [d1; d2] /\ sortDrives [d2; d1] = [d1; d2]).
  { intros d1 d2 H. unfold sortDrives. simpl.
    assert (G1 : gtb (byStart d1 d2) 0 = false)
      by (apply gtb_le; unfold byStart; lra).
    assert (G2 : gtb (byStart d2 d1) 0 = true)
      by (apply gtb_gt; unfold byStart; lra).
    now rewrite G1, G2. }
  split; [|split].
  - intros drives out i prev cur E Hp Hc.
    rewrite mergeDrives_segments in E. injection E as <-.
    change ((started_at cur - ended_at prev) / 60) with (gapMinutes prev cur).
    rewrite <- shouldMergeDrives_spec.
    destruct (sortDrives drives) as [|f rest]; [destruct i; discriminate|].
    unfold mergedIndex. rewrite merged_id_blocks.
    apply (segments_same_block rest f f [] i prev cur eq_refl (Nat.le_0_l _) Hp Hc).
  - intros d1 d2 W G. unfold well_formed in W.
    destruct (Order d1 d2) as [S1 S2]; [lra|].
    assert (M : shouldMergeDrives d1 d2 (gapMinutes d1 d2) = true).
    { apply shouldMergeDrives_spec. left. unfold gapMinutes. rewrite G.
      reflexivity. }
    exists (buildMerged d1 [d2]).
    rewrite !mergeDrives_segments, S1, S2. simpl. now rewrite M.
  - intros d1 d2 W G B. unfold well_formed in W.
    destruct (Order d1 d2) as [S1 S2]; [lra|].
    assert (M : shouldMergeDrives d1 d2 (gapMinutes d1 d2) = false).
    { apply not_true_is_false. rewrite shouldMergeDrives_spec.
      unfold gapMinutes. rewrite G. intros [H|H]; [discriminate H | lra]. }
    exists (buildMerged d1 []), (buildMerged d2 []).
    rewrite !mergeDrives_segments, S1, S2. simpl. now rewrite M.
Qed.

(** [Sample.morning]: the first two drives are 5 minutes apart and make
    one merged drive, the third follows 30 minutes later on its own. *)
Example mergeDrives_morning :
  exists out,
    mergeDrives Sample.morning = Ok out
    /\ map originalDriveIds out = [[1; 2]; [3]]%Z
    /\ map merged_id out = ["merged_1_2"; "merged_3"]%string
    /\ Forall2 Qeq (map total_distance out) [9.75; 6]
    /\ Forall2 Qeq (map total_duration_minutes out) [25; 10]
    /\ map (fun m => map stop_type (stops m)) out = [[short]; []].
Proof.
  eexists. split; [vm_compute; reflexivity|].
  repeat split; repeat constructor.
Qed.



Lemma mergeDrives_same_merged_iff_witness :
  (mergedIndex
     [buildMerged (Sample.drive 1 0 600 Sample.home Sample.work 80 78 5.25)
                  [Sample.drive 2 900 1500 Sample.work Sample.work 78 76 4.5];
      buildMerged (Sample.drive 3 3300 3900 Sample.work Sample.home 76 74 6) []]
     0
   = mergedIndex
     [buildMerged (Sample.drive 1 0 600 Sample.home Sample.work 80 78 5.25)
                  [Sample.drive 2 900 1500 Sample.work Sample.work 78 76 4.5];
      buildMerged (Sample.drive 3 3300 3900 Sample.work Sample.home 76 74 6) []]
     1
   <-> (900 - 600) / 60 < 7 \/ 5 < 78 - 78)
  /\ (exists m,
        mergeDrives [Sample.drive 1 0 600 Sample.home Sample.work 80 78 5.25;
                     Sample.drive 2 900 1500 Sample.work Sample.work 78 76 4.5]
        = Ok [m])
  /\ (exists m1 m2,
        mergeDrives [Sample.drive 2 900 1500 Sample.work Sample.work 78 76 4.5;
                     Sample.drive 3 3300 3900 Sample.work Sample.home 76 74 6]
        = Ok [m1; m2]).
Proof.
  destruct mergeDrives_same_merged_iff as (Iff & Five & Thirty).
  split; [|split].
  - apply (Iff Sample.morning _ 0%nat
               (Sample.drive 1 0 600 Sample.home Sample.work 80 78 5.25)
               (Sample.drive 2 900 1500 Sample.work Sample.work 78 76 4.5));
      reflexivity.
  - destruct (Five (Sample.drive 1 0 600 Sample.home Sample.work 80 78 5.25)
                   (Sample.drive 2 900 1500 Sample.work Sample.work 78 76 4.5))
      as (m & E & _).
    + discriminate.
    + reflexivity.
    + now exists m.
  - destruct (Thirty (Sample.drive 2 900 1500 Sample.work Sample.work 78 76 4.5)
                     (Sample.drive 3 3300 3900 Sample.work Sample.home 76 74 6))
      as (m1 & m2 & E & _).
    + discriminate.
    + reflexivity.
    + discriminate.
    + now exists m1, m2.
Defined.

(** *** The order of the input *)

Lemma distinctStarts_perm (l l' : list TessieDrive) :
  Permutation l l' -> distinctStarts l -> distinctStarts l'.
Proof.
  induction 1 as [|x l l' P IH|x y l|l l' l'' P1 IH1 P2 IH2]; simpl.
  - trivial.
  - intros [F D]. split; [|now apply IH].
    eapply Permutation_Forall; [exact P|exact F].
  - intros [F [G D]].
    inversion F as [|? ? Fx Fl]; subst.
    repeat split; try assumption.
    constructor; [|assumption].
    intro E. apply Fx. now symmetry.
  - intro D. apply IH2, IH1, D.
Qed.

Lemma sorted_distinct_strict (l : list TessieDrive) :
  StronglySorted startLe l -> distinctStarts l -> StronglySorted startLt l.
Proof.
  induction 1 as [|a l Hs IH Ha]; simpl.
  - constructor.
  - intros [F D]. constructor; [now apply IH|].
    rewrite Forall_forall in *. intros b Hb.
    specialize (Ha b Hb). specialize (F b Hb).
    unfold startLe, startLt in *.
    apply Qle_lteq in Ha. tauto.
Qed.

(** Two strictly sorted arrangements of the same drives are the same
    list. *)
Lemma strict_sorted_unique (l1 : list TessieDrive) :
  forall l2,
    StronglySorted startLt l1 -> StronglySorted startLt l2 ->
    Permutation l1 l2 -> l1 = l2.
Proof.
  induction l1 as [|a1 t1 IH]; intros l2 S1 S2 P.
  - apply Permutation_nil in P. now subst.
  - destruct l2 as [|a2 t2].
    + symmetry in P. apply Permutation_nil in P. discriminate.
    + inversion S1 as [|? ? S1' F1]; subst.
      inversion S2 as [|? ? S2' F2]; subst.
      rewrite Forall_forall in F1, F2.
      assert (E : a1 = a2).
      { assert (I1 : In a1 (a2 :: t2))
          by (eapply Permutation_in; [exact P|now left]).
        assert (I2 : In a2 (a1 :: t1))
          by (eapply Permutation_in; [symmetry; exact P|now left]).
        destruct I1 as [E|I1]; [now symmetry|].
        destruct I2 as [E|I2]; [exact E|].
        specialize (F1 _ I2). specialize (F2 _ I1).
        unfold startLt in *. lra. }
      subst a2. f_equal.
      apply IH; try assumption.
      now apply Permutation_cons_inv in P.
Qed.

Lemma sortDrives_perm_invariant (l l' : list TessieDrive) :
  Permutation l l' -> distinctStarts l -> sortDrives l = sortDrives l'.
Proof.
  intros P D.
  apply strict_sorted_unique.
  - apply sorted_distinct_strict; [apply sortDrives_sorted|].
    eapply distinctStarts_perm; [symmetry; apply sortDrives_perm|exact D].
  - apply sorted_distinct_strict; [apply sortDrives_sorted|].
    eapply distinctStarts_perm; [|exact D].
    rewrite P. symmetry. apply sortDrives_perm.
  - rewrite !sortDrives_perm. exact P.
Qed.

(** C8, as stated, fails: two drives that start at the same second come
    out in input order, so the reversed input lists the identifiers the
    other way round. *)
Lemma mergeDrives_reversed_counterexample :
  mergeDrives (rev [Sample.twin1; Sample.twin2])
  <> mergeDrives [Sample.twin1; Sample.twin2].
Proof.
  intro H.
  apply (f_equal (fun r => match r with
                           | Ok (m :: _) => originalDriveIds m
                           | _ => []
                           end)) in H.
  vm_compute in H. discriminate H.
Qed.


(** ** The efficiency analyzer *)

Lemma plausible_spec (d : TessieDrive) :
  EfficiencyAnalyzer.plausible (EfficiencyAnalyzer.toDataPoint d) = true
  <-> 0 < EfficiencyAnalyzer.efficiencyOf d
      /\ EfficiencyAnalyzer.efficiencyOf d < 60.
Proof.
  unfold EfficiencyAnalyzer.plausible. simpl.
  rewrite andb_true_iff, gtb_gt, ltb_lt. reflexivity.
Qed.

Lemma convertToDataPoints_filter_map (drives : list TessieDrive) :
  EfficiencyAnalyzer.convertToDataPoints drives
  = map EfficiencyAnalyzer.toDataPoint
        (filter (fun d =>
                   gtb (EfficiencyAnalyzer.efficiencyOf d) 0
                   && ltb (EfficiencyAnalyzer.efficiencyOf d) 60)
                drives).
Proof.
  unfold EfficiencyAnalyzer.convertToDataPoints.
  induction drives as [|d ds IH]; [reflexivity|].
  cbn [map filter]. rewrite IH.
  unfold EfficiencyAnalyzer.plausible.
  change (EfficiencyAnalyzer.efficiency_kwh_per_100mi
            (EfficiencyAnalyzer.toDataPoint d))
    with (EfficiencyAnalyzer.efficiencyOf d).
  now destruct (gtb (EfficiencyAnalyzer.efficiencyOf d) 0
                && ltb (EfficiencyAnalyzer.efficiencyOf d) 60).
Qed.

(** C6, as stated, fails: [Sample.coasting] has a consumption rate of
    exactly 0, inside [0, 60), and its data point is discarded. *)
Lemma convertToDataPoints_zero_counterexample :
  EfficiencyAnalyzer.efficiencyOf Sample.coasting == 0
  /\ 0 <= EfficiencyAnalyzer.efficiencyOf Sample.coasting < 60
  /\ EfficiencyAnalyzer.convertToDataPoints [Sample.coasting] = [].
Proof.
  repeat split; try reflexivity. discriminate.
Qed.

(** C6 (as amended).  The normalization step keeps, in order, the data
    points of a sub-list of the drives, and every point it keeps has a
    stored consumption rate strictly between 0 and 60 kWh/100mi.  The
    rate of a drive with a positive distance is
    battery_used/100 x 75 / distance x 100 and the rate of any other
    drive is 0; a drive whose rate is 0 or less is discarded.  The code
    computes the rate in double precision, which can move a rate across
    an end of the range only when it lies within rounding of that end:
    a drive whose rate is between 0.001 and 59.999 is kept, a drive whose
    rate is at least 60.001 is discarded, and over drives that are all
    clear of the two ends in this way the result is exactly, in order,
    the points of the drives whose rate is inside the range. *)
Theorem convertToDataPoints_keeps_open_range (drives : list TessieDrive) :
  (forall dp,
      In dp (EfficiencyAnalyzer.convertToDataPoints drives) ->
      0 < EfficiencyAnalyzer.efficiency_kwh_per_100mi dp
      /\ EfficiencyAnalyzer.efficiency_kwh_per_100mi dp < 60
      /\ exists d, In d drives /\ dp = EfficiencyAnalyzer.toDataPoint d)
  /\ (exists keep,
        EfficiencyAnalyzer.convertToDataPoints drives
        = map EfficiencyAnalyzer.toDataPoint (filter keep drives))
  /\ (forall d,
        In d drives ->
        0.001 <= EfficiencyAnalyzer.efficiencyOf d ->
        EfficiencyAnalyzer.efficiencyOf d <= 59.999 ->
        In (EfficiencyAnalyzer.toDataPoint d)
           (EfficiencyAnalyzer.convertToDataPoints drives))
  /\ (forall d,
        EfficiencyAnalyzer.efficiencyOf d <= 0
        \/ 60.001 <= EfficiencyAnalyzer.efficiencyOf d ->
        ~ In (EfficiencyAnalyzer.toDataPoint d)
             (EfficiencyAnalyzer.convertToDataPoints drives))
  /\ (Forall clearOfEnds drives ->
      EfficiencyAnalyzer.convertToDataPoints drives
      = map EfficiencyAnalyzer.toDataPoint
            (filter (fun d =>
                       gtb (EfficiencyAnalyzer.efficiencyOf d) 0
                       && ltb (EfficiencyAnalyzer.efficiencyOf d) 60)
                    drives))
  /\ (forall d,
        0 < odometer_distance d ->
        EfficiencyAnalyzer.efficiencyOf d
        = (starting_battery d - ending_battery d) / 100 * 75
          / odometer_distance d * 100)
  /\ (forall d,
        odometer_distance d <= 0 -> EfficiencyAnalyzer.efficiencyOf d = 0).
Proof.
  assert (K : forall dp,
             In dp (EfficiencyAnalyzer.convertToDataPoints drives)
             <-> exists d, In d drives
                           /\ dp = EfficiencyAnalyzer.toDataPoint d
                           /\ 0 < EfficiencyAnalyzer.efficiencyOf d
                           /\ EfficiencyAnalyzer.efficiencyOf d < 60).
  { intro dp. unfold EfficiencyAnalyzer.convertToDataPoints.
    rewrite filter_In, in_map_iff. split.
    - intros [(d & <- & I) Pl]. apply plausible_spec in Pl.
      exists d. tauto.
    - intros (d & I & -> & R). split.
      + now exists d.
      + now apply plausible_spec. }
  split; [|split; [|split; [|split; [|split; [|split]]]]].
  - intros dp I. apply K in I. destruct I as (d & I & -> & P & U).
    split; [exact P|]. split; [exact U|]. now exists d.
  - eexists. apply convertToDataPoints_filter_map.
  - intros d I L U. apply K. exists d.
    split; [exact I|]. split; [reflexivity|]. split; lra.
  - intros d E I. apply K in I. destruct I as (d' & _ & Eq & P & U).
    assert (R : EfficiencyAnalyzer.efficiencyOf d
                = EfficiencyAnalyzer.efficiencyOf d')
      by exact (f_equal EfficiencyAnalyzer.efficiency_kwh_per_100mi Eq).
    rewrite <- R in P, U. lra.
  - intros _. apply convertToDataPoints_filter_map.
  - intros d P. unfold EfficiencyAnalyzer.efficiencyOf.
    apply gtb_gt in P. now rewrite P.
  - intros d P. unfold EfficiencyAnalyzer.efficiencyOf.
    apply gtb_le in P. now rewrite P.
Qed.

Lemma convertToDataPoints_keeps_open_range_witness :
  In (EfficiencyAnalyzer.toDataPoint
        (Sample.drive 1 0 600 Sample.home Sample.work 80 78 5.25))
     (EfficiencyAnalyzer.convertToDataPoints Sample.morning)
  /\ ~ In (EfficiencyAnalyzer.toDataPoint Sample.coasting)
          (EfficiencyAnalyzer.convertToDataPoints
             (Sample.coasting :: Sample.morning))
  /\ EfficiencyAnalyzer.convertToDataPoints Sample.morning
     = map EfficiencyAnalyzer.toDataPoint
           (filter (fun d =>
                      gtb (EfficiencyAnalyzer.efficiencyOf d) 0
                      && ltb (EfficiencyAnalyzer.efficiencyOf d) 60)
                   Sample.morning).
Proof.
  destruct (convertToDataPoints_keeps_open_range Sample.morning)
    as (_ & _ & Kept & _ & Exact & _).
  destruct (convertToDataPoints_keeps_open_range
              (Sample.coasting :: Sample.morning))
    as (_ & _ & _ & Dropped & _).
  split; [|split].
  - apply Kept.
    + now left.
    + vm_compute. discriminate.
    + vm_compute. discriminate.
  - apply Dropped. left. vm_compute. discriminate.
  - apply Exact. unfold Sample.morning.
    repeat (apply Forall_cons;
            [right; left; split; vm_compute; discriminate|]).
    apply Forall_nil.
Defined.

(** At exactly 60, rounding decides.  [Sample.sixty] has a rate of
    exactly 60; in binary64 the rate is 59.999999999999986, which is
    inside the range. *)
Remark convertToDataPoints_at_sixty :
  EfficiencyAnalyzer.efficiencyOf Sample.sixty == 60
  /\ ~ clearOfEnds Sample.sixty
  /\ Binary64.efficiencyOf 80%float 23%float 71.25%float
     = 0x1.dfffffffffffep+5%float
  /\ PrimFloat.ltb (Binary64.efficiencyOf 80%float 23%float 71.25%float)
                   60%float = true.
Proof.
  split; [reflexivity|]. split.
  - unfold clearOfEnds. intros [H|[[_ H]|H]]; vm_compute in H; now apply H.
  - split; vm_compute; reflexivity.
Qed.

(** C9.  With fewer than 5 drives [analyzeEfficiencyTrends] returns the
    empty analysis: every numeric field is zero, each trend reports low
    confidence, and the recommendations are the one sentence that says
    the data is insufficient. *)
Theorem analyzeEfficiencyTrends_insufficient
    (summarize : list TessieDrive ->
                 list EfficiencyAnalyzer.EfficiencyDataPoint ->
                 EfficiencyAnalyzer.EfficiencyAnalysis)
    (drives : list TessieDrive) :
  (List.length drives < 5)%nat ->
  let r := EfficiencyAnalyzer.analyzeEfficiencyTrends summarize drives in
  r = EfficiencyAnalyzer.emptyAnalysis EfficiencyAnalyzer.insufficientMessage
  /\ allZero r
  /\ lowConfidence r
  /\ EfficiencyAnalyzer.recommendations r
     = ["Insufficient driving data for trend analysis (minimum 5 drives required)"%string]
  /\ EfficiencyAnalyzer.insights r = [].
Proof.
  intros H r. subst r.
  unfold EfficiencyAnalyzer.analyzeEfficiencyTrends.
  apply Nat.ltb_lt in H. rewrite H.
  repeat split.
Qed.

Lemma analyzeEfficiencyTrends_insufficient_witness :
  EfficiencyAnalyzer.analyzeEfficiencyTrends
    (fun _ _ => EfficiencyAnalyzer.emptyAnalysis EmptyString)
    (Sample.coasting :: Sample.morning)
  = EfficiencyAnalyzer.emptyAnalysis EfficiencyAnalyzer.insufficientMessage.
Proof.
  refine (proj1 (analyzeEfficiencyTrends_insufficient _ _ _)).
  simpl. lia.
Defined.

(** ** The commute route clusterer *)

Lemma lookup_pushDrive (k k' : string) (d : TessieDrive)
    (routes : list (string * list TessieDrive)) :
  lookup k' (CommuteAnalyzer.pushDrive k d routes)
  = if String.eqb k k'
    then Some (match lookup k routes with
               | Some ds => ds ++ [d]
               | None => [d]
               end)
    else lookup k' routes.
Proof.
  induction routes as [|[k0 ds0] rest IH]; simpl.
  - reflexivity.
  - destruct (String.eqb_spec k0 k) as [E|N]; simpl.
    + subst k0. destruct (String.eqb k k'); reflexivity.
    + rewrite IH.
      destruct (String.eqb_spec k k') as [<-|N'].
      * apply String.eqb_neq in N. now rewrite N.
      * reflexivity.
Qed.

Lemma keys_pushDrive (k : string) (d : TessieDrive)
    (routes : list (string * list TessieDrive)) :
  map fst (CommuteAnalyzer.pushDrive k d routes)
  = if in_dec string_dec k (map fst routes)
    then map fst routes else map fst routes ++ [k].
Proof.
  induction routes as [|[k0 ds0] rest IH]; simpl.
  - reflexivity.
  - destruct (String.eqb_spec k0 k) as [E|N]; simpl.
    + subst k0.
      destruct (string_dec k k) as [_|C]; [reflexivity|now destruct C].
    + rewrite IH.
      destruct (string_dec k0 k) as [E|N0]; [now destruct N|].
      now destruct (in_dec string_dec k (map fst rest)).
Qed.

Lemma NoDup_keys_pushDrive (k : string) (d : TessieDrive)
    (routes : list (string * list TessieDrive)) :
  NoDup (map fst routes) ->
  NoDup (map fst (CommuteAnalyzer.pushDrive k d routes)).
Proof.
  intro N. rewrite keys_pushDrive.
  destruct (in_dec string_dec k (map fst routes)) as [I|I]; [exact N|].
  apply NoDup_app; [exact N | repeat constructor; intros [] | ].
  intros x Hx [<-|[]]. now apply I.
Qed.

Lemma groupsOf_step (seen : list TessieDrive) (d : TessieDrive)
    (routes : list (string * list TessieDrive)) :
  groupsOf seen routes ->
  groupsOf (seen ++ [d]) (CommuteAnalyzer.pushDrive (routeKey d) d routes).
Proof.
  intros [N L]. split; [now apply NoDup_keys_pushDrive|].
  intro k. rewrite lookup_pushDrive, !L.
  unfold withKey. rewrite filter_app. simpl.
  destruct (String.eqb (routeKey d) k) eqn:E.
  - apply String.eqb_eq in E. subst k.
    destruct (filter (fun d0 => String.eqb (routeKey d0) (routeKey d)) seen);
      reflexivity.
  - rewrite app_nil_r. reflexivity.
Qed.

Lemma groupsOf_loop (drives : list TessieDrive) :
  forall seen routes,
    groupsOf seen routes ->
    groupsOf (seen ++ drives)
      (fold_left
         (fun routes drive =>
            CommuteAnalyzer.pushDrive
              (CommuteAnalyzer.generateRouteId (starting_location drive)
                                               (ending_location drive))
              drive routes)
         drives routes).
Proof.
  induction drives as [|d ds IH]; intros seen routes G; simpl.
  - now rewrite app_nil_r.
  - replace (seen ++ d :: ds) with ((seen ++ [d]) ++ ds)
      by (now rewrite <- app_assoc).
    apply IH. now apply groupsOf_step.
Qed.

(** The groups of [groupDrivesByRoute]: one per route key that occurs,
    holding the drives with that key in input order. *)
Lemma groupDrivesByRoute_groups (drives : list TessieDrive) :
  groupsOf drives (CommuteAnalyzer.groupDrivesByRoute drives).
Proof.
  apply (groupsOf_loop drives [] []).
  split; [constructor|]. reflexivity.
Qed.

Lemma lookup_In (routes : list (string * list TessieDrive)) (k : string)
    (ds : list TessieDrive) :
  NoDup (map fst routes) ->
  (In (k, ds) routes <-> lookup k routes = Some ds).
Proof.
  induction routes as [|[k0 ds0] rest IH]; simpl; intro N.
  - split; [intros []|discriminate].
  - inversion N as [|? ? Nk Nr]; subst.
    destruct (String.eqb_spec k0 k) as [E0|Ne].
    + subst k0. split.
      * intros [E|I]; [now injection E as ->|].
        exfalso. apply Nk. now apply (in_map fst) in I.
      * intro E. injection E as ->. now left.
    + rewrite <- (IH Nr). split.
      * intros [E|I]; [injection E as -> ->; now destruct Ne|exact I].
      * intro I. now right.
Qed.

Lemma insert_least (x : TessieDrive) (l : list TessieDrive) :
  Forall (startLe x) l -> insert byStart x l = x :: l.
Proof.
  intros F. destruct l as [|y ys]; [reflexivity|].
  inversion F as [|? ? Hxy _]; subst. simpl.
  assert (G : gtb (byStart x y) 0 = false)
    by (apply gtb_le; unfold byStart, startLe in *; lra).
  now rewrite G.
Qed.

(** Sorting a sorted array leaves it as it is. *)
Lemma sortDrives_sorted_id (l : list TessieDrive) :
  StronglySorted startLe l -> sortDrives l = l.
Proof.
  unfold sortDrives.
  induction 1 as [|x l Hs IH Hx]; simpl.
  - reflexivity.
  - rewrite IH. now apply insert_least.
Qed.

Lemma sortDrives_idempotent (l : list TessieDrive) :
  sortDrives (sortDrives l) = sortDrives l.
Proof. apply sortDrives_sorted_id, sortDrives_sorted. Qed.

Lemma sortDrives_length (l : list TessieDrive) :
  List.length (sortDrives l) = List.length l.
Proof. apply sort_length. Qed.

Lemma afterTrend_perm (ds : list TessieDrive) :
  Permutation (CommuteAnalyzer.afterTrend ds) ds.
Proof.
  unfold CommuteAnalyzer.afterTrend.
  destruct (List.length ds <? 6)%nat; [reflexivity|apply sortDrives_perm].
Qed.

Lemma weeklyFrequency_afterTrend (ds : list TessieDrive) :
  CommuteAnalyzer.calculateWeeklyFrequency (CommuteAnalyzer.afterTrend ds)
  = CommuteAnalyzer.calculateWeeklyFrequency ds.
Proof.
  unfold CommuteAnalyzer.afterTrend.
  destruct (List.length ds <? 6)%nat; [reflexivity|].
  unfold CommuteAnalyzer.calculateWeeklyFrequency.
  now rewrite sortDrives_idempotent, sortDrives_length.
Qed.

Lemma last_in_or_default {A : Type} (l : list A) (d : A) :
  last l d = d \/ In (last l d) l.
Proof.
  revert d. induction l as [|a l IH]; intro d; [now left|].
  right. rewrite last_cons_default.
  destruct (IH a) as [E|I]; [left; now symmetry | now right].
Qed.

(** In a sorted array the last drive starts no earlier than the first. *)
Lemma sorted_first_last (f : TessieDrive) (others : list TessieDrive) :
  StronglySorted startLe (f :: others) ->
  started_at f <= started_at (last others f).
Proof.
  intro S. inversion S as [|? ? _ F]; subst.
  destruct (last_in_or_default others f) as [->|I]; [lra|].
  rewrite Forall_forall in F. exact (F _ I).
Qed.

Lemma timeSpanWeeks_nonneg (drives : list TessieDrive) :
  0 <= timeSpanWeeks drives.
Proof.
  unfold timeSpanWeeks.
  pose proof (sortDrives_sorted drives) as S.
  destruct (sortDrives drives) as [|f others]; [lra|].
  apply sorted_first_last in S.
  apply Qle_shift_div_l; [reflexivity|]. lra.
Qed.

(** The two cases of [calculateWeeklyFrequency]: the count when the span
    is zero, the rounded quotient by a positive span otherwise. *)
Lemma weeklyFrequency_cases (drives : list TessieDrive) :
  let n := inject_Z (Z.of_nat (List.length drives)) in
  (timeSpanWeeks drives == 0
   /\ CommuteAnalyzer.calculateWeeklyFrequency drives = n)
  \/ (0 < timeSpanWeeks drives
      /\ CommuteAnalyzer.calculateWeeklyFrequency drives
         = round2 (n / timeSpanWeeks drives)).
Proof.
  intro n. subst n.
  pose proof (timeSpanWeeks_nonneg drives) as P.
  pose proof (sortDrives_length drives) as L.
  unfold CommuteAnalyzer.calculateWeeklyFrequency,
    CommuteAnalyzer.frequencyOfSorted, timeSpanWeeks in *.
  destruct (sortDrives drives) as [|f others].
  - left. split; [reflexivity|].
    destruct drives; [reflexivity|discriminate].
  - destruct drives as [|d0 ds0]; [discriminate L|].
    cbn [List.length Nat.eqb].
    set (span := (started_at (last others f) - started_at f) / (7 * 24 * 3600)) in *.
    destruct (eqb span 0) eqn:E.
    + left. apply eqb_eq in E. now split.
    + right. apply eqb_neq in E. split; [|reflexivity].
      apply Qle_lteq in P. destruct P as [P|P]; [exact P|].
      exfalso. apply E. now symmetry.
Qed.

Lemma weeklyFrequency_nonneg (drives : list TessieDrive) :
  0 <= CommuteAnalyzer.calculateWeeklyFrequency drives.
Proof.
  destruct (weeklyFrequency_cases drives) as [[_ ->]|[P ->]].
  - change 0 with (inject_Z 0). rewrite <- Zle_Qle. lia.
  - apply round2_nonneg. apply Qle_shift_div_l; [exact P|].
    rewrite Qmult_0_l. change 0 with (inject_Z 0). rewrite <- Zle_Qle. lia.
Qed.


(** *** Route keys *)

Lemma split_app (sep : ascii) (a b : string) :
  Str.split sep (a ++ String sep b) = (Str.split sep a ++ Str.split sep b)%list.
Proof.
  induction a as [|c a IH]; simpl.
  - now rewrite Ascii.eqb_refl.
  - destruct (Ascii.eqb c sep); [now rewrite IH|].
    rewrite IH.
    destruct (Str.split sep a) as [|p ps] eqn:E; [|reflexivity].
    destruct a; simpl in E; [discriminate|].
    destruct (Ascii.eqb a sep); [discriminate|].
    destruct (Str.split sep a0); discriminate.
Qed.

Lemma split_commaFree (s : string) :
  commaFree s = true -> Str.split "," s = [s].
Proof.
  induction s as [|c s IH]; simpl; [reflexivity|].
  intro H. apply andb_true_iff in H. destruct H as [N F].
  apply negb_true_iff in N. rewrite N, (IH F). reflexivity.
Qed.

(** A label with three parts or more is reduced to its third-from-last
    and second-from-last parts; the last part is dropped. *)
Lemma normalizeLocation_parts (location : string) (parts : list string)
    (a b c : string) :
  Str.split "," location = (parts ++ [a; b; c])%list ->
  CommuteAnalyzer.normalizeLocation location
  = (Str.trim a ++ ", " ++ Str.trim b)%string.
Proof.
  intro E. unfold CommuteAnalyzer.normalizeLocation, CommuteAnalyzer.part.
  rewrite E, length_app. simpl List.length.
  replace (3 <=? List.length parts + 3)%nat with true
    by (symmetry; apply Nat.leb_le; lia).
  replace (List.length parts + 3 - 3)%nat with (List.length parts) by lia.
  replace (List.length parts + 3 - 2)%nat with (S (List.length parts)) by lia.
  rewrite !app_nth2 by lia.
  rewrite Nat.sub_diag.
  replace (S (List.length parts) - List.length parts)%nat with 1%nat by lia.
  reflexivity.
Qed.

Lemma normalizeLocation_short (location : string) :
  (List.length (Str.split "," location) < 3)%nat ->
  CommuteAnalyzer.normalizeLocation location = location.
Proof.
  intro H. unfold CommuteAnalyzer.normalizeLocation.
  replace (3 <=? List.length (Str.split "," location))%nat with false
    by (symmetry; apply Nat.leb_gt; lia).
  reflexivity.
Qed.

Lemma ltb_asym (x y : string) :
  String.ltb x y = true -> String.ltb y x = false.
Proof.
  unfold String.ltb. rewrite (String.compare_antisym y x).
  destruct (String.compare x y); simpl; congruence.
Qed.

Lemma ltb_trichotomy (x y : string) :
  String.ltb x y = false -> String.ltb y x = false -> x = y.
Proof.
  unfold String.ltb. rewrite (String.compare_antisym y x).
  destruct (String.compare x y) eqn:E; simpl; try discriminate.
  intros _ _. now apply String.compare_eq_iff.
Qed.

(** [[x, y].sort()]. *)
Lemma sort_pair (x y : string) :
  JS.sort Str.defaultCompare [x; y] = if String.ltb y x then [y; x] else [x; y].
Proof.
  simpl. unfold Str.defaultCompare.
  destruct (String.ltb x y) eqn:A.
  - now rewrite (ltb_asym _ _ A).
  - now destruct (String.ltb y x).
Qed.

Lemma generateRouteId_sorted_pair (a b : string) :
  let x := CommuteAnalyzer.normalizeLocation a in
  let y := CommuteAnalyzer.normalizeLocation b in
  CommuteAnalyzer.generateRouteId a b
  = if String.ltb y x
    then (y ++ CommuteAnalyzer.arrow ++ x)%string
    else (x ++ CommuteAnalyzer.arrow ++ y)%string.
Proof.
  intros x y. unfold CommuteAnalyzer.generateRouteId.
  fold x y. rewrite sort_pair.
  destruct (String.ltb y x); reflexivity.
Qed.

Lemma generateRouteId_sym (a b : string) :
  CommuteAnalyzer.generateRouteId a b = CommuteAnalyzer.generateRouteId b a.
Proof.
  rewrite !generateRouteId_sorted_pair. cbv zeta.
  set (x := CommuteAnalyzer.normalizeLocation a).
  set (y := CommuteAnalyzer.normalizeLocation b).
  destruct (String.ltb y x) eqn:A.
  - now rewrite (ltb_asym _ _ A).
  - destruct (String.ltb x y) eqn:B; [reflexivity|].
    now rewrite (ltb_trichotomy _ _ B A).
Qed.

(** *** Retained routes *)

Lemma analyzeRoute_ok (k : string) (ds : list TessieDrive) :
  ds <> [] ->
  exists r, CommuteAnalyzer.analyzeRoute (k, ds) = Ok r /\ routeOf (k, ds) r.
Proof.
  intro N. unfold CommuteAnalyzer.analyzeRoute.
  pose proof (weeklyFrequency_afterTrend ds) as W.
  pose proof (afterTrend_perm ds) as P.
  destruct (CommuteAnalyzer.afterTrend ds) as [|d0 rest].
  - apply Permutation_nil in P. now destruct N.
  - eexists. split; [reflexivity|]. split; [reflexivity|exact W].
Qed.

Lemma mapRoutes_ok (groups : list (string * list TessieDrive)) :
  Forall (fun g => snd g <> []) groups ->
  exists rs, CommuteAnalyzer.mapRoutes groups = Ok rs
             /\ Forall2 routeOf groups rs.
Proof.
  induction 1 as [|[k ds] groups N _ (rs & E & F)].
  - exists []. split; [reflexivity|constructor].
  - destruct (analyzeRoute_ok k ds N) as (r & Er & Rr).
    exists (r :: rs). cbn [CommuteAnalyzer.mapRoutes].
    rewrite Er, E. split; [reflexivity|now constructor].
Qed.

Lemma frequentEnough_nonempty (groups : list (string * list TessieDrive)) :
  Forall (fun g => snd g <> [])
         (filter CommuteAnalyzer.frequentEnough groups).
Proof.
  apply Forall_forall. intros [k ds] I.
  apply filter_In in I. destruct I as [_ F].
  unfold CommuteAnalyzer.frequentEnough in F. cbn [snd] in *.
  apply Nat.leb_le in F. unfold CommuteAnalyzer.MIN_ROUTE_FREQUENCY in F.
  destruct ds; [simpl in F; lia|discriminate].
Qed.

(** [analyzeCommutes] returns for every input; with ten drives or more
    its routes are those of the groups with three members or more. *)
Lemma analyzeCommutes_ok (drives : list TessieDrive) :
  exists r,
    CommuteAnalyzer.analyzeCommutes drives = Ok r
    /\ ((List.length drives < 10)%nat -> r = CommuteAnalyzer.emptyAnalysis)
    /\ ((10 <= List.length drives)%nat ->
        Forall2 routeOf
                (filter CommuteAnalyzer.frequentEnough
                        (CommuteAnalyzer.groupDrivesByRoute drives))
                (CommuteAnalyzer.routes r)).
Proof.
  unfold CommuteAnalyzer.analyzeCommutes.
  destruct (List.length drives <? 10)%nat eqn:L.
  - exists CommuteAnalyzer.emptyAnalysis. apply Nat.ltb_lt in L.
    repeat split. lia.
  - apply Nat.ltb_ge in L.
    destruct (mapRoutes_ok _ (frequentEnough_nonempty
                                (CommuteAnalyzer.groupDrivesByRoute drives)))
      as (rs & E & F).
    rewrite E. eexists. split; [reflexivity|]. split; [lia|].
    intros _. exact F.
Qed.

Lemma Forall2_map_fst (groups : list (string * list TessieDrive))
    (rs : list CommuteAnalyzer.CommuteRoute) :
  Forall2 routeOf groups rs ->
  map CommuteAnalyzer.route_id rs = map fst groups.
Proof.
  induction 1 as [|g r groups rs [E _] _ IH]; simpl; [reflexivity|].
  now rewrite E, IH.
Qed.

Lemma NoDup_map_filter {X K : Type} (key : X -> K) (keep : X -> bool)
    (xs : list X) (N : NoDup (map key xs)) :
  NoDup (map key (filter keep xs)).
Proof.
  induction xs as [|x xs IH]; simpl; [constructor|].
  simpl in N. apply NoDup_cons_iff in N. destruct N as [Nx Nxs].
  destruct (keep x); simpl; [|now apply IH].
  constructor; [|now apply IH].
  intro I. apply Nx. apply in_map_iff in I. destruct I as (y & E & I).
  apply filter_In in I. rewrite <- E. apply in_map. tauto.
Qed.

(** A route key is retained exactly when three drives or more carry
    it. *)
Lemma retained_keys (drives : list TessieDrive) (k : string) :
  In k (map fst (filter CommuteAnalyzer.frequentEnough
                        (CommuteAnalyzer.groupDrivesByRoute drives)))
  <-> (3 <= List.length (withKey k drives))%nat.
Proof.
  destruct (groupDrivesByRoute_groups drives) as [N L].
  rewrite in_map_iff. split.
  - intros ([k' ds] & E & I). simpl in E. subst k'.
    apply filter_In in I. destruct I as [I F].
    apply (lookup_In _ _ _ N) in I. rewrite L in I.
    unfold CommuteAnalyzer.frequentEnough in F. cbn [snd] in F.
    apply Nat.leb_le in F.
    destruct (withKey k drives); [discriminate|].
    injection I as <-. exact F.
  - intro H. exists (k, withKey k drives). split; [reflexivity|].
    apply filter_In. split.
    + apply (lookup_In _ _ _ N). rewrite L.
      destruct (withKey k drives); [simpl in H; lia|reflexivity].
    + unfold CommuteAnalyzer.frequentEnough. cbn [snd].
      apply Nat.leb_le. exact H.
Qed.


Lemma Forall2_In_right {A B : Type} (R : A -> B -> Prop)
    (l : list A) (l' : list B) (b : B) :
  Forall2 R l l' -> In b l' -> exists a, In a l /\ R a b.
Proof.
  induction 1 as [|x y l l' Rxy _ IH]; intros I; [destruct I|].
  destruct I as [<-|I].
  - exists x. split; [now left|exact Rxy].
  - destruct (IH I) as (a & Ia & Ra). exists a. split; [now right|exact Ra].
Qed.

(** The members of a retained group are the drives with its key. *)
Lemma retained_members (drives : list TessieDrive)
    (g : string * list TessieDrive) :
  In g (filter CommuteAnalyzer.frequentEnough
               (CommuteAnalyzer.groupDrivesByRoute drives)) ->
  snd g = withKey (fst g) drives /\ (3 <= List.length (snd g))%nat.
Proof.
  destruct g as [k ds]. intro I.
  destruct (groupDrivesByRoute_groups drives) as [N L].
  apply filter_In in I. destruct I as [I F].
  apply (lookup_In _ _ _ N) in I. rewrite L in I. cbn [fst snd].
  unfold CommuteAnalyzer.frequentEnough in F. cbn [snd] in F.
  apply Nat.leb_le in F.
  destruct (withKey k drives); [discriminate|].
  injection I as <-. now split.
Qed.

(** The frequency of a reported route is the weekly rate of the drives
    with its key. *)
Lemma analyzeCommutes_route_frequency (drives : list TessieDrive)
    (r : CommuteAnalyzer.CommuteAnalysis)
    (route : CommuteAnalyzer.CommuteRoute) :
  CommuteAnalyzer.analyzeCommutes drives = Ok r ->
  In route (CommuteAnalyzer.routes r) ->
  CommuteAnalyzer.frequency route
  = CommuteAnalyzer.calculateWeeklyFrequency
      (withKey (CommuteAnalyzer.route_id route) drives).
Proof.
  intros E I.
  destruct (analyzeCommutes_ok drives) as (r' & E' & Small & Large).
  rewrite E in E'. injection E' as <-.
  destruct (Nat.lt_ge_cases (List.length drives) 10) as [L|L].
  - rewrite (Small L) in I. destruct I.
  - destruct (Forall2_In_right _ _ _ _ (Large L) I) as (g & Ig & Eid & Ef).
    destruct (retained_members drives g Ig) as [M _].
    now rewrite Ef, M, Eid.
Qed.

(** C3, as stated, fails.  A label is not reduced to its last two parts
    (the home label gives "Springfield, IL", not "IL, USA"), and three
    drives between the same two places, there, back and there again,
    give no route at all: fewer than ten drives are never analyzed. *)
Lemma analyzeCommutes_round_trips_counterexample :
  CommuteAnalyzer.normalizeLocation "12 Oak St, Springfield, IL, USA"
  = "Springfield, IL"%string
  /\ Forall (fun d => routeKey d = routeKey (Sample.drive 1 0 1200 Sample.home
                                                       Sample.work 80 74 12))
            Sample.roundTrips
  /\ exists r,
       CommuteAnalyzer.analyzeCommutes Sample.roundTrips = Ok r
       /\ CommuteAnalyzer.routes r = []
       /\ CommuteAnalyzer.routes_detected r = 0%Z.
Proof.
  split; [reflexivity|]. split.
  - repeat constructor.
  - eexists. repeat split.
Qed.

(** C3 (as amended).  The route key does not depend on the direction: it
    is the sorted pair of the two normalized endpoints, where a label
    with three comma-separated parts or more is reduced to its
    third-from-last and second-from-last parts, trimmed, and a shorter
    label is kept whole.  [analyzeCommutes] returns for every input; with
    fewer than ten drives it reports no route; with ten or more it
    reports one route per key carried by at least three drives, and no
    other, the route's frequency being the weekly rate of the drives with
    that key.  So three drives A to B, B to A, A to B among ten or more
    give exactly one route for their key, two give none, and three
    drives on their own give none. *)
Theorem analyzeCommutes_routes_by_key (drives : list TessieDrive) :
  (forall a b,
      CommuteAnalyzer.generateRouteId a b = CommuteAnalyzer.generateRouteId b a)
  /\ (forall a b,
        let x := CommuteAnalyzer.normalizeLocation a in
        let y := CommuteAnalyzer.normalizeLocation b in
        CommuteAnalyzer.generateRouteId a b
        = if String.ltb y x
          then (y ++ CommuteAnalyzer.arrow ++ x)%string
          else (x ++ CommuteAnalyzer.arrow ++ y)%string)
  /\ (forall location parts a b c,
        Str.split "," location = (parts ++ [a; b; c])%list ->
        CommuteAnalyzer.normalizeLocation location
        = (Str.trim a ++ ", " ++ Str.trim b)%string)
  /\ (forall location,
        (List.length (Str.split "," location) < 3)%nat ->
        CommuteAnalyzer.normalizeLocation location = location)
  /\ exists r,
       CommuteAnalyzer.analyzeCommutes drives = Ok r
       /\ ((List.length drives < 10)%nat -> CommuteAnalyzer.routes r = [])
       /\ ((10 <= List.length drives)%nat ->
           NoDup (map CommuteAnalyzer.route_id (CommuteAnalyzer.routes r))
           /\ (forall k,
                 In k (map CommuteAnalyzer.route_id (CommuteAnalyzer.routes r))
                 <-> (3 <= List.length (withKey k drives))%nat)
           /\ (forall route,
                 In route (CommuteAnalyzer.routes r) ->
                 CommuteAnalyzer.frequency route
                 = CommuteAnalyzer.calculateWeeklyFrequency
                     (withKey (CommuteAnalyzer.route_id route) drives))).
Proof.
  split; [exact generateRouteId_sym|].
  split; [exact generateRouteId_sorted_pair|].
  split; [exact normalizeLocation_parts|].
  split; [exact normalizeLocation_short|].
  destruct (analyzeCommutes_ok drives) as (r & E & Small & Large).
  exists r. split; [exact E|]. split.
  - intro H. now rewrite (Small H).
  - intro H. specialize (Large H).
    pose proof (Forall2_map_fst _ _ Large) as Ids.
    split; [|split].
    + rewrite Ids. apply NoDup_map_filter.
      apply (groupDrivesByRoute_groups drives).
    + intro k. rewrite Ids. apply retained_keys.
    + intros route I. now apply (analyzeCommutes_route_frequency drives r).
Qed.

Lemma analyzeCommutes_routes_by_key_witness :
  exists r,
    CommuteAnalyzer.analyzeCommutes Sample.tenDrives = Ok r
    /\ In ("Shelbyville, IL" ++ CommuteAnalyzer.arrow ++ "Springfield, IL")%string
          (map CommuteAnalyzer.route_id (CommuteAnalyzer.routes r))
    /\ ~ In ("Capital City, IL" ++ CommuteAnalyzer.arrow ++ "Ogdenville, IL")%string
            (map CommuteAnalyzer.route_id (CommuteAnalyzer.routes r)).
Proof.
  destruct (analyzeCommutes_routes_by_key Sample.tenDrives)
    as (_ & _ & _ & _ & r & E & _ & Large).
  exists r. split; [exact E|].
  destruct Large as (_ & K & _); [simpl; lia|].
  split.
  - apply K. vm_compute. lia.
  - intro I. apply K in I. vm_compute in I. lia.
Defined.

(** The routes of [Sample.tenDrives]: the three round trips are one
    route, three drives a week; the two drives to Capital City are
    none. *)
Example analyzeCommutes_tenDrives :
  exists r,
    CommuteAnalyzer.analyzeCommutes Sample.tenDrives = Ok r
    /\ map CommuteAnalyzer.route_id (CommuteAnalyzer.routes r)
       = [ ("Shelbyville, IL" ++ CommuteAnalyzer.arrow ++ "Springfield, IL")%string;
           ("Brockway, IL" ++ CommuteAnalyzer.arrow ++ "Brockway, IL")%string ]
    /\ Forall2 Qeq (map CommuteAnalyzer.frequency (CommuteAnalyzer.routes r))
               [3; 75.6].
Proof.
  eexists. split; [vm_compute; reflexivity|]. split; [reflexivity|].
  repeat constructor.
Qed.



(** ** The trip cost calculator *)

Lemma gapCosts_kwh (homeRate superchargerRate : Q) (rest : list TessieDrive) :
  0 < homeRate -> 0 < superchargerRate ->
  forall prev h s,
    fst (TripCalculator.gapCosts prev rest homeRate superchargerRate (h, s))
      / homeRate
    + snd (TripCalculator.gapCosts prev rest homeRate superchargerRate (h, s))
      / superchargerRate
    == h / homeRate + s / superchargerRate + gapEnergyFrom prev rest.
Proof.
  intros Hh Hs.
  induction rest as [|d rest IH]; intros prev h s;
    cbn [TripCalculator.gapCosts gapEnergyFrom].
  - cbn [fst snd]. ring.
  - destruct (gtb (starting_battery d - ending_battery prev) 2).
    + destruct (ltb ((started_at d - ended_at prev) / 3600) 1
                && gtb (starting_battery d - ending_battery prev) 30).
      * rewrite IH. field. split; lra.
      * rewrite IH. field. split; lra.
    + rewrite IH. ring.
Qed.

(** The energy found in the gaps, whichever bucket it went to. *)
Lemma detectedChargingKwh_gapEnergy (drives : list TessieDrive)
    (homeRate superchargerRate : Q) :
  0 < homeRate -> 0 < superchargerRate ->
  TripCalculator.detectedChargingKwh drives homeRate superchargerRate
  == gapEnergy drives.
Proof.
  intros Hh Hs.
  unfold TripCalculator.detectedChargingKwh, TripCalculator.detectedCosts,
    gapEnergy.
  destruct drives as [|d rest].
  - field. split; lra.
  - pose proof (gapCosts_kwh homeRate superchargerRate rest Hh Hs d 0 0) as K.
    destruct (TripCalculator.gapCosts d rest homeRate superchargerRate (0, 0))
      as [h s].
    cbn [fst snd] in K. rewrite K. field. split; lra.
Qed.

(** C4, as stated, fails: in [Sample.topUp] the gap accounts for 9 kWh of
    the 15 kWh used, which is below the total but not below half of it,
    so nothing is added and the two buckets hold 9 kWh. *)
Lemma estimateChargingCosts_counterexample :
  exists used,
    TripCalculator.calculateTotalBatteryUsed (sortDrives Sample.topUp) = Ok used
    /\ let total := TripCalculator.totalEnergyKwhOf used in
       let c :=
         TripCalculator.estimateChargingCosts
           (sortDrives Sample.topUp) total
           TripCalculator.DEFAULT_HOME_RATE
           TripCalculator.DEFAULT_SUPERCHARGER_RATE in
       total == 15
       /\ gapEnergy (sortDrives Sample.topUp) == 9
       /\ TripCalculator.detectedChargingKwh
            (sortDrives Sample.topUp)
            TripCalculator.DEFAULT_HOME_RATE
            TripCalculator.DEFAULT_SUPERCHARGER_RATE < total
       /\ ~ homeKwh c TripCalculator.DEFAULT_HOME_RATE
            + superchargerKwh c TripCalculator.DEFAULT_SUPERCHARGER_RATE
            == total
       /\ exists a,
            TripCalculator.calculateTripCost
              Sample.topUp TripCalculator.DEFAULT_HOME_RATE
              TripCalculator.DEFAULT_SUPERCHARGER_RATE
              TripCalculator.DEFAULT_GAS_PRICE = Ok a
            /\ TripCalculator.energy_used_kwh a == 15
            /\ TripCalculator.electricity_cost a == 1.17
            /\ TripCalculator.charging_stops_cost a == 0
            /\ TripCalculator.total_cost a == 1.17.
Proof.
  eexists. split; [reflexivity|].
  split; [reflexivity|]. split; [reflexivity|]. split; [reflexivity|].
  split.
  - intro H. vm_compute in H. discriminate H.
  - eexists. split; [vm_compute; reflexivity|].
    repeat split.
Qed.

(** The gaps never account for a negative energy. *)
Lemma gapEnergyFrom_nonneg (rest : list TessieDrive) :
  forall prev, 0 <= gapEnergyFrom prev rest.
Proof.
  induction rest as [|d rest IH]; intro prev; cbn [gapEnergyFrom].
  - lra.
  - specialize (IH d).
    destruct (gtb (starting_battery d - ending_battery prev) 2) eqn:G.
    + apply gtb_gt in G. unfold TripCalculator.BATTERY_CAPACITY_KWH.
      assert (0 <= (starting_battery d - ending_battery prev) / 100 * 75).
      { apply Qmult_le_0_compat; [|lra].
        apply Qle_shift_div_l; lra. }
      lra.
    + lra.
Qed.

Lemma gapEnergy_nonneg (drives : list TessieDrive) : 0 <= gapEnergy drives.
Proof.
  destruct drives as [|d rest]; cbn [gapEnergy];
    [lra | apply gapEnergyFrom_nonneg].
Qed.

(** The two outcomes of the guard of [estimateChargingCosts], in terms of
    the energy of the gaps. *)
Lemma estimateChargingCosts_cases
    (drives : list TessieDrive) (totalEnergyKwh homeRate superchargerRate : Q) :
  0 < homeRate -> 0 < superchargerRate ->
  let c :=
    TripCalculator.estimateChargingCosts drives totalEnergyKwh
                                         homeRate superchargerRate in
  let h := fst (TripCalculator.detectedCosts drives homeRate superchargerRate) in
  TripCalculator.chargingStopsCost c
  = snd (TripCalculator.detectedCosts drives homeRate superchargerRate)
  /\ homeKwh c homeRate + superchargerKwh c superchargerRate
     == TripCalculator.electricityCost c / homeRate
        + TripCalculator.chargingStopsCost c / superchargerRate
  /\ ((gapEnergy drives < totalEnergyKwh * 0.5
       /\ TripCalculator.electricityCost c
          = h + (totalEnergyKwh
                 - (h / homeRate
                    + TripCalculator.chargingStopsCost c / superchargerRate))
                * homeRate)
      \/ (totalEnergyKwh * 0.5 <= gapEnergy drives
          /\ TripCalculator.electricityCost c = h))
  /\ h / homeRate + TripCalculator.chargingStopsCost c / superchargerRate
     == gapEnergy drives.
Proof.
  intros Hh Hs c h.
  pose proof (detectedChargingKwh_gapEnergy drives homeRate superchargerRate
                                            Hh Hs) as D.
  unfold TripCalculator.detectedChargingKwh in D.
  subst c h. unfold TripCalculator.estimateChargingCosts, homeKwh,
               superchargerKwh.
  destruct (TripCalculator.detectedCosts drives homeRate superchargerRate)
    as [h s].
  cbn [fst snd].
  destruct (ltb (h / homeRate + s / superchargerRate) (totalEnergyKwh * 0.5))
    eqn:L;
    cbn [TripCalculator.electricityCost TripCalculator.chargingStopsCost].
  - apply ltb_lt in L. rewrite D in L.
    split; [reflexivity|]. split; [reflexivity|]. split; [|exact D].
    left. split; [exact L | reflexivity].
  - apply ltb_ge in L. rewrite D in L.
    split; [reflexivity|]. split; [reflexivity|]. split; [|exact D].
    right. split; [exact L | reflexivity].
Qed.

(** C4 (as amended).  [calculateTripCost] splits the cost of a non-empty
    drive list with [estimateChargingCosts] on the sorted drives.  The
    energy found in charging gaps (consecutive pairs with a battery gain
    over 2 points) is priced per gap.  The guard compares the kWh
    recovered from the two buckets with half of the total energy; the
    recovered figure is the gap energy up to the rounding of the
    divisions, so the outcome is fixed as soon as the gap energy is not
    within a thousandth of the total of that half.  When the gap energy is
    at most 49.9% of the total, the rest of the total goes to the home
    bucket at the home rate, and the kWh of the two buckets add up to the
    total; when it is at least 50.1% of the total, nothing is added and
    the buckets hold the gap energy.  In both cases the two costs that
    [calculateTripCost] reports are those of the estimate, to the cent. *)
Theorem estimateChargingCosts_unaccounted
    (drives : list TessieDrive) (totalEnergyKwh homeRate superchargerRate : Q) :
  0 < homeRate -> 0 < superchargerRate ->
  let c :=
    TripCalculator.estimateChargingCosts drives totalEnergyKwh
                                         homeRate superchargerRate in
  (gapEnergy drives <= totalEnergyKwh * 0.499 ->
   homeKwh c homeRate + superchargerKwh c superchargerRate == totalEnergyKwh
   /\ TripCalculator.electricityCost c
      == fst (TripCalculator.detectedCosts drives homeRate superchargerRate)
         + (totalEnergyKwh - gapEnergy drives) * homeRate)
  /\ (totalEnergyKwh * 0.501 <= gapEnergy drives ->
      homeKwh c homeRate + superchargerKwh c superchargerRate
      == gapEnergy drives
      /\ TripCalculator.electricityCost c
         = fst (TripCalculator.detectedCosts drives homeRate superchargerRate))
  /\ TripCalculator.totalCost c
     = TripCalculator.electricityCost c + TripCalculator.chargingStopsCost c
  /\ (forall gasPrice, drives <> [] ->
        exists used a,
          TripCalculator.calculateTotalBatteryUsed (sortDrives drives) = Ok used
          /\ TripCalculator.calculateTripCost drives homeRate superchargerRate
                                              gasPrice = Ok a
          /\ let total := TripCalculator.totalEnergyKwhOf used in
             let c' :=
               TripCalculator.estimateChargingCosts
                 (sortDrives drives) total homeRate superchargerRate in
             (gapEnergy (sortDrives drives) <= total * 0.499
              \/ total * 0.501 <= gapEnergy (sortDrives drives)) ->
             withinCent (TripCalculator.electricity_cost a)
                        (TripCalculator.electricityCost c')
             /\ withinCent (TripCalculator.charging_stops_cost a)
                           (TripCalculator.chargingStopsCost c')).
Proof.
  intros Hh Hs c.
  pose proof (gapEnergy_nonneg drives) as G0.
  destruct (estimateChargingCosts_cases drives totalEnergyKwh
              homeRate superchargerRate Hh Hs) as (Es & K & Cases & D).
  fold c in Es, K, Cases, D.
  split; [|split; [|split]].
  - intro L. rewrite K.
    destruct Cases as [[_ E] | [L' E]]; rewrite E.
    + split.
      * field. split; lra.
      * rewrite D. reflexivity.
    + assert (T : totalEnergyKwh == 0) by lra.
      assert (G : gapEnergy drives == 0) by lra.
      split.
      * rewrite D, G, T. reflexivity.
      * rewrite G, T. ring.
  - intro L. rewrite K.
    destruct Cases as [[L' _] | [_ E]]; [lra|]. rewrite E.
    split; [exact D | reflexivity].
  - subst c. unfold TripCalculator.estimateChargingCosts.
    now destruct (TripCalculator.detectedCosts drives homeRate
                                               superchargerRate).
  - intros gasPrice N.
    unfold TripCalculator.calculateTripCost.
    destruct drives as [|d ds]; [now destruct N|].
    cbn [List.length Nat.eqb].
    pose proof (sortDrives_length (d :: ds)) as Len.
    unfold TripCalculator.calculateTotalBatteryUsed.
    destruct (sortDrives (d :: ds)) as [|f rest] eqn:S; [discriminate Len|].
    eexists. eexists. split; [reflexivity|]. split; [reflexivity|].
    cbv zeta. intros _.
    cbn [TripCalculator.electricity_cost TripCalculator.charging_stops_cost].
    split; apply round2_withinCent.
Qed.

Lemma estimateChargingCosts_unaccounted_witness :
  homeKwh
    (TripCalculator.estimateChargingCosts Sample.morning 4.5
       TripCalculator.DEFAULT_HOME_RATE TripCalculator.DEFAULT_SUPERCHARGER_RATE)
    TripCalculator.DEFAULT_HOME_RATE
  + superchargerKwh
      (TripCalculator.estimateChargingCosts Sample.morning 4.5
         TripCalculator.DEFAULT_HOME_RATE
         TripCalculator.DEFAULT_SUPERCHARGER_RATE)
      TripCalculator.DEFAULT_SUPERCHARGER_RATE
  == 4.5.
Proof.
  refine (proj1 (proj1 (estimateChargingCosts_unaccounted
                          Sample.morning 4.5
                          TripCalculator.DEFAULT_HOME_RATE
                          TripCalculator.DEFAULT_SUPERCHARGER_RATE _ _) _)).
  - reflexivity.
  - reflexivity.
  - vm_compute. discriminate.
Defined.

(** At exactly half, rounding decides.  In [Sample.halfway] the gap
    accounts for 15.75 of the 31.5 kWh used.  In binary64 the kWh
    recovered from the home bucket is 15.749999999999998, which is below
    half, so the rest of the total is added and the electricity cost is
    4.10, twice the cost of the gap. *)
Remark estimateChargingCosts_at_half :
  gapEnergy Sample.halfway == TripCalculator.totalEnergyKwhOf 42 * 0.5
  /\ Binary64.calculateTotalBatteryUsed Sample.halfway64 = 42%float
  /\ Binary64.detectedChargingKwh
       Sample.halfway64 Binary64.DEFAULT_HOME_RATE
       Binary64.DEFAULT_SUPERCHARGER_RATE
     = 0x1.f7fffffffffffp+3%float
  /\ PrimFloat.ltb
       (Binary64.detectedChargingKwh
          Sample.halfway64 Binary64.DEFAULT_HOME_RATE
          Binary64.DEFAULT_SUPERCHARGER_RATE)
       (31.5 * 0.5)%float = true
  /\ Binary64.round2
       (fst (Binary64.estimateChargingCosts
               Sample.halfway64 31.5%float Binary64.DEFAULT_HOME_RATE
               Binary64.DEFAULT_SUPERCHARGER_RATE))
     = 0x1.0666666666666p+2%float.
Proof.
  split; [reflexivity|]. repeat split; vm_compute; reflexivity.
Qed.

(** *** A 300-mile trip from 65% *)

(** C5, as stated, fails: the required charge is 115%, so the deficit
    over 65% is 50 points (49.999999999999986 in binary64), which does
    not exceed 60. *)
Lemma estimateFutureTripCost_deficit_counterexample :
  ~ 60 < TripCalculator.chargeDeficit 300 65
  /\ PrimFloat.ltb 60 (Binary64.chargeDeficit 300 65) = false.
Proof.
  split.
  - intro H. vm_compute in H. discriminate H.
  - vm_compute. reflexivity.
Qed.

(** C5 (as amended).  For 300 miles from 65% at the default rates the
    required charge with the 15% buffer is 115%, the deficit is 50 points
    and does not exceed 60, and the plan is the home-only one (charge to
    115% at home); its [charging_needed] is true and its
    [charging_stops_needed] is 1.  The same holds in binary64, where the
    deficit is 49.999999999999986 and the estimated cost 4.87. *)
Theorem estimateFutureTripCost_300_65 :
  let r :=
    TripCalculator.estimateFutureTripCost
      300 65 TripCalculator.DEFAULT_HOME_RATE
      TripCalculator.DEFAULT_SUPERCHARGER_RATE in
  TripCalculator.totalBatteryNeeded 300 == 115
  /\ TripCalculator.chargeDeficit 300 65 == 50
  /\ TripCalculator.chargeDeficit 300 65 <= 60
  /\ TripCalculator.charging_needed r = true
  /\ TripCalculator.charging_stops_needed r = 1%Z
  /\ (exists target,
        TripCalculator.strategy r = TripCalculator.ChargeAtHome target
        /\ target == 115)
  /\ TripCalculator.recommended_charge_level r == 100
  /\ Binary64.chargeDeficit 300 65 = 0x1.8fffffffffffep+5%float
  /\ PrimFloat.leb (Binary64.chargeDeficit 300 65) 60 = true
  /\ Binary64.estimateFutureTripCost
       300 65 Binary64.DEFAULT_HOME_RATE Binary64.DEFAULT_SUPERCHARGER_RATE
     = {| Binary64.estimated_cost := 0x1.37ae147ae147bp+2%float;
          Binary64.charging_needed := true;
          Binary64.recommended_charge_level := 100%float;
          Binary64.charging_stops_needed := 1%float;
          Binary64.strategy := TripCalculator.ChargeAtHome 115%float |}.
Proof.
  repeat split; try (vm_compute; reflexivity).
  - vm_compute. discriminate.
  - eexists. split; vm_compute; reflexivity.
Qed.

(** ** The caller's array *)

Lemma elements_valid (r : Effects.aref) (h : Effects.store) :
  Effects.elements r h <> [] -> (r < List.length h)%nat.
Proof.
  unfold Effects.elements. intro N.
  destruct (Nat.lt_ge_cases r (List.length h)) as [L|L]; [exact L|].
  now rewrite nth_overflow in N.
Qed.

Lemma update_length (r : Effects.aref) (l : list TessieDrive)
    (h : Effects.store) :
  List.length (Effects.update r l h) = List.length h.
Proof.
  revert r. induction h as [|x h IH]; intros [|r]; simpl; auto.
Qed.

Lemma elements_update_same (r : Effects.aref) (l : list TessieDrive)
    (h : Effects.store) :
  (r < List.length h)%nat -> Effects.elements r (Effects.update r l h) = l.
Proof.
  unfold Effects.elements.
  revert r. induction h as [|x h IH]; intros [|r]; simpl; intro L; try lia.
  - reflexivity.
  - apply IH. lia.
Qed.

Lemma elements_update_other (r r' : Effects.aref) (l : list TessieDrive)
    (h : Effects.store) :
  r <> r' ->
  Effects.elements r' (Effects.update r l h) = Effects.elements r' h.
Proof.
  unfold Effects.elements.
  revert r r'. induction h as [|x h IH]; intros [|r] [|r']; simpl; intro N;
    try reflexivity; try (now destruct N).
  apply IH. congruence.
Qed.

Lemma elements_app_left (r : Effects.aref) (h ext : Effects.store) :
  (r < List.length h)%nat ->
  Effects.elements r (h ++ ext) = Effects.elements r h.
Proof. intro L. unfold Effects.elements. now apply app_nth1. Qed.

Lemma elements_app_right (A ext : Effects.store) (i : nat) :
  Effects.elements (List.length A + i)%nat (A ++ ext) = Effects.elements i ext.
Proof.
  unfold Effects.elements. rewrite app_nth2 by lia.
  f_equal. lia.
Qed.

Lemma update_app_right (A ext : Effects.store) (l : list TessieDrive) :
  forall x,
    Effects.update (List.length A) l (A ++ x :: ext) = A ++ l :: ext.
Proof.
  induction A as [|a A IH]; intro x; simpl; [reflexivity|].
  now rewrite IH.
Qed.

(** [mergeDrives] works on a copy: the arrays of the store it starts
    from are as they were, and its result is that of the function on the
    elements of its argument. *)
Lemma mergeDrives_run (drives : Effects.aref) (h : Effects.store) :
  Effects.mergeDrives drives h
  = (DriveAnalyzer.mergeDrives (Effects.elements drives h),
     if (List.length (Effects.elements drives h) =? 0)%nat then h
     else h ++ [sortDrives (Effects.elements drives h)]).
Proof.
  unfold Effects.mergeDrives, Effects.bind, Effects.contents,
    DriveAnalyzer.mergeDrives.
  destruct (List.length (Effects.elements drives h) =? 0)%nat; [reflexivity|].
  unfold Effects.spread, Effects.sortInPlace, Effects.lift.
  pose proof (elements_app_right h [Effects.elements drives h] 0%nat) as E.
  rewrite Nat.add_0_r in E. rewrite E.
  change (Effects.elements 0%nat [Effects.elements drives h])
    with (Effects.elements drives h).
  rewrite update_app_right.
  pose proof (elements_app_right h [sortDrives (Effects.elements drives h)]
                                 0%nat) as E'.
  rewrite Nat.add_0_r in E'. rewrite E'. reflexivity.
Qed.

Lemma mergeDrives_frame (drives r : Effects.aref) (h : Effects.store) :
  (r < List.length h)%nat ->
  Effects.elements r (snd (Effects.mergeDrives drives h))
  = Effects.elements r h.
Proof.
  intro L. rewrite mergeDrives_run. cbn [snd].
  destruct (List.length (Effects.elements drives h) =? 0)%nat; [reflexivity|].
  now apply elements_app_left.
Qed.

(** [analyzeEfficiencyTrends] sorts the array it is given: with five
    drives or more the caller's array holds the sorted drives
    afterwards. *)
Lemma analyzeEfficiencyTrends_run
    (summarize : list TessieDrive ->
                 list EfficiencyAnalyzer.EfficiencyDataPoint ->
                 EfficiencyAnalyzer.EfficiencyAnalysis)
    (drives : Effects.aref) (h : Effects.store) :
  Effects.analyzeEfficiencyTrends summarize drives h
  = (Ok (EfficiencyAnalyzer.analyzeEfficiencyTrends
           summarize (Effects.elements drives h)),
     if (List.length (Effects.elements drives h) <? 5)%nat then h
     else Effects.update drives (sortDrives (Effects.elements drives h)) h).
Proof.
  unfold Effects.analyzeEfficiencyTrends, Effects.bind, Effects.contents,
    EfficiencyAnalyzer.analyzeEfficiencyTrends.
  destruct (List.length (Effects.elements drives h) <? 5)%nat eqn:L;
    [reflexivity|].
  unfold Effects.sortInPlace, Effects.ret.
  rewrite elements_update_same; [reflexivity|].
  apply elements_valid. intro E. rewrite E in L. discriminate L.
Qed.

(** *** Grouping in the store *)

Lemma pushDrive_run (k : string) (d : TessieDrive)
    (groups : list (string * list TessieDrive)) :
  forall A : Effects.store,
    Effects.pushDrive k d (refsFrom (List.length A) groups)
                      (A ++ map snd groups)
    = (Ok (refsFrom (List.length A) (CommuteAnalyzer.pushDrive k d groups)),
       A ++ map snd (CommuteAnalyzer.pushDrive k d groups)).
Proof.
  induction groups as [|[k0 ds0] rest IH]; intro A.
  - cbn [refsFrom map Effects.pushDrive CommuteAnalyzer.pushDrive snd].
    unfold Effects.bind, Effects.newArray, Effects.push, Effects.ret.
    rewrite !app_nil_r.
    pose proof (elements_app_right A [[]] 0%nat) as E.
    rewrite Nat.add_0_r in E. rewrite E.
    now rewrite update_app_right.
  - cbn [refsFrom map Effects.pushDrive CommuteAnalyzer.pushDrive snd].
    destruct (String.eqb k0 k).
    + unfold Effects.bind, Effects.push, Effects.ret.
      pose proof (elements_app_right A (ds0 :: map snd rest) 0%nat) as E.
      rewrite Nat.add_0_r in E. rewrite E.
      now rewrite update_app_right.
    + unfold Effects.bind.
      specialize (IH (A ++ [ds0])).
      rewrite length_app, Nat.add_1_r, <- app_assoc in IH.
      cbn [app] in IH. rewrite IH.
      unfold Effects.ret. cbn [refsFrom map snd].
      now rewrite <- app_assoc.
Qed.

Lemma groupLoop_run (ds : list TessieDrive) (h : Effects.store) :
  forall groups,
    Effects.groupLoop ds (refsFrom (List.length h) groups)
                      (h ++ map snd groups)
    = (let groups' :=
         fold_left
           (fun routes drive =>
              CommuteAnalyzer.pushDrive
                (CommuteAnalyzer.generateRouteId (starting_location drive)
                                                 (ending_location drive))
                drive routes)
           ds groups in
       (Ok (refsFrom (List.length h) groups'), h ++ map snd groups')).
Proof.
  induction ds as [|d ds IH]; intro groups; [reflexivity|].
  cbn [Effects.groupLoop fold_left]. unfold Effects.bind.
  rewrite pushDrive_run. apply IH.
Qed.

Lemma groupDrivesByRoute_run (drives : Effects.aref) (h : Effects.store) :
  let groups := CommuteAnalyzer.groupDrivesByRoute (Effects.elements drives h) in
  Effects.groupDrivesByRoute drives h
  = (Ok (refsFrom (List.length h) groups), h ++ map snd groups).
Proof.
  unfold Effects.groupDrivesByRoute, Effects.bind, Effects.contents.
  pose proof (groupLoop_run (Effects.elements drives h) h []) as R.
  cbn [refsFrom map] in R. rewrite app_nil_r in R. exact R.
Qed.

Lemma frequentGroups_run (groups : list (string * Effects.aref))
    (h : Effects.store) :
  Effects.frequentGroups groups h
  = (Ok (filter (fun g => CommuteAnalyzer.frequentEnough (deref h g)) groups),
     h).
Proof.
  induction groups as [|g gs IH]; [reflexivity|].
  cbn [Effects.frequentGroups filter].
  unfold Effects.bind, Effects.contents. rewrite IH.
  unfold Effects.ret, CommuteAnalyzer.frequentEnough, deref. cbn [snd].
  now destruct (CommuteAnalyzer.MIN_ROUTE_FREQUENCY
                <=? List.length (Effects.elements (snd g) h))%nat.
Qed.

(** Reading the groups back gives the groups. *)
Lemma deref_refsFrom (A : Effects.store)
    (groups : list (string * list TessieDrive)) :
  forall ext,
    map (deref (A ++ map snd groups ++ ext))
        (refsFrom (List.length A) groups)
    = groups.
Proof.
  revert A. induction groups as [|[k ds] rest IH]; intros A ext;
    [reflexivity|].
  cbn [refsFrom map snd]. f_equal.
  - unfold deref. cbn [fst snd]. f_equal.
    pose proof (elements_app_right A ((ds :: map snd rest) ++ ext) 0%nat) as E.
    rewrite Nat.add_0_r in E. exact E.
  - specialize (IH (A ++ [ds]) ext).
    rewrite length_app, Nat.add_1_r, <- app_assoc in IH. exact IH.
Qed.

Lemma refsFrom_bounds (groups : list (string * list TessieDrive)) :
  forall base g,
    In g (refsFrom base groups) ->
    (base <= snd g < base + List.length groups)%nat.
Proof.
  induction groups as [|[k ds] rest IH]; intros base g I; [destruct I|].
  cbn [refsFrom] in I. destruct I as [<-|I].
  - simpl. lia.
  - apply IH in I. simpl. lia.
Qed.

Lemma refsFrom_NoDup (groups : list (string * list TessieDrive)) :
  forall base, NoDup (map snd (refsFrom base groups)).
Proof.
  induction groups as [|[k ds] rest IH]; intro base; [constructor|].
  cbn [refsFrom map snd]. constructor; [|apply IH].
  intro I. apply in_map_iff in I. destruct I as (g & E & I).
  apply refsFrom_bounds in I. lia.
Qed.

(** *** Routes in the store *)

Lemma onlyWrites_refl (g : Effects.aref) (h : Effects.store) :
  onlyWrites g h h.
Proof. now split. Qed.

Lemma onlyWrites_update (g : Effects.aref) (l : list TessieDrive)
    (h : Effects.store) :
  onlyWrites g h (Effects.update g l h).
Proof.
  split; [apply update_length|].
  intros r N. apply elements_update_other. congruence.
Qed.

Lemma onlyWrites_trans (g : Effects.aref) (h1 h2 h3 : Effects.store) :
  onlyWrites g h1 h2 -> onlyWrites g h2 h3 -> onlyWrites g h1 h3.
Proof.
  intros [L1 F1] [L2 F2]. split; [congruence|].
  intros r N. rewrite (F2 r N). now apply F1.
Qed.

Lemma calculateEfficiencyTrend_run (g : Effects.aref) (h : Effects.store) :
  exists h',
    Effects.calculateEfficiencyTrend g h
    = (Ok (CommuteAnalyzer.calculateEfficiencyTrend (Effects.elements g h)), h')
    /\ Effects.elements g h'
       = CommuteAnalyzer.afterTrend (Effects.elements g h)
    /\ onlyWrites g h h'.
Proof.
  unfold Effects.calculateEfficiencyTrend, Effects.bind, Effects.contents,
    CommuteAnalyzer.calculateEfficiencyTrend, CommuteAnalyzer.afterTrend.
  destruct (List.length (Effects.elements g h) <? 6)%nat eqn:L.
  - exists h. repeat split.
  - unfold Effects.sortInPlace, Effects.ret.
    assert (V : (g < List.length h)%nat).
    { apply elements_valid. intro E. rewrite E in L. discriminate L. }
    rewrite (elements_update_same _ _ _ V), sortDrives_length.
    eexists. split; [reflexivity|]. split.
    + now apply elements_update_same.
    + apply onlyWrites_update.
Qed.

Lemma calculateWeeklyFrequency_run (g : Effects.aref) (h : Effects.store) :
  exists h',
    Effects.calculateWeeklyFrequency g h
    = (Ok (CommuteAnalyzer.calculateWeeklyFrequency (Effects.elements g h)), h')
    /\ onlyWrites g h h'.
Proof.
  unfold Effects.calculateWeeklyFrequency, Effects.bind, Effects.contents,
    CommuteAnalyzer.calculateWeeklyFrequency.
  destruct (List.length (Effects.elements g h) =? 0)%nat eqn:L.
  - exists h. split; [reflexivity|apply onlyWrites_refl].
  - unfold Effects.sortInPlace, Effects.ret.
    assert (V : (g < List.length h)%nat).
    { apply elements_valid. intro E. rewrite E in L. discriminate L. }
    rewrite (elements_update_same _ _ _ V), sortDrives_length.
    eexists. split; [reflexivity|apply onlyWrites_update].
Qed.

Lemma analyzeRoute_run (k : string) (g : Effects.aref) (h : Effects.store) :
  exists h',
    Effects.analyzeRoute (k, g) h
    = (CommuteAnalyzer.analyzeRoute (k, Effects.elements g h), h')
    /\ onlyWrites g h h'.
Proof.
  unfold Effects.analyzeRoute, CommuteAnalyzer.analyzeRoute.
  unfold Effects.bind at 1. unfold Effects.contents at 1.
  unfold Effects.bind at 1.
  destruct (calculateEfficiencyTrend_run g h) as (h1 & E1 & A1 & W1).
  rewrite E1.
  unfold Effects.bind at 1. unfold Effects.contents at 1.
  rewrite A1.
  destruct (CommuteAnalyzer.afterTrend (Effects.elements g h))
    as [|drive0 others] eqn:T.
  - exists h1. split; [reflexivity|exact W1].
  - unfold Effects.bind.
    destruct (calculateWeeklyFrequency_run g h1) as (h2 & E2 & W2).
    rewrite E2, A1. unfold Effects.ret.
    exists h2. split; [reflexivity|].
    now apply (onlyWrites_trans g h h1 h2).
Qed.

Lemma mapRoutes_run (groups : list (string * Effects.aref)) :
  forall h,
    NoDup (map snd groups) ->
    exists h',
      Effects.mapRoutes groups h
      = (CommuteAnalyzer.mapRoutes (map (deref h) groups), h')
      /\ List.length h' = List.length h
      /\ forall r, ~ In r (map snd groups) ->
                   Effects.elements r h' = Effects.elements r h.
Proof.
  induction groups as [|[k g] gs IH]; intros h N.
  - exists h. repeat split.
  - inversion N as [|? ? Ng Ngs]; subst.
    cbn [Effects.mapRoutes CommuteAnalyzer.mapRoutes map].
    unfold Effects.bind at 1.
    destruct (analyzeRoute_run k g h) as (h1 & E1 & L1 & F1).
    rewrite E1. unfold deref at 1. cbn [fst snd].
    destruct (CommuteAnalyzer.analyzeRoute (k, Effects.elements g h))
      as [route|msg].
    + destruct (IH h1 Ngs) as (h2 & E2 & L2 & F2).
      assert (D : map (deref h1) gs = map (deref h) gs).
      { apply map_ext_in. intros [k' g'] I. unfold deref. cbn [fst snd].
        f_equal. apply F1. intro E. subst g'.
        apply Ng. now apply (in_map snd) in I. }
      unfold Effects.bind. rewrite E2, D. cbn [JS.bind].
      exists h2. split.
      * now destruct (CommuteAnalyzer.mapRoutes (map (deref h) gs)).
      * split; [congruence|].
        intros r NI. cbn [map snd] in NI.
        rewrite F2 by (intro I; apply NI; now right).
        apply F1. intro E. apply NI. now left.
    + exists h1. split; [reflexivity|]. split; [exact L1|].
      intros r NI. apply F1. intro E. apply NI. now left.
Qed.

Lemma map_filter_comm {A B : Type} (f : A -> B) (p : B -> bool) (l : list A) :
  map f (filter (fun x => p (f x)) l) = filter p (map f l).
Proof.
  induction l as [|a l IH]; simpl; [reflexivity|].
  destruct (p (f a)); simpl; now rewrite IH.
Qed.

(** [analyzeCommutes] builds its groups in arrays of its own and sorts
    only those: the arrays of the store it starts from are as they were,
    and its result is that of the function on the elements of its
    argument. *)
Lemma analyzeCommutes_run (drives : Effects.aref) (h : Effects.store) :
  exists h',
    Effects.analyzeCommutes drives h
    = (CommuteAnalyzer.analyzeCommutes (Effects.elements drives h), h')
    /\ forall r, (r < List.length h)%nat ->
                 Effects.elements r h' = Effects.elements r h.
Proof.
  unfold Effects.analyzeCommutes, CommuteAnalyzer.analyzeCommutes.
  unfold Effects.bind at 1. unfold Effects.contents at 1.
  destruct (List.length (Effects.elements drives h) <? 10)%nat.
  - exists h. now split.
  - set (G := CommuteAnalyzer.groupDrivesByRoute (Effects.elements drives h)).
    set (H := h ++ map snd G).
    unfold Effects.bind at 1. rewrite groupDrivesByRoute_run. fold G H.
    unfold Effects.bind at 1. rewrite frequentGroups_run.
    set (F := filter (fun g => CommuteAnalyzer.frequentEnough (deref H g))
                     (refsFrom (List.length h) G)).
    assert (N : NoDup (map snd F))
      by (apply NoDup_map_filter, refsFrom_NoDup).
    destruct (mapRoutes_run F H N) as (h' & E & _ & Fr).
    assert (D : map (deref H) F = filter CommuteAnalyzer.frequentEnough G).
    { unfold F. rewrite map_filter_comm. f_equal.
      pose proof (deref_refsFrom h G []) as R.
      rewrite app_nil_r in R. exact R. }
    unfold Effects.bind. rewrite E, D.
    exists h'. split.
    + now destruct (CommuteAnalyzer.mapRoutes
                      (filter CommuteAnalyzer.frequentEnough G)).
    + intros r L. rewrite Fr.
      * unfold H. now apply elements_app_left.
      * intro I. apply in_map_iff in I. destruct I as (g & Eg & I).
        unfold F in I. apply filter_In in I. destruct I as [I _].
        apply refsFrom_bounds in I. lia.
Qed.

(** Two calls of [mergeDrives] on the same array, one after the other:
    both return what the function returns on its elements. *)
Lemma mergeDrives_twice (r : Effects.aref) (h : Effects.store) :
  exists h1 h2,
    Effects.mergeDrives r h
    = (DriveAnalyzer.mergeDrives (Effects.elements r h), h1)
    /\ Effects.mergeDrives r h1
       = (DriveAnalyzer.mergeDrives (Effects.elements r h), h2).
Proof.
  exists (snd (Effects.mergeDrives r h)).
  exists (snd (Effects.mergeDrives r (snd (Effects.mergeDrives r h)))).
  assert (E : Effects.elements r (snd (Effects.mergeDrives r h))
              = Effects.elements r h).
  { rewrite mergeDrives_run. cbn [snd].
    destruct (List.length (Effects.elements r h) =? 0)%nat eqn:L;
      [reflexivity|].
    apply elements_app_left, elements_valid.
    intro N. rewrite N in L. discriminate L. }
  split.
  - now rewrite mergeDrives_run.
  - rewrite (mergeDrives_run r (snd (Effects.mergeDrives r h))), E.
    reflexivity.
Qed.

(** C8 (as amended).  Calling [mergeDrives] twice on the same array gives
    the same output both times, and when no two drives start at the same
    time the output does not depend on the order of the input: the
    reversed input, and any rearrangement, gives the same output. *)
Theorem mergeDrives_order_independent (drives : list TessieDrive) :
  (forall r h,
      Effects.elements r h = drives ->
      exists h1 h2,
        Effects.mergeDrives r h = (mergeDrives drives, h1)
        /\ Effects.mergeDrives r h1 = (mergeDrives drives, h2))
  /\ (distinctStarts drives ->
      mergeDrives (rev drives) = mergeDrives drives
      /\ forall drives', Permutation drives drives' ->
                         mergeDrives drives' = mergeDrives drives).
Proof.
  split.
  - intros r h <-. apply mergeDrives_twice.
  - intro D.
    assert (G : forall drives', Permutation drives drives' ->
                                mergeDrives drives' = mergeDrives drives).
    { intros drives' P. rewrite !mergeDrives_segments.
      now rewrite (sortDrives_perm_invariant drives drives' P D). }
    split; [|exact G].
    apply G, Permutation_rev.
Qed.

Lemma mergeDrives_order_independent_witness :
  mergeDrives (rev Sample.morning) = mergeDrives Sample.morning.
Proof.
  refine (proj1 (proj2 (mergeDrives_order_independent Sample.morning) _)).
  simpl. repeat (split || constructor); intro H; discriminate H.
Defined.

(** C7 fails on the code.  [analyzeEfficiencyTrends] sorts the array it
    is given: called on the five drives of [Sample.latestFirst] it leaves
    the caller's array in the opposite order.  [mergeDrives] (which sorts
    a copy) and [analyzeCommutes] (which sorts arrays of its own) leave
    every array of the caller as it was. *)
Theorem analyzeEfficiencyTrends_sorts_caller_array
    (summarize : list TessieDrive ->
                 list EfficiencyAnalyzer.EfficiencyDataPoint ->
                 EfficiencyAnalyzer.EfficiencyAnalysis) :
  let h := [Sample.latestFirst] in
  let h' := snd (Effects.analyzeEfficiencyTrends summarize 0%nat h) in
  Effects.elements 0%nat h = Sample.latestFirst
  /\ Effects.elements 0%nat h' = rev Sample.latestFirst
  /\ Effects.elements 0%nat h' <> Effects.elements 0%nat h
  /\ (forall drives h0,
        (5 <= List.length (Effects.elements drives h0))%nat ->
        Effects.elements drives
          (snd (Effects.analyzeEfficiencyTrends summarize drives h0))
        = sortDrives (Effects.elements drives h0))
  /\ (forall drives r h0,
        (r < List.length h0)%nat ->
        Effects.elements r (snd (Effects.mergeDrives drives h0))
        = Effects.elements r h0)
  /\ (forall drives r h0,
        (r < List.length h0)%nat ->
        Effects.elements r (snd (Effects.analyzeCommutes drives h0))
        = Effects.elements r h0).
Proof.
  intros h h'. subst h h'.
  split; [reflexivity|]. split; [|split; [|split; [|split]]].
  - rewrite analyzeEfficiencyTrends_run. reflexivity.
  - rewrite analyzeEfficiencyTrends_run. intro E.
    apply (f_equal (fun l => map id l)) in E. vm_compute in E. discriminate E.
  - intros drives h0 L. rewrite analyzeEfficiencyTrends_run. cbn [snd].
    replace (List.length (Effects.elements drives h0) <? 5)%nat with false
      by (symmetry; apply Nat.ltb_ge; exact L).
    apply elements_update_same, elements_valid.
    intro E. rewrite E in L. simpl in L. lia.
  - intros drives r h0 L. now apply mergeDrives_frame.
  - intros drives r h0 L.
    destruct (analyzeCommutes_run drives h0) as (h1 & E & F).
    rewrite E. cbn [snd]. now apply F.
Qed.

(* ================================================================== *)
(** * Further properties *)

(** ** Rounding *)

Lemma Math_round_mono (x y : Q) : x <= y -> (Math_round x <= Math_round y)%Z.
Proof.
  intro H. unfold Math_round. apply Qfloor_resp_le. lra.
Qed.

Lemma round2_mono (x y : Q) : x <= y -> round2 x <= round2 y.
Proof.
  intro H. unfold round2.
  assert (M : (Math_round (x * 100) <= Math_round (y * 100))%Z)
    by (apply Math_round_mono; lra).
  rewrite Zle_Qle in M.
  apply Qle_shift_div_l; [reflexivity|].
  setoid_replace (inject_Z (Math_round (x * 100)) / 100 * 100)
    with (inject_Z (Math_round (x * 100))) by field.
  exact M.
Qed.

(** [round2] moves a number by half a hundredth at most. *)
Lemma round2_upper (x : Q) : round2 x <= x + (1 # 200).
Proof.
  unfold round2, Math_round.
  pose proof (Qfloor_le (x * 100 + (1 # 2))) as F.
  apply Qle_shift_div_r; [reflexivity|]. lra.
Qed.

Lemma round2_lower (x : Q) : x - (1 # 200) < round2 x.
Proof.
  unfold round2, Math_round.
  pose proof (Qlt_floor (x * 100 + (1 # 2))) as F.
  rewrite inject_Z_plus in F. change (inject_Z 1) with 1 in F.
  apply Qlt_shift_div_l; [reflexivity|]. lra.
Qed.

Lemma round2_whole (z : Z) : round2 (inject_Z z) == inject_Z z.
Proof.
  apply (round2_hundredths (100 * z)).
  rewrite inject_Z_mult. change (inject_Z 100) with 100. field.
Qed.

Lemma Math_min_spec (a b : Q) :
  Math_min a b <= a /\ Math_min a b <= b
  /\ (Math_min a b = a \/ Math_min a b = b).
Proof.
  unfold Math_min. destruct (ltb b a) eqn:E.
  - apply ltb_lt in E. repeat split; try lra. now right.
  - apply ltb_ge in E. repeat split; try lra. now left.
Qed.

Lemma Math_max_spec (a b : Q) :
  a <= Math_max a b /\ b <= Math_max a b
  /\ (Math_max a b = a \/ Math_max a b = b).
Proof.
  unfold Math_max. destruct (ltb a b) eqn:E.
  - apply ltb_lt in E. repeat split; try lra. now right.
  - apply ltb_ge in E. repeat split; try lra. now left.
Qed.

(** ** The autopilot estimate *)

Lemma calculateSpeedConsistency_values (a m : Q) :
  let c := calculateSpeedConsistency a m in
  (c = 0 /\ (a == 0 \/ m == 0))
  \/ (~ a == 0 /\ ~ m == 0
      /\ (c = 1 \/ c = 0.8 \/ c = 0.6 \/ c = 0.4 \/ c = 0.2)).
Proof.
  unfold calculateSpeedConsistency.
  destruct (eqb a 0) eqn:A; [left; apply eqb_eq in A; auto|].
  destruct (eqb m 0) eqn:M; [left; apply eqb_eq in M; auto|].
  apply eqb_neq in A. apply eqb_neq in M. right. cbn [orb].
  repeat split; try assumption.
  destruct (gtb (a / m) 0.85); [tauto|].
  destruct (gtb (a / m) 0.75); [tauto|].
  destruct (gtb (a / m) 0.65); [tauto|].
  destruct (gtb (a / m) 0.55); tauto.
Qed.

(** X1. The speed-consistency score lies between 0 and 1; it is 0
    exactly when the average or the maximum speed is 0 (a division by a
    zero maximum speed never happens), and at least 0.2 otherwise. *)
Theorem calculateSpeedConsistency_range (a m : Q) :
  0 <= calculateSpeedConsistency a m <= 1
  /\ (calculateSpeedConsistency a m == 0 <-> a == 0 \/ m == 0)
  /\ (~ a == 0 -> ~ m == 0 -> 0.2 <= calculateSpeedConsistency a m).
Proof.
  destruct (calculateSpeedConsistency_values a m) as [[E Z]|(A & M & V)].
  - rewrite E. repeat split; try lra; try tauto.
  - repeat split.
    + destruct V as [E|[E|[E|[E|E]]]]; rewrite E; lra.
    + destruct V as [E|[E|[E|[E|E]]]]; rewrite E; lra.
    + intro Z. exfalso.
      destruct V as [E|[E|[E|[E|E]]]]; rewrite E in Z; discriminate Z.
    + intros [Z|Z]; contradiction.
    + intros _ _. destruct V as [E|[E|[E|[E|E]]]]; rewrite E; lra.
Qed.

(** The likelihood that multiplies the distance lies in [0, 0.9]. *)
Lemma predictAutopilotUsage_form (d a m t : Q) :
  predictAutopilotUsage d a m t = 0
  \/ exists l, 0 <= l <= 0.9 /\ 5 <= d
               /\ predictAutopilotUsage d a m t = round2 (d * l).
Proof.
  unfold predictAutopilotUsage.
  destruct (ltb d 5) eqn:D; [now left|]. apply ltb_ge in D. right.
  assert (C : 0 <= calculateSpeedConsistency a m <= 1).
  { destruct (calculateSpeedConsistency_values a m)
      as [[E _]|(_ & _ & [E|[E|[E|[E|E]]]])]; rewrite E; split; lra. }
  destruct C as [C0 C1].
  set (c := calculateSpeedConsistency a m) in *.
  set (l1 := if gtb a 45 then 0 + 0.4 else if gtb a 35 then 0 + 0.2 else 0).
  assert (H1 : 0 <= l1)
    by (unfold l1; destruct (gtb a 45); [lra|]; destruct (gtb a 35); lra).
  set (l2 := if gtb d 30 then l1 + 0.3 else if gtb d 15 then l1 + 0.2
             else if gtb d 10 then l1 + 0.1 else l1).
  assert (H2 : 0 <= l2).
  { unfold l2. destruct (gtb d 30); [lra|]. destruct (gtb d 15); [lra|].
    destruct (gtb d 10); lra. }
  set (l4 := if gtb (d / (t / 60)) 50 && gtb t 30
             then l2 + c * 0.2 + 0.1 else l2 + c * 0.2).
  assert (H4 : 0 <= l4)
    by (unfold l4; destruct (gtb (d / (t / 60)) 50 && gtb t 30); nra).
  exists (Math_min l4 0.9). split; [|split; [exact D|reflexivity]].
  destruct (Math_min_spec l4 0.9) as (_ & U & [E|E]); rewrite E in *; lra.
Qed.

(** X2. The predicted autopilot miles are never negative, are 0 for a
    drive under 5 miles, and exceed nine tenths of the distance by at
    most the half hundredth of the rounding. *)
Theorem predictAutopilotUsage_bounds (d a m t : Q) :
  0 <= predictAutopilotUsage d a m t
  /\ (d < 5 -> predictAutopilotUsage d a m t = 0)
  /\ (0 <= d -> predictAutopilotUsage d a m t <= 0.9 * d + (1 # 200)).
Proof.
  split; [|split].
  - destruct (predictAutopilotUsage_form d a m t) as [->|(l & L & D & ->)];
      [lra|].
    apply round2_nonneg. nra.
  - intro D. unfold predictAutopilotUsage.
    apply ltb_lt in D. now rewrite D.
  - intro D.
    destruct (predictAutopilotUsage_form d a m t) as [->|(l & L & _ & ->)];
      [lra|].
    pose proof (round2_upper (d * l)). nra.
Qed.

Lemma predictAutopilotUsage_bounds_witness :
  predictAutopilotUsage 3 30 45 10 = 0
  /\ predictAutopilotUsage 40 60 65 40 <= 0.9 * 40 + (1 # 200).
Proof.
  destruct (predictAutopilotUsage_bounds 3 30 45 10) as (_ & S & _).
  destruct (predictAutopilotUsage_bounds 40 60 65 40) as (_ & _ & U).
  split; [apply S; reflexivity | apply U; discriminate].
Defined.

Lemma calculateSpeedConsistency_range_witness :
  0.2 <= calculateSpeedConsistency 30 45.
Proof.
  destruct (calculateSpeedConsistency_range 30 45) as (_ & _ & L).
  apply L; intro H; discriminate H.
Defined.

(** ** Stops and durations of merged drives *)

Lemma chained_snoc (g : list TessieDrive) :
  forall f d,
    chained (f :: g) ->
    shouldMergeDrives (last g f) d (gapMinutes (last g f) d) = true ->
    chained (f :: g ++ [d]).
Proof.
  induction g as [|a g IH]; intros f d C M.
  - simpl in *. tauto.
  - destruct C as [Cfa Cg]. split; [exact Cfa|].
    apply IH; [exact Cg|]. now rewrite last_cons_default in M.
Qed.

Lemma segments_chained (rest : list TessieDrive) :
  forall prev f os,
    prev = last os f -> chained (f :: os) ->
    Forall (fun g => chained (members g)) (segments prev rest f os).
Proof.
  induction rest as [|d rest IH]; intros prev f os P C; cbn [segments].
  - constructor; [exact C|constructor].
  - destruct (shouldMergeDrives prev d (gapMinutes prev d)) eqn:M.
    + apply IH; [now rewrite last_last|].
      apply chained_snoc; [exact C|]. now rewrite <- P.
    + constructor; [exact C|]. apply IH; [reflexivity|exact I].
Qed.

Lemma collectStops_step (a b : TessieDrive) (g : list TessieDrive) :
  collectStops (a :: b :: g) = (stopBetween a b ++ collectStops (b :: g))%list.
Proof. reflexivity. Qed.

Lemma collectStops_proper (g : list TessieDrive) :
  chained g -> Forall properStop (collectStops g).
Proof.
  induction g as [|a g IH]; [constructor|].
  destruct g as [|b g]; [constructor|].
  intros [M C]. rewrite collectStops_step.
  apply Forall_app. split; [|now apply IH].
  unfold stopBetween.
  destruct (gtb ((started_at b - ended_at a) / 60) 0) eqn:G; [|constructor].
  constructor; [|constructor].
  apply gtb_gt in G. apply shouldMergeDrives_spec in M. unfold gapMinutes in M.
  split; cbn [stop_type stop_started_at stop_ended_at].
  - destruct (gtb (starting_battery b - ending_battery a) 5) eqn:B;
      [discriminate|].
    apply gtb_le in B.
    destruct (ltb ((started_at b - ended_at a) / 60) 7) eqn:S;
      [discriminate|].
    apply ltb_ge in S. exfalso. destruct M; lra.
  - assert (K : (started_at b - ended_at a) / 60 * 60
                == started_at b - ended_at a) by field.
    nra.
Qed.

Lemma collectStops_length (g : list TessieDrive) :
  (List.length (collectStops g) <= List.length g - 1)%nat.
Proof.
  induction g as [|a g IH]; [simpl; lia|].
  destruct g as [|b g]; [simpl; lia|].
  rewrite collectStops_step, length_app.
  assert (H : (List.length (stopBetween a b) <= 1)%nat)
    by (unfold stopBetween;
        destruct (gtb ((started_at b - ended_at a) / 60) 0); simpl; lia).
  change (List.length (a :: b :: g)) with (S (List.length (b :: g))).
  change (List.length (b :: g)) with (S (List.length g)) in *.
  lia.
Qed.

(** X3. No merged drive has a stop of type [excluded]: every recorded
    stop is short or charging, over a gap of positive length, and a
    merged drive of n drives has at most n - 1 stops. *)
Theorem mergeDrives_stops_proper (drives : list TessieDrive)
    (out : list MergedDrive) :
  mergeDrives drives = Ok out ->
  Forall (fun m =>
            Forall properStop (stops m)
            /\ (List.length (stops m) < List.length (originalDriveIds m))%nat)
         out.
Proof.
  rewrite mergeDrives_segments. intro E. injection E as <-.
  destruct (sortDrives drives) as [|f rest]; [constructor|].
  pose proof (segments_chained rest f f [] eq_refl I) as C.
  apply Forall_map. eapply Forall_impl; [|exact C].
  intros [g os] Cg. split.
  - now apply collectStops_proper.
  - pose proof (collectStops_length (g :: os)) as L.
    change (stops (mergedOf (g, os))) with (collectStops (g :: os)).
    change (originalDriveIds (mergedOf (g, os))) with (map id (g :: os)).
    rewrite length_map. simpl in *. lia.
Qed.

Lemma mergeDrives_stops_proper_witness :
  exists out,
    mergeDrives Sample.morning = Ok out
    /\ Forall (fun m => Forall properStop (stops m)) out.
Proof.
  eexists. split; [reflexivity|].
  eapply Forall_impl;
    [|exact (mergeDrives_stops_proper Sample.morning _ eq_refl)].
  intros m [P _]. exact P.
Defined.

Lemma sorted_blocks {A : Type} (R : A -> A -> Prop) (blocks : list (list A)) :
  StronglySorted R (List.concat blocks) -> Forall (StronglySorted R) blocks.
Proof.
  induction blocks as [|b bs IH]; [constructor|].
  cbn [List.concat]. intro S.
  assert (P : StronglySorted R b /\ StronglySorted R (List.concat bs)).
  { clear IH. induction b as [|x b IHb]; [split; [constructor|exact S]|].
    inversion S as [|? ? S' F]; subst.
    destruct (IHb S') as [Sb Sc]. split; [|exact Sc].
    constructor; [exact Sb|].
    apply Forall_app in F. tauto. }
  destruct P as [Sb Sc]. constructor; [exact Sb|now apply IH].
Qed.

Lemma sorted_before_last {A : Type} (R : A -> A -> Prop) (l : list A) (x : A) :
  StronglySorted R (l ++ [x]) -> Forall (fun y => R y x) l.
Proof.
  induction l as [|a l IH]; [constructor|].
  intro S. inversion S as [|? ? S' F]; subst.
  constructor; [|now apply IH].
  apply Forall_app in F. destruct F as [_ F]. now inversion F.
Qed.

Lemma segments_length (rest : list TessieDrive) :
  forall prev f os,
    (1 <= List.length (segments prev rest f os) <= S (List.length rest))%nat.
Proof.
  induction rest as [|d rest IH]; intros prev f os; cbn [segments].
  - simpl. lia.
  - destruct (shouldMergeDrives prev d (gapMinutes prev d)).
    + specialize (IH d f (os ++ [d])%list). simpl. lia.
    + specialize (IH d d []). simpl. lia.
Qed.

Lemma segments_sorted_groups (f : TessieDrive) (rest : list TessieDrive) :
  StronglySorted startLe (f :: rest) ->
  Forall (fun g => StronglySorted startLe (members g)) (segments f rest f []).
Proof.
  intro S. change (f :: rest) with (f :: [] ++ rest)%list in S.
  rewrite <- (segments_concat rest f f []) in S.
  apply sorted_blocks in S. now rewrite Forall_map in S.
Qed.

Lemma segments_members_in (f : TessieDrive) (rest : list TessieDrive)
    (g : TessieDrive * list TessieDrive) (d : TessieDrive) :
  In g (segments f rest f []) -> In d (members g) -> In d (f :: rest).
Proof.
  intros G D.
  change (f :: rest) with (f :: [] ++ rest)%list.
  rewrite <- (segments_concat rest f f []).
  apply in_concat. exists (members g). split; [|exact D].
  now apply in_map.
Qed.

Lemma drivingDuration_nonneg (l : list TessieDrive) :
  forall acc,
    Forall well_formed l -> 0 <= acc ->
    0 <= fold_left
           (fun sum drive => sum + (ended_at drive - started_at drive) / 60)
           l acc.
Proof.
  induction l as [|d l IH]; intros acc W A; [exact A|].
  inversion W as [|? ? Wd Wl]; subst. cbn [fold_left].
  apply IH; [exact Wl|]. unfold well_formed in Wd.
  assert (0 <= (ended_at d - started_at d) / 60)
    by (apply Qle_shift_div_l; lra).
  lra.
Qed.

Lemma buildMerged_soundTimes (f : TessieDrive) (os : list TessieDrive) :
  Forall well_formed (f :: os) -> StronglySorted startLe (f :: os) ->
  soundTimes (buildMerged f os).
Proof.
  intros W S.
  pose proof (sorted_first_last f os S) as FL.
  assert (WL : well_formed (last os f)).
  { rewrite Forall_forall in W.
    destruct (last_in_or_default os f) as [E|I].
    - rewrite E. apply W. now left.
    - apply W. now right. }
  unfold well_formed in WL.
  unfold soundTimes, buildMerged;
    cbn [m_started_at m_ended_at total_duration_minutes
         driving_duration_minutes].
  repeat split.
  - lra.
  - apply round2_nonneg. apply Qle_shift_div_l; lra.
  - apply round2_nonneg. apply drivingDuration_nonneg; [exact W|lra].
Qed.

(** X4. For drives that end no earlier than they start, every merged
    drive ends no earlier than it starts and has non-negative total and
    driving durations; merging never yields more drives than it was
    given, and yields at least one for a non-empty input. *)
Theorem mergeDrives_sound_times (drives : list TessieDrive)
    (out : list MergedDrive) :
  Forall well_formed drives ->
  mergeDrives drives = Ok out ->
  Forall soundTimes out
  /\ (List.length out <= List.length drives)%nat
  /\ (drives <> [] -> out <> []).
Proof.
  intros W. rewrite mergeDrives_segments. intro E. injection E as <-.
  pose proof (sortDrives_sorted drives) as S.
  pose proof (sortDrives_perm drives) as P.
  pose proof (Permutation_length P) as L.
  destruct (sortDrives drives) as [|f rest] eqn:ES.
  - repeat split; [constructor|simpl; lia|].
    intro N. destruct drives; [congruence|discriminate L].
  - pose proof (segments_length rest f f []) as SL.
    repeat split.
    + apply Forall_map. apply Forall_forall. intros [g os] I.
      pose proof (segments_sorted_groups f rest S) as SG.
      rewrite Forall_forall in SG.
      apply buildMerged_soundTimes; [|exact (SG _ I)].
      apply Forall_forall. intros d D.
      rewrite Forall_forall in W. apply W.
      apply (Permutation_in _ P).
      exact (segments_members_in f rest (g, os) d I D).
    + rewrite length_map. rewrite <- L. simpl. lia.
    + intros _ N. apply (f_equal (@List.length _)) in N.
      rewrite length_map in N. simpl in N. lia.
Qed.

Lemma mergeDrives_sound_times_witness :
  exists out,
    mergeDrives Sample.morning = Ok out /\ Forall soundTimes out.
Proof.
  eexists. split; [reflexivity|].
  refine (proj1 (mergeDrives_sound_times Sample.morning _ _ eq_refl)).
  unfold Sample.morning.
  repeat constructor; unfold well_formed; simpl; discriminate.
Defined.

(** ** The latest merged drive *)

Lemma analyzeLatestDrive_snoc (drives : list TessieDrive)
    (front : list MergedDrive) (m : MergedDrive) :
  drives <> [] ->
  mergeDrives drives = Ok (front ++ [m]) ->
  analyzeLatestDrive drives = Ok (Some (analysisOf m)).
Proof.
  intros N E. unfold analyzeLatestDrive.
  destruct drives as [|d ds]; [congruence|].
  cbn [List.length Nat.eqb]. rewrite E. cbn [bind].
  rewrite rev_app_distr. reflexivity.
Qed.

Lemma members_last (g : TessieDrive * list TessieDrive) :
  members g = (removelast (members g) ++ [last (snd g) (fst g)])%list.
Proof.
  destruct g as [f os]. unfold members. cbn [fst snd].
  rewrite <- (last_cons_default f f os).
  apply app_removelast_last. discriminate.
Qed.

(** X5. [analyzeLatestDrive] returns null exactly for an empty array;
    otherwise it analyses the last merged drive, which starts no earlier
    than any other merged drive and ends with the drive that started
    latest, and its autopilot miles are those of that merged drive. *)
Theorem analyzeLatestDrive_latest (drives : list TessieDrive) :
  (analyzeLatestDrive drives = Ok None <-> drives = [])
  /\ (drives <> [] ->
      exists front m ids latest,
        mergeDrives drives = Ok (front ++ [m])
        /\ analyzeLatestDrive drives = Ok (Some (analysisOf m))
        /\ Forall (fun m' => m_started_at m' <= m_started_at m) front
        /\ In latest drives
        /\ Forall (fun d => startLe d latest) drives
        /\ originalDriveIds m = (ids ++ [id latest])%list
        /\ m_ended_at m = ended_at latest
        /\ total_autopilot_miles (analysisOf m) = autopilot_distance m).
Proof.
  assert (R : drives <> [] ->
      exists front m ids latest,
        mergeDrives drives = Ok (front ++ [m])
        /\ analyzeLatestDrive drives = Ok (Some (analysisOf m))
        /\ Forall (fun m' => m_started_at m' <= m_started_at m) front
        /\ In latest drives
        /\ Forall (fun d => startLe d latest) drives
        /\ originalDriveIds m = (ids ++ [id latest])%list
        /\ m_ended_at m = ended_at latest
        /\ total_autopilot_miles (analysisOf m) = autopilot_distance m).
  { intro N.
    pose proof (sortDrives_sorted drives) as S.
    pose proof (sortDrives_perm drives) as P.
    pose proof (mergeDrives_segments drives) as E.
    destruct (sortDrives drives) as [|f rest] eqn:ES.
    { apply Permutation_nil in P. congruence. }
    pose proof (segments_length rest f f []) as SL.
    pose proof (segments_concat rest f f []) as C.
    assert (HS : StronglySorted (fun a b => startLe (fst a) (fst b))
                                (segments f rest f [])).
    { inversion S; subst. now apply segments_heads_sorted. }
    destruct (exists_last (l := segments f rest f [])) as [gs [g EG]].
    { intro Z. rewrite Z in SL. simpl in SL. lia. }
    rewrite EG in E, C, HS.
    rewrite map_app in E. cbn [map] in E.
    rewrite map_app, concat_app in C. cbn [map List.concat] in C.
    rewrite app_nil_r, (members_last g), app_assoc in C.
    cbn [app] in C.
    set (latest := last (snd g) (fst g)) in *.
    rewrite <- C in S, P.
    exists (map mergedOf gs), (mergedOf g),
           (map id (removelast (members g))), latest.
    split; [exact E|].
    split; [exact (analyzeLatestDrive_snoc drives _ _ N E)|].
    split.
    { apply Forall_map. apply sorted_before_last in HS.
      eapply Forall_impl; [|exact HS]. intros a H. exact H. }
    split.
    { apply (Permutation_in _ P). apply in_or_app. right. now left. }
    split.
    { apply (Permutation_Forall P). apply Forall_app. split.
      - now apply sorted_before_last in S.
      - constructor; [|constructor]. unfold startLe. lra. }
    split.
    { change (originalDriveIds (mergedOf g)) with (map id (members g)).
      rewrite (members_last g) at 1. now rewrite map_app. }
    split; reflexivity. }
  split; [|exact R].
  split.
  - intro E. destruct drives as [|d ds]; [reflexivity|].
    destruct R as (front & m & ids & latest & _ & A & _); [discriminate|].
    rewrite A in E. discriminate.
  - intros ->. reflexivity.
Qed.

(** ** Trip costs *)

Import TripCalculator.

Lemma Math_round_compat (x y : Q) : x == y -> Math_round x = Math_round y.
Proof. intro E. unfold Math_round. now rewrite E. Qed.

Lemma round2_compat (x y : Q) : x == y -> round2 x = round2 y.
Proof.
  intro E. unfold round2. rewrite (Math_round_compat (x * 100) (y * 100)).
  - reflexivity.
  - now rewrite E.
Qed.

Lemma batteryUsed_fold (l : list TessieDrive) :
  forall acc,
    fold_left
      (fun totalUsed drive =>
         if gtb (starting_battery drive - ending_battery drive) 0
         then totalUsed + (starting_battery drive - ending_battery drive)
         else totalUsed)
      l acc
    == acc + sum (map driveUsage l).
Proof.
  induction l as [|d l IH]; intro acc; cbn [fold_left map].
  - unfold sum. simpl. lra.
  - rewrite IH, sum_cons. unfold driveUsage.
    destruct (gtb (starting_battery d - ending_battery d) 0); lra.
Qed.

Lemma driveUsage_bounds (d : TessieDrive) :
  0 <= driveUsage d /\ starting_battery d - ending_battery d <= driveUsage d.
Proof.
  unfold driveUsage.
  destruct (gtb (starting_battery d - ending_battery d) 0) eqn:G.
  - apply gtb_gt in G. lra.
  - apply gtb_le in G. lra.
Qed.

Lemma sum_driveUsage_bounds (l : list TessieDrive) :
  0 <= sum (map driveUsage l)
  /\ sum (map (fun d => starting_battery d - ending_battery d) l)
     <= sum (map driveUsage l).
Proof.
  induction l as [|d l [IH1 IH2]]; cbn [map].
  - unfold sum. simpl. lra.
  - rewrite !sum_cons. pose proof (driveUsage_bounds d). lra.
Qed.

Lemma calculateTotalBatteryUsed_value (l : list TessieDrive) :
  l <> [] ->
  exists v, calculateTotalBatteryUsed l = Ok v /\ v == sum (map driveUsage l).
Proof.
  intro N. destruct l as [|d l]; [congruence|].
  eexists. split; [reflexivity|].
  rewrite batteryUsed_fold. lra.
Qed.

(** X6. On a non-empty array [calculateTotalBatteryUsed] returns a
    total that is not negative, is at least the sum of the per-drive
    battery drops, and does not depend on the order of the drives; on an
    empty array it throws. *)
Theorem calculateTotalBatteryUsed_order (l l' : list TessieDrive) :
  Permutation l l' -> l <> [] ->
  exists v v',
    calculateTotalBatteryUsed l = Ok v
    /\ calculateTotalBatteryUsed l' = Ok v'
    /\ v == v'
    /\ 0 <= v
    /\ sum (map (fun d => starting_battery d - ending_battery d) l) <= v
    /\ (exists msg, calculateTotalBatteryUsed [] = Throw msg).
Proof.
  intros P N.
  assert (N' : l' <> []).
  { intro Z. subst. apply Permutation_sym, Permutation_nil in P. congruence. }
  destruct (calculateTotalBatteryUsed_value l N) as (v & E & V).
  destruct (calculateTotalBatteryUsed_value l' N') as (v' & E' & V').
  pose proof (sum_driveUsage_bounds l) as [B1 B2].
  exists v, v'. repeat split; try assumption.
  - rewrite V, V'. apply sum_perm. now apply Permutation_map.
  - now rewrite V.
  - now rewrite V.
  - eexists. reflexivity.
Qed.

Lemma calculateTotalBatteryUsed_order_witness :
  exists v v',
    calculateTotalBatteryUsed Sample.morning = Ok v
    /\ calculateTotalBatteryUsed (rev Sample.morning) = Ok v'
    /\ v == v'.
Proof.
  destruct (calculateTotalBatteryUsed_order
              Sample.morning (rev Sample.morning))
    as (v & v' & E & E' & V & _).
  - apply Permutation_rev.
  - discriminate.
  - exists v, v'. repeat split; assumption.
Defined.

Lemma round1_nonneg (x : Q) : 0 <= x -> 0 <= round1 x.
Proof.
  intro H. unfold round1.
  assert (0 <= inject_Z (Math_round (x * 10))).
  { change 0 with (inject_Z 0). rewrite <- Zle_Qle.
    apply Math_round_nonneg. nra. }
  apply Qle_shift_div_l; lra.
Qed.

(** Rounding to cents commutes with addition up to one cent. *)
Lemma round2_add_close (a b : Q) :
  - (1 # 100) <= round2 (a + b) - (round2 a + round2 b) <= 1 # 100.
Proof.
  unfold round2, Math_round.
  pose proof (Qfloor_le (a * 100 + (1 # 2))) as La.
  pose proof (Qlt_floor (a * 100 + (1 # 2))) as Ua.
  pose proof (Qfloor_le (b * 100 + (1 # 2))) as Lb.
  pose proof (Qlt_floor (b * 100 + (1 # 2))) as Ub.
  pose proof (Qfloor_le ((a + b) * 100 + (1 # 2))) as Lc.
  pose proof (Qlt_floor ((a + b) * 100 + (1 # 2))) as Uc.
  set (za := Qfloor (a * 100 + (1 # 2))) in *.
  set (zb := Qfloor (b * 100 + (1 # 2))) in *.
  set (zc := Qfloor ((a + b) * 100 + (1 # 2))) in *.
  rewrite inject_Z_plus in Ua, Ub, Uc.
  change (inject_Z 1) with 1 in *.
  assert (H1 : (zc < za + zb + 2)%Z).
  { rewrite Zlt_Qlt, !inject_Z_plus. change (inject_Z 2) with 2. lra. }
  assert (H2 : (za + zb < zc + 2)%Z).
  { rewrite Zlt_Qlt, !inject_Z_plus. change (inject_Z 2) with 2. lra. }
  assert (K1 : (zc <= za + zb + 1)%Z) by lia.
  assert (K2 : (za + zb <= zc + 1)%Z) by lia.
  rewrite Zle_Qle in K1, K2.
  rewrite !inject_Z_plus in K1, K2.
  change (inject_Z 1) with 1 in K1, K2.
  unfold Qdiv. change (/ 100) with (1 # 100). lra.
Qed.

Lemma gapCosts_nonneg (rest : list TessieDrive) :
  forall prev hr sr costs,
    0 <= hr -> 0 <= sr -> 0 <= fst costs -> 0 <= snd costs ->
    0 <= fst (gapCosts prev rest hr sr costs)
    /\ 0 <= snd (gapCosts prev rest hr sr costs).
Proof.
  induction rest as [|d rest IH]; intros prev hr sr [h s] Hr Sr Hh Hs;
    cbn [gapCosts]; [now split|].
  cbn [fst snd] in Hh, Hs.
  destruct (gtb (starting_battery d - ending_battery prev) 2) eqn:G;
    [|now apply IH].
  apply gtb_gt in G.
  assert (E : 0 <= (starting_battery d - ending_battery prev) / 100
                   * BATTERY_CAPACITY_KWH).
  { unfold BATTERY_CAPACITY_KWH, Qdiv. change (/ 100) with (1 # 100). lra. }
  destruct (ltb ((started_at d - ended_at prev) / 3600) 1
            && gtb (starting_battery d - ending_battery prev) 30);
    apply IH; cbn [fst snd]; try assumption; nra.
Qed.

Lemma estimateChargingCosts_nonneg (drives : list TessieDrive)
    (total hr sr : Q) :
  0 < hr -> 0 < sr ->
  0 <= electricityCost (estimateChargingCosts drives total hr sr)
  /\ 0 <= chargingStopsCost (estimateChargingCosts drives total hr sr)
  /\ totalCost (estimateChargingCosts drives total hr sr)
     == electricityCost (estimateChargingCosts drives total hr sr)
        + chargingStopsCost (estimateChargingCosts drives total hr sr).
Proof.
  intros Hr Sr. unfold estimateChargingCosts.
  assert (D : 0 <= fst (detectedCosts drives hr sr)
              /\ 0 <= snd (detectedCosts drives hr sr)).
  { unfold detectedCosts. destruct drives as [|d rest]; [simpl; lra|].
    apply gapCosts_nonneg; simpl; lra. }
  destruct (detectedCosts drives hr sr) as [h s]. cbn [fst snd] in D.
  destruct D as [Hh Hs].
  cbn [electricityCost chargingStopsCost totalCost].
  split; [|split; [exact Hs|reflexivity]].
  destruct (ltb (h / hr + s / sr) (total * 0.5)) eqn:L; [|exact Hh].
  apply ltb_lt in L.
  assert (0 <= h / hr) by (apply Qle_shift_div_l; lra).
  assert (0 <= s / sr) by (apply Qle_shift_div_l; lra).
  nra.
Qed.

Lemma generateChargingStrategy_lines (used : Q) (costs : ChargingCosts) :
  ~ In NoTripData (generateChargingStrategy used costs)
  /\ In (OptimalStartingCharge (Math_round (Math_min 90 (used + 20))))
        (generateChargingStrategy used costs)
  /\ (Math_round (Math_min 90 (used + 20)) <= 90)%Z.
Proof.
  unfold generateChargingStrategy. repeat split.
  - intro I. repeat (apply in_app_or in I; destruct I as [I|I]).
    + destruct (gtb _ 40) in I; simpl in I; intuition discriminate.
    + destruct (ltb used 80) in I; simpl in I; intuition discriminate.
    + simpl in I; intuition discriminate.
    + destruct (gtb _ 0) in I; simpl in I; intuition discriminate.
  - apply in_or_app. right. apply in_or_app. right.
    apply in_or_app. left. now left.
  - rewrite <- (Math_round_integer 90 90) at 2; [|reflexivity].
    apply Math_round_mono. apply Math_min_spec.
Qed.

Lemma sortDrives_nonempty (drives : list TessieDrive) :
  drives <> [] -> sortDrives drives <> [].
Proof.
  intros N Z. apply N. apply length_zero_iff_nil.
  now rewrite <- sortDrives_length, Z.
Qed.

(** X7. [calculateTripCost] never throws.  The savings against a gas
    vehicle, their percentage and the potential savings are always 0,
    [current_cost] repeats [total_cost], the battery, energy and
    environmental figures are never negative, and the strategy holds the
    no-data line exactly for an empty array; otherwise it recommends a
    starting charge of at most 90%. *)
Theorem calculateTripCost_returns (drives : list TessieDrive)
    (homeRate superchargerRate gasPrice : Q) :
  exists a,
    calculateTripCost drives homeRate superchargerRate gasPrice = Ok a
    /\ savings a == 0 /\ savings_percentage a == 0
    /\ potential_savings a == 0
    /\ current_cost a = total_cost a
    /\ 0 <= battery_used_percent a /\ 0 <= energy_used_kwh a
    /\ 0 <= co2_saved_lbs a /\ (0 <= trees_equivalent a)%Z
    /\ (In NoTripData (charging_strategy a) <-> drives = [])
    /\ (drives <> [] ->
        exists p, In (OptimalStartingCharge p) (charging_strategy a)
                  /\ (p <= 90)%Z).
Proof.
  destruct drives as [|d ds].
  - exists emptyAnalysis. split; [reflexivity|].
    cbn. repeat split; try reflexivity; try discriminate; tauto.
  - set (drives := d :: ds).
    destruct (calculateTotalBatteryUsed_value (sortDrives drives))
      as (v & E & V).
    { apply sortDrives_nonempty. discriminate. }
    assert (V0 : 0 <= v).
    { rewrite V. apply sum_driveUsage_bounds. }
    unfold calculateTripCost. change (List.length drives =? 0)%nat with false.
    cbv iota. rewrite E. cbn [bind].
    eexists. split; [reflexivity|].
    cbn [savings savings_percentage potential_savings current_cost total_cost
         battery_used_percent energy_used_kwh co2_saved_lbs trees_equivalent
         charging_strategy].
    pose proof (generateChargingStrategy_lines v
                  (estimateChargingCosts (sortDrives drives)
                     (totalEnergyKwhOf v) homeRate superchargerRate))
      as (G1 & G2 & G3).
    repeat split; try reflexivity.
    + now apply round2_nonneg.
    + apply round2_nonneg. unfold totalEnergyKwhOf, BATTERY_CAPACITY_KWH, Qdiv.
      change (/ 100) with (1 # 100). lra.
    + apply round1_nonneg. apply Math_max_spec.
    + apply Math_round_nonneg. apply Math_max_spec.
    + intro I. now apply G1 in I.
    + discriminate.
    + intros _. eexists. split; [exact G2|exact G3].
Qed.

Lemma calculateTotalDuration_nonneg (drives : list TessieDrive) :
  Forall well_formed drives ->
  0 <= calculateTotalDuration (sortDrives drives).
Proof.
  intro W.
  pose proof (sortDrives_sorted drives) as S.
  assert (W' : Forall well_formed (sortDrives drives)).
  { eapply Permutation_Forall; [|exact W].
    apply Permutation_sym, sortDrives_perm. }
  destruct (sortDrives drives) as [|f rest]; [simpl; lra|].
  cbn [calculateTotalDuration].
  pose proof (sorted_first_last f rest S) as FL.
  assert (WL : well_formed (last rest f)).
  { rewrite Forall_forall in W'.
    destruct (last_in_or_default rest f) as [E|I].
    - rewrite E. apply W'. now left.
    - apply W'. now right. }
  unfold well_formed in WL. apply Qle_shift_div_l; lra.
Qed.

(** X8. With positive rates and drives that end no earlier than they
    start, no cost of the breakdown is negative, the total differs from
    the sum of its two parts by at most one cent, and the duration is
    not negative. *)
Theorem calculateTripCost_breakdown (drives : list TessieDrive)
    (homeRate superchargerRate gasPrice : Q) (a : TripCostAnalysis) :
  0 < homeRate -> 0 < superchargerRate ->
  Forall well_formed drives ->
  calculateTripCost drives homeRate superchargerRate gasPrice = Ok a ->
  0 <= electricity_cost a /\ 0 <= charging_stops_cost a /\ 0 <= total_cost a
  /\ - (1 # 100)
     <= total_cost a - (electricity_cost a + charging_stops_cost a)
     <= 1 # 100
  /\ 0 <= duration_hours a.
Proof.
  intros Hr Sr W E.
  destruct drives as [|d ds] eqn:ED.
  - injection E as <-. cbn. repeat split; lra.
  - rewrite <- ED in *.
    assert (L0 : (List.length drives =? 0)%nat = false) by now rewrite ED.
    destruct (calculateTotalBatteryUsed_value (sortDrives drives))
      as (v & B & _).
    { apply sortDrives_nonempty. congruence. }
    unfold calculateTripCost in E.
    rewrite L0, B in E. cbn [bind] in E.
    injection E as <-.
    cbn [electricity_cost charging_stops_cost total_cost duration_hours].
    pose proof (estimateChargingCosts_nonneg (sortDrives drives)
                  (totalEnergyKwhOf v) homeRate superchargerRate Hr Sr)
      as (C1 & C2 & C3).
    set (c := estimateChargingCosts (sortDrives drives)
                (totalEnergyKwhOf v) homeRate superchargerRate) in *.
    rewrite (round2_compat _ _ C3).
    pose proof (round2_add_close (electricityCost c) (chargingStopsCost c)).
    pose proof (round2_nonneg _ C1). pose proof (round2_nonneg _ C2).
    repeat split; try assumption; try tauto.
    + apply round2_nonneg. lra.
    + apply round2_nonneg. now apply calculateTotalDuration_nonneg.
Qed.

Lemma calculateTripCost_breakdown_witness :
  exists a,
    calculateTripCost Sample.morning 0.13 0.28 4.5 = Ok a
    /\ 0 <= total_cost a.
Proof.
  eexists. split; [reflexivity|].
  refine (proj1 (proj2 (proj2
    (calculateTripCost_breakdown Sample.morning 0.13 0.28 4.5 _ _ _ _
       eq_refl)))).
  - reflexivity.
  - reflexivity.
  - unfold Sample.morning.
    repeat constructor; unfold well_formed; simpl; discriminate.
Defined.

(** ** Future trips *)

Lemma Math_ceil_pos (x : Q) : 0 < x -> (1 <= Math_ceil x)%Z.
Proof.
  intro H. unfold Math_ceil.
  pose proof (Qle_ceiling x) as C.
  assert (K : (0 < Qceiling x)%Z).
  { rewrite Zlt_Qlt. change (inject_Z 0) with 0. lra. }
  lia.
Qed.

Lemma Math_ceil_above (x : Q) (n : Z) :
  inject_Z n < x -> (n + 1 <= Math_ceil x)%Z.
Proof.
  intro H. unfold Math_ceil.
  pose proof (Qle_ceiling x) as C.
  assert (K : (n < Qceiling x)%Z) by (rewrite Zlt_Qlt; lra).
  lia.
Qed.

Lemma Math_ceil_below (x : Q) (n : Z) :
  x <= inject_Z n -> (Math_ceil x <= n)%Z.
Proof.
  intro H. unfold Math_ceil.
  pose proof (Qceiling_lt x) as C.
  assert (K : (Qceiling x - 1 < n)%Z) by (rewrite Zlt_Qlt; lra).
  lia.
Qed.

Lemma chargeDeficit_cases (dist cur : Q) :
  (totalBatteryNeeded dist <= cur /\ chargeDeficit dist cur == 0)
  \/ (cur < totalBatteryNeeded dist
      /\ chargeDeficit dist cur = totalBatteryNeeded dist - cur).
Proof.
  unfold chargeDeficit, Math_max.
  destruct (ltb 0 (totalBatteryNeeded dist - cur)) eqn:L.
  - apply ltb_lt in L. right. split; [lra|reflexivity].
  - apply ltb_ge in L. left. split; lra.
Qed.

(** [Math_round] moves a number by a half at most. *)
Lemma Math_round_close (x : Q) :
  x - (1 # 2) < inject_Z (Math_round x) /\ inject_Z (Math_round x) <= x + (1 # 2).
Proof.
  unfold Math_round.
  pose proof (Qfloor_le (x + (1 # 2))) as L.
  pose proof (Qlt_floor (x + (1 # 2))) as U.
  rewrite inject_Z_plus in U. change (inject_Z 1) with 1 in U.
  split; lra.
Qed.

(** X9. [estimateFutureTripCost] by case, for a buffered need that is
    clear of the two thresholds by a thousandth of a point (the need is a
    floating-point product, and at a threshold its rounding decides).
    When the charge on hand covers the need, nothing is charged: cost 0,
    no stops.  Otherwise at least one charging stop is counted, also when
    the plan is to charge at home (a deficit below 60 points, at most two
    stops); the target of that plan is the need rounded to a whole
    percent, so within one point of it.  Above 60 points the plan is home
    charging to 90% plus at least two Supercharger stops.  The estimated
    cost is the cost of the plan to the cent, and the recommended level
    never exceeds 100. *)
Theorem estimateFutureTripCost_cases (dist cur homeRate superchargerRate : Q) :
  let r := estimateFutureTripCost dist cur homeRate superchargerRate in
  let needed := totalBatteryNeeded dist in
  recommended_charge_level r <= 100
  /\ (needed + 0.001 <= cur ->
      charging_needed r = false /\ estimated_cost r == 0
      /\ charging_stops_needed r = 0%Z
      /\ strategy r = NoChargingNeeded cur)
  /\ (cur + 0.001 <= needed -> needed - cur <= 59.999 ->
      charging_needed r = true
      /\ (1 <= charging_stops_needed r <= 2)%Z
      /\ (exists target,
            strategy r = ChargeAtHome target
            /\ needed - 1 < target /\ target < needed + 1)
      /\ withinCent (estimated_cost r)
           ((needed - cur) / 100 * BATTERY_CAPACITY_KWH * homeRate))
  /\ (cur + 0.001 <= needed -> 60.001 <= needed - cur ->
      charging_needed r = true
      /\ (2 <= charging_stops_needed r)%Z
      /\ strategy r
         = HomeThenSupercharger (inject_Z (charging_stops_needed r))
      /\ withinCent (estimated_cost r)
           ((90 - cur) / 100 * BATTERY_CAPACITY_KWH * homeRate
            + (needed - 90) / 100 * BATTERY_CAPACITY_KWH
              * superchargerRate)).
Proof.
  intros r needed. subst r needed. unfold estimateFutureTripCost.
  set (needed := totalBatteryNeeded dist).
  split.
  { destruct (gtb needed cur);
      [destruct (leb (chargeDeficit dist cur) 60)|];
      cbn [recommended_charge_level]; apply Math_min_spec. }
  destruct (chargeDeficit_cases dist cur) as [[N D]|[N D]];
    fold needed in N, D.
  - assert (G : gtb needed cur = false).
    { destruct (gtb needed cur) eqn:G; [|reflexivity].
      apply gtb_gt in G. lra. }
    rewrite G. cbn [estimated_cost charging_needed charging_stops_needed
                    strategy].
    split; [|split; intros; exfalso; lra].
    intros _.
    split; [reflexivity|]. split; [|split; [|reflexivity]].
    + apply (round2_hundredths 0). reflexivity.
    + unfold Math_ceil. rewrite D. reflexivity.
  - assert (G : gtb needed cur = true).
    { destruct (gtb needed cur) eqn:G; [reflexivity|].
      apply gtb_le in G. lra. }
    rewrite G, D.
    split; [intros; exfalso; lra|].
    split; intros _ S.
    + assert (L : leb (needed - cur) 60 = true).
      { unfold leb. destruct (Qle_bool (needed - cur) 60) eqn:B;
          [reflexivity|].
        assert (S' : needed - cur <= 60) by lra.
        apply Qle_bool_iff in S'. congruence. }
      rewrite L.
      cbn [estimated_cost charging_needed charging_stops_needed strategy].
      split; [reflexivity|]. split; [split|split].
      * apply Math_ceil_pos. apply Qlt_shift_div_l; lra.
      * apply Math_ceil_below. apply Qle_shift_div_r; [reflexivity|].
        change (inject_Z 2 * 50) with 100. lra.
      * eexists. split; [reflexivity|].
        pose proof (Math_round_close (cur + (needed - cur))). lra.
      * apply round2_withinCent.
    + assert (L : leb (needed - cur) 60 = false).
      { unfold leb. destruct (Qle_bool (needed - cur) 60) eqn:B;
          [|reflexivity].
        apply Qle_bool_iff in B. lra. }
      rewrite L.
      cbn [estimated_cost charging_needed charging_stops_needed strategy].
      split; [reflexivity|]. split; [|split; [reflexivity|]].
      * apply (Math_ceil_above _ 1). apply Qlt_shift_div_l; [reflexivity|].
        change (inject_Z 1 * 50) with 50. lra.
      * pose proof (round2_withinCent
                      ((90 - cur) / 100 * BATTERY_CAPACITY_KWH * homeRate
                       + (needed - cur - (90 - cur)) / 100
                         * BATTERY_CAPACITY_KWH * superchargerRate)) as W.
        unfold withinCent in *. unfold BATTERY_CAPACITY_KWH in *.
        assert (E : (90 - cur) / 100 * 75 * homeRate
                    + (needed - cur - (90 - cur)) / 100 * 75 * superchargerRate
                    == (90 - cur) / 100 * 75 * homeRate
                       + (needed - 90) / 100 * 75 * superchargerRate)
          by field.
        rewrite <- E. exact W.
Qed.

(** ** Efficiency data points and factors *)

Lemma toDataPoint_sound (d : TessieDrive) :
  EfficiencyAnalyzer.plausible (EfficiencyAnalyzer.toDataPoint d) = true ->
  soundPoint (EfficiencyAnalyzer.toDataPoint d).
Proof.
  intro P. apply plausible_spec in P. destruct P as [P0 P60].
  unfold soundPoint, EfficiencyAnalyzer.toDataPoint.
  cbn [EfficiencyAnalyzer.efficiency_kwh_per_100mi
       EfficiencyAnalyzer.distance_miles EfficiencyAnalyzer.highway_percentage
       EfficiencyAnalyzer.avg_speed EfficiencyAnalyzer.weather_factor].
  split; [now split|]. split.
  { unfold EfficiencyAnalyzer.efficiencyOf in P0.
    destruct (gtb (odometer_distance d) 0) eqn:G; [now apply gtb_gt in G|].
    lra. }
  unfold EfficiencyAnalyzer.HIGHWAY_SPEED_THRESHOLD.
  assert (H : 0 <= (if gtb (average_speed d) 55
                    then Math_min 100 ((average_speed d - 25) / 45 * 100)
                    else 0) <= 100
              /\ (50 < (if gtb (average_speed d) 55
                        then Math_min 100 ((average_speed d - 25) / 45 * 100)
                        else 0)
                  <-> 55 < average_speed d)).
  { destruct (gtb (average_speed d) 55) eqn:G.
    - apply gtb_gt in G.
      assert (K : 50 < (average_speed d - 25) / 45 * 100).
      { unfold Qdiv. change (/ 45) with (1 # 45). lra. }
      set (x := (average_speed d - 25) / 45 * 100) in *.
      destruct (Math_min_spec 100 x) as (M1 & M2 & [M|M]);
        rewrite M in M1, M2 |- *;
        (split; [split; lra | split; intro; lra]).
    - apply gtb_le in G. split; [lra|]. split; intro; lra. }
  destruct H as [[H1 H2] H3].
  split; [now split|]. split; [exact H3|].
  destruct (gtb (EfficiencyAnalyzer.efficiencyOf d) 35) eqn:C.
  - now apply gtb_gt in C.
  - apply gtb_le in C.
    destruct (gtb (EfficiencyAnalyzer.efficiencyOf d) 30) eqn:T.
    + apply gtb_gt in T. now split.
    + now apply gtb_le in T.
Qed.

Lemma convertToDataPoints_points (drives : list TessieDrive) :
  Forall soundPoint (EfficiencyAnalyzer.convertToDataPoints drives).
Proof.
  unfold EfficiencyAnalyzer.convertToDataPoints.
  apply Forall_forall. intros dp I.
  apply filter_In in I. destruct I as [I P].
  apply in_map_iff in I. destruct I as (d & <- & _).
  now apply toDataPoint_sound.
Qed.

(** X10. Every data point that [convertToDataPoints] keeps comes from
    a drive with a positive distance; its highway share lies between 0
    and 100 and exceeds 50 exactly when the average speed exceeds 55
    mph; it is labelled cold above 35 kWh/100mi, hot above 30 and up to
    35, and mild otherwise.  No more points are kept than drives were
    given. *)
Theorem convertToDataPoints_sound (drives : list TessieDrive) :
  Forall soundPoint (EfficiencyAnalyzer.convertToDataPoints drives)
  /\ (List.length (EfficiencyAnalyzer.convertToDataPoints drives)
      <= List.length drives)%nat.
Proof.
  split; [apply convertToDataPoints_points|].
  unfold EfficiencyAnalyzer.convertToDataPoints.
  rewrite <- (length_map EfficiencyAnalyzer.toDataPoint drives).
  apply filter_length_le.
Qed.

Lemma sum_bounds (lo hi : Q) (xs : list Q) :
  Forall (fun x => lo <= x <= hi) xs ->
  inject_Z (Z.of_nat (List.length xs)) * lo <= sum xs
  /\ sum xs <= inject_Z (Z.of_nat (List.length xs)) * hi.
Proof.
  induction 1 as [|x xs [L H] _ [IL IH]].
  - unfold sum. cbn [List.length Z.of_nat fold_left].
    change (inject_Z 0) with 0. lra.
  - rewrite sum_cons.
    change (List.length (x :: xs)) with (S (List.length xs)).
    rewrite Nat2Z.inj_succ. unfold Z.succ. rewrite inject_Z_plus.
    change (inject_Z 1) with 1.
    set (n := inject_Z (Z.of_nat (List.length xs))) in *.
    rewrite !Qmult_plus_distr_l. lra.
Qed.

Lemma average_bounds (lo hi : Q) (xs : list Q) :
  xs <> [] -> Forall (fun x => lo <= x <= hi) xs ->
  round2 lo <= EfficiencyAnalyzer.average xs
  /\ EfficiencyAnalyzer.average xs <= round2 hi.
Proof.
  intros N F. unfold EfficiencyAnalyzer.average.
  destruct xs as [|x xs]; [congruence|].
  change (List.length (x :: xs) =? 0)%nat with false. cbv iota.
  destruct (sum_bounds lo hi _ F) as [L H].
  set (n := inject_Z (Z.of_nat (List.length (x :: xs)))) in *.
  assert (P : 0 < n).
  { subst n. change 0 with (inject_Z 0). rewrite <- Zlt_Qlt.
    simpl. lia. }
  split; apply round2_mono.
  - apply Qle_shift_div_l; [exact P|]. lra.
  - apply Qle_shift_div_r; [exact P|]. lra.
Qed.

Lemma filtered_average_bounds
    (keep : EfficiencyAnalyzer.EfficiencyDataPoint -> bool) (lo hi : Q)
    (dps : list EfficiencyAnalyzer.EfficiencyDataPoint) :
  (forall dp, In dp dps -> keep dp = true ->
              lo <= EfficiencyAnalyzer.efficiency_kwh_per_100mi dp <= hi) ->
  (0 <? List.length (filter keep dps))%nat = true ->
  round2 lo
  <= EfficiencyAnalyzer.average
       (map EfficiencyAnalyzer.efficiency_kwh_per_100mi (filter keep dps))
  /\ EfficiencyAnalyzer.average
       (map EfficiencyAnalyzer.efficiency_kwh_per_100mi (filter keep dps))
     <= round2 hi.
Proof.
  intros B L. apply average_bounds.
  - intro Z. apply map_eq_nil in Z. rewrite Z in L. discriminate.
  - apply Forall_map. apply Forall_forall. intros dp I.
    apply filter_In in I. destruct I as [I K]. now apply B.
Qed.

Lemma isWeather_eq (w : EfficiencyAnalyzer.WeatherFactor)
    (dp : EfficiencyAnalyzer.EfficiencyDataPoint) :
  EfficiencyAnalyzer.isWeather w dp = true ->
  EfficiencyAnalyzer.weather_factor dp = w.
Proof.
  unfold EfficiencyAnalyzer.isWeather.
  destruct (EfficiencyAnalyzer.weather_factor dp), w;
    congruence.
Qed.

Lemma weatherAverages_order
    (dps : list EfficiencyAnalyzer.EfficiencyDataPoint) :
  Forall soundPoint dps ->
  0 <= fst (fst (EfficiencyAnalyzer.weatherAverages dps))
  /\ fst (fst (EfficiencyAnalyzer.weatherAverages dps))
     <= snd (fst (EfficiencyAnalyzer.weatherAverages dps))
  /\ fst (fst (EfficiencyAnalyzer.weatherAverages dps))
     <= snd (EfficiencyAnalyzer.weatherAverages dps).
Proof.
  intro F. rewrite Forall_forall in F.
  unfold EfficiencyAnalyzer.weatherAverages. cbn [fst snd].
  pose proof (round2_whole 0) as R0. pose proof (round2_whole 30) as R30.
  pose proof (round2_whole 35) as R35.
  change (inject_Z 0) with 0 in R0. change (inject_Z 30) with 30 in R30.
  change (inject_Z 35) with 35 in R35.
  assert (M : 0 <= (if (0 <? List.length
                                (filter (EfficiencyAnalyzer.isWeather
                                           EfficiencyAnalyzer.mild) dps))%nat
                    then EfficiencyAnalyzer.average
                           (map EfficiencyAnalyzer.efficiency_kwh_per_100mi
                              (filter (EfficiencyAnalyzer.isWeather
                                         EfficiencyAnalyzer.mild) dps))
                    else 0) <= 30).
  { destruct (0 <? _)%nat eqn:L; [|lra].
    destruct (filtered_average_bounds
                (EfficiencyAnalyzer.isWeather EfficiencyAnalyzer.mild)
                0 30 dps) as [A B]; [|exact L|lra].
    intros dp I K. apply isWeather_eq in K.
    destruct (F dp I) as ([E0 _] & _ & _ & _ & W). rewrite K in W. lra. }
  set (mildAvg := if (0 <? _)%nat then _ else 0) in *. clearbody mildAvg.
  split; [lra|]. split.
  - destruct (0 <? _)%nat eqn:L; [|lra].
    destruct (filtered_average_bounds
                (EfficiencyAnalyzer.isWeather EfficiencyAnalyzer.hot)
                30 35 dps) as [A B]; [|exact L|lra].
    intros dp I K. apply isWeather_eq in K.
    destruct (F dp I) as (_ & _ & _ & _ & W). rewrite K in W. lra.
  - destruct (0 <? _)%nat eqn:L; [|lra].
    destruct (filtered_average_bounds
                (EfficiencyAnalyzer.isWeather EfficiencyAnalyzer.cold)
                35 60 dps) as [A B]; [|exact L|lra].
    intros dp I K. apply isWeather_eq in K.
    destruct (F dp I) as ([_ E60] & _ & _ & _ & W). rewrite K in W. lra.
Qed.

Lemma penalty_nonneg (mildAvg other : Q) :
  mildAvg <= other ->
  0 <= (if gtb mildAvg 0 then (other - mildAvg) / mildAvg * 100 else 0).
Proof.
  intro H. destruct (gtb mildAvg 0) eqn:G; [|lra].
  apply gtb_gt in G.
  assert (0 <= (other - mildAvg) / mildAvg)
    by (apply Qle_shift_div_l; lra).
  lra.
Qed.

Lemma speed_average_range
    (keep : EfficiencyAnalyzer.EfficiencyDataPoint -> bool)
    (dps : list EfficiencyAnalyzer.EfficiencyDataPoint) :
  Forall soundPoint dps ->
  0 <= round2 (if (0 <? List.length (filter keep dps))%nat
               then EfficiencyAnalyzer.average
                      (map EfficiencyAnalyzer.efficiency_kwh_per_100mi
                         (filter keep dps))
               else 0)
  /\ round2 (if (0 <? List.length (filter keep dps))%nat
             then EfficiencyAnalyzer.average
                    (map EfficiencyAnalyzer.efficiency_kwh_per_100mi
                       (filter keep dps))
             else 0) <= 60.
Proof.
  intro F. rewrite Forall_forall in F.
  pose proof (round2_whole 0) as R0. pose proof (round2_whole 60) as R60.
  change (inject_Z 0) with 0 in R0. change (inject_Z 60) with 60 in R60.
  assert (A : 0 <= (if (0 <? List.length (filter keep dps))%nat
                    then EfficiencyAnalyzer.average
                           (map EfficiencyAnalyzer.efficiency_kwh_per_100mi
                              (filter keep dps))
                    else 0) <= 60).
  { destruct (0 <? _)%nat eqn:L; [|lra].
    destruct (filtered_average_bounds keep 0 60 dps) as [A B];
      [|exact L|lra].
    intros dp I _. destruct (F dp I) as ([E0 E60] & _). lra. }
  destruct A as [A0 A60].
  apply round2_mono in A0, A60. rewrite R0 in A0. rewrite R60 in A60.
  now split.
Qed.

(** X11. On the data points of [convertToDataPoints], the hot and the
    cold weather penalty of [analyzeEfficiencyFactors] are never
    negative, and the highway and city rates lie between 0 and 60
    kWh/100mi. *)
Theorem analyzeEfficiencyFactors_ranges
    (timePatterns : string * string * string) (drives : list TessieDrive) :
  0 <= EfficiencyAnalyzer.hot_weather_penalty
         (EfficiencyAnalyzer.analyzeEfficiencyFactors timePatterns
            (EfficiencyAnalyzer.convertToDataPoints drives))
  /\ 0 <= EfficiencyAnalyzer.cold_weather_penalty
            (EfficiencyAnalyzer.analyzeEfficiencyFactors timePatterns
               (EfficiencyAnalyzer.convertToDataPoints drives))
  /\ (0 <= EfficiencyAnalyzer.highway_efficiency
             (EfficiencyAnalyzer.analyzeEfficiencyFactors timePatterns
                (EfficiencyAnalyzer.convertToDataPoints drives))
      /\ EfficiencyAnalyzer.highway_efficiency
           (EfficiencyAnalyzer.analyzeEfficiencyFactors timePatterns
              (EfficiencyAnalyzer.convertToDataPoints drives)) <= 60)
  /\ (0 <= EfficiencyAnalyzer.city_efficiency
             (EfficiencyAnalyzer.analyzeEfficiencyFactors timePatterns
                (EfficiencyAnalyzer.convertToDataPoints drives))
      /\ EfficiencyAnalyzer.city_efficiency
           (EfficiencyAnalyzer.analyzeEfficiencyFactors timePatterns
              (EfficiencyAnalyzer.convertToDataPoints drives)) <= 60).
Proof.
  pose proof (convertToDataPoints_points drives) as F.
  set (dps := EfficiencyAnalyzer.convertToDataPoints drives) in *.
  clearbody dps.
  pose proof (weatherAverages_order dps F) as (W0 & Wh & Wc).
  unfold EfficiencyAnalyzer.analyzeEfficiencyFactors.
  destruct (EfficiencyAnalyzer.weatherAverages dps) as [[m h] c].
  destruct timePatterns as [[bestDay worstDay] bestTime].
  cbn [fst snd] in W0, Wh, Wc.
  cbn [EfficiencyAnalyzer.hot_weather_penalty
       EfficiencyAnalyzer.cold_weather_penalty
       EfficiencyAnalyzer.highway_efficiency
       EfficiencyAnalyzer.city_efficiency].
  split; [now apply penalty_nonneg|].
  split; [now apply penalty_nonneg|].
  split; now apply speed_average_range.
Qed.

Lemma fold_min_spec (xs : list Q) :
  forall x,
    (fold_left Math_min xs x = x \/ In (fold_left Math_min xs x) xs)
    /\ fold_left Math_min xs x <= x
    /\ Forall (fun y => fold_left Math_min xs x <= y) xs.
Proof.
  induction xs as [|y xs IH]; intro x; cbn [fold_left].
  - split; [now left|]. split; [lra|constructor].
  - destruct (IH (Math_min x y)) as (I & L & F).
    destruct (Math_min_spec x y) as (M1 & M2 & M).
    split; [|split].
    + destruct I as [I|I]; [|right; now right].
      rewrite I. destruct M as [M|M]; rewrite M; [now left|right; now left].
    + lra.
    + constructor; [lra|exact F].
Qed.

Lemma fold_max_spec (xs : list Q) :
  forall x,
    (fold_left Math_max xs x = x \/ In (fold_left Math_max xs x) xs)
    /\ x <= fold_left Math_max xs x
    /\ Forall (fun y => y <= fold_left Math_max xs x) xs.
Proof.
  induction xs as [|y xs IH]; intro x; cbn [fold_left].
  - split; [now left|]. split; [lra|constructor].
  - destruct (IH (Math_max x y)) as (I & L & F).
    destruct (Math_max_spec x y) as (M1 & M2 & M).
    split; [|split].
    + destruct I as [I|I]; [|right; now right].
      rewrite I. destruct M as [M|M]; rewrite M; [now left|right; now left].
    + lra.
    + constructor; [lra|exact F].
Qed.

Lemma totalMiles_nonneg (dps : list EfficiencyAnalyzer.EfficiencyDataPoint) :
  forall acc,
    Forall soundPoint dps -> 0 <= acc ->
    0 <= fold_left
           (fun sum dp => sum + EfficiencyAnalyzer.distance_miles dp) dps acc.
Proof.
  induction dps as [|dp dps IH]; intros acc F A; [exact A|].
  inversion F as [|? ? (_ & D & _) F']; subst. cbn [fold_left].
  apply IH; [exact F'|lra].
Qed.

(** X12. [calculateCurrentPeriodStats] on the points of
    [convertToDataPoints].  With no point left the best and the worst
    rate are the infinities of an empty spread and the average is 0.
    Otherwise the best is at most the worst, both lie strictly between
    0 and 60, the average lies between their roundings, and the mileage
    is not negative. *)
Theorem calculateCurrentPeriodStats_range (drives : list TessieDrive) :
  let points := EfficiencyAnalyzer.convertToDataPoints drives in
  let s := EfficiencyAnalyzer.calculateCurrentPeriodStats points in
  (points = [] ->
   EfficiencyAnalyzer.stats_best s = None
   /\ EfficiencyAnalyzer.stats_worst s = None
   /\ EfficiencyAnalyzer.stats_avg_efficiency s = 0)
  /\ (points <> [] ->
      exists best worst,
        EfficiencyAnalyzer.stats_best s = Some best
        /\ EfficiencyAnalyzer.stats_worst s = Some worst
        /\ 0 < best /\ best <= worst /\ worst < 60
        /\ round2 best <= EfficiencyAnalyzer.stats_avg_efficiency s
        /\ EfficiencyAnalyzer.stats_avg_efficiency s <= round2 worst)
  /\ 0 <= EfficiencyAnalyzer.stats_total_miles s.
Proof.
  intros points s. subst s.
  pose proof (convertToDataPoints_points drives) as F. fold points in F.
  clearbody points.
  unfold EfficiencyAnalyzer.calculateCurrentPeriodStats.
  cbn [EfficiencyAnalyzer.stats_best EfficiencyAnalyzer.stats_worst
       EfficiencyAnalyzer.stats_avg_efficiency
       EfficiencyAnalyzer.stats_total_miles].
  split; [|split].
  - intros ->. repeat split.
  - intro N. destruct points as [|p ps]; [congruence|].
    cbn [map EfficiencyAnalyzer.minOf EfficiencyAnalyzer.maxOf].
    set (e := EfficiencyAnalyzer.efficiency_kwh_per_100mi).
    set (x := e p). set (xs := map e ps).
    destruct (fold_min_spec xs x) as (Imin & Lmin & Fmin).
    destruct (fold_max_spec xs x) as (Imax & Lmax & Fmax).
    assert (R : Forall (fun y => 0 < y /\ y < 60) (x :: xs)).
    { change (x :: xs) with (map e (p :: ps)). apply Forall_map.
      eapply Forall_impl; [|exact F]. intros dp (E & _). exact E. }
    rewrite Forall_forall in R.
    exists (fold_left Math_min xs x), (fold_left Math_max xs x).
    split; [reflexivity|]. split; [reflexivity|].
    assert (Rmin : 0 < fold_left Math_min xs x).
    { destruct Imin as [E|I]; [rewrite E; apply R; now left|].
      apply R. now right. }
    assert (Rmax : fold_left Math_max xs x < 60).
    { destruct Imax as [E|I]; [rewrite E; apply R; now left|].
      apply R. now right. }
    split; [exact Rmin|]. split; [lra|]. split; [exact Rmax|].
    apply average_bounds; [discriminate|].
    constructor; [lra|].
    rewrite Forall_forall in Fmin, Fmax. apply Forall_forall.
    intros y I. split; [now apply Fmin|now apply Fmax].
  - apply round2_nonneg. apply totalMiles_nonneg; [exact F|lra].
Qed.

(** ** Commute routes *)

Lemma commuteAverage_bounds (lo hi : Q) (xs : list Q) :
  xs <> [] -> Forall (fun x => lo <= x <= hi) xs ->
  round2 lo <= CommuteAnalyzer.average xs
  /\ CommuteAnalyzer.average xs <= round2 hi.
Proof. exact (average_bounds lo hi xs). Qed.

Lemma avgEfficiencyForDrives_range (ds : list TessieDrive) :
  0 <= CommuteAnalyzer.calculateAvgEfficiencyForDrives ds
  /\ CommuteAnalyzer.calculateAvgEfficiencyForDrives ds <= 50.
Proof.
  unfold CommuteAnalyzer.calculateAvgEfficiencyForDrives.
  set (es := filter CommuteAnalyzer.realistic
               (map CommuteAnalyzer.routeEfficiency ds)).
  destruct es as [|e es'] eqn:E.
  - unfold CommuteAnalyzer.average. simpl. lra.
  - rewrite <- E.
    pose proof (round2_whole 0) as R0. pose proof (round2_whole 50) as R50.
    change (inject_Z 0) with 0 in R0. change (inject_Z 50) with 50 in R50.
    destruct (commuteAverage_bounds 0 50 es) as [A B]; [congruence| |lra].
    apply Forall_forall. intros x I. subst es.
    apply filter_In in I. destruct I as [_ I].
    unfold CommuteAnalyzer.realistic in I.
    apply andb_true_iff in I. destruct I as [G L].
    apply gtb_gt in G. apply ltb_lt in L. lra.
Qed.

(** X13. [calculateEfficiencyTrend] reports [stable] for six drives or
    fewer.  From seven drives on it compares the average rate of the
    newest six drives with that of the oldest [min 6 (n - 6)] drives
    (not of the six before the newest), and nothing else: two lists with
    the same two windows have the same trend.  The thresholds are 95%
    and 105% of the older average.  The code computes rates, averages
    and the percentage in double precision, so the comparison is stated
    for drives whose rate is clear of the ends of the (0, 50) filter and
    for averages that are three cents clear of a threshold: below 95%
    the trend is improving, above 105% declining, in between stable, and
    conversely an improving or declining trend puts the recent average
    on that side of the threshold, to three cents.  Both averages lie
    between 0 and 50. *)
Theorem calculateEfficiencyTrend_thresholds (drives : list TessieDrive) :
  let n := List.length drives in
  let older :=
    CommuteAnalyzer.calculateAvgEfficiencyForDrives
      (firstn (Nat.min 6 (n - 6)) (sortDrives drives)) in
  let recent :=
    CommuteAnalyzer.calculateAvgEfficiencyForDrives
      (skipn (n - 6) (sortDrives drives)) in
  ((n <= 6)%nat ->
   CommuteAnalyzer.calculateEfficiencyTrend drives = CommuteAnalyzer.stable)
  /\ ((7 <= n)%nat -> Forall clearOfFilter drives ->
      (recent + 0.03 <= 0.95 * older ->
       CommuteAnalyzer.calculateEfficiencyTrend drives
       = CommuteAnalyzer.improving)
      /\ (1.05 * older + 0.03 <= recent ->
          CommuteAnalyzer.calculateEfficiencyTrend drives
          = CommuteAnalyzer.declining)
      /\ (0.95 * older + 0.03 <= recent -> recent + 0.03 <= 1.05 * older ->
          CommuteAnalyzer.calculateEfficiencyTrend drives
          = CommuteAnalyzer.stable)
      /\ (CommuteAnalyzer.calculateEfficiencyTrend drives
          = CommuteAnalyzer.improving -> recent < 0.95 * older + 0.03)
      /\ (CommuteAnalyzer.calculateEfficiencyTrend drives
          = CommuteAnalyzer.declining -> 1.05 * older < recent + 0.03))
  /\ ((7 <= n)%nat ->
      forall drives',
        let n' := List.length drives' in
        (7 <= n')%nat ->
        firstn (Nat.min 6 (n - 6)) (sortDrives drives)
        = firstn (Nat.min 6 (n' - 6)) (sortDrives drives') ->
        skipn (n - 6) (sortDrives drives)
        = skipn (n' - 6) (sortDrives drives') ->
        CommuteAnalyzer.calculateEfficiencyTrend drives
        = CommuteAnalyzer.calculateEfficiencyTrend drives')
  /\ (0 <= older /\ older <= 50) /\ (0 <= recent /\ recent <= 50).
Proof.
  intros n older recent.
  pose proof (avgEfficiencyForDrives_range
                (firstn (Nat.min 6 (n - 6)) (sortDrives drives))) as RO.
  pose proof (avgEfficiencyForDrives_range
                (skipn (n - 6) (sortDrives drives))) as RR.
  fold older in RO. fold recent in RR.
  assert (Seven : forall ds : list TessieDrive,
             (7 <= List.length ds)%nat ->
             CommuteAnalyzer.calculateEfficiencyTrend ds
             = CommuteAnalyzer.trendOfSorted (List.length ds) (sortDrives ds)
               /\ (List.length
                     (firstn (Nat.min 6 (List.length ds - 6)) (sortDrives ds))
                   =? 0)%nat = false).
  { intros ds L. unfold CommuteAnalyzer.calculateEfficiencyTrend.
    destruct (List.length ds <? 6)%nat eqn:L6;
      [apply Nat.ltb_lt in L6; lia|].
    split; [reflexivity|].
    rewrite length_firstn, sortDrives_length. apply Nat.eqb_neq. lia. }
  split; [|split; [|split; [|now split]]].
  - intro L. unfold CommuteAnalyzer.calculateEfficiencyTrend.
    fold n. destruct (n <? 6)%nat eqn:L6; [reflexivity|].
    apply Nat.ltb_ge in L6.
    unfold CommuteAnalyzer.trendOfSorted.
    replace (n - 6)%nat with 0%nat by lia. reflexivity.
  - intros L _. destruct (Seven drives L) as [E Z]. rewrite E.
    unfold CommuteAnalyzer.trendOfSorted.
    rewrite sortDrives_length. fold n. fold n in Z. rewrite Z.
    fold older. fold recent. clearbody older recent.
    destruct (eqb older 0) eqn:O.
    + apply eqb_eq in O.
      destruct (eqb (older - recent) 0) eqn:D.
      * apply eqb_eq in D.
        repeat split; intros; try reflexivity; try discriminate; lra.
      * apply eqb_neq in D.
        destruct (ltb (older - recent) 0) eqn:T.
        -- apply ltb_lt in T.
           repeat split; intros; try reflexivity; try discriminate; lra.
        -- apply ltb_ge in T. exfalso. lra.
    + apply eqb_neq in O.
      assert (P : 0 < older) by lra.
      set (q := (older - recent) / older).
      assert (Q : q * older == older - recent) by (subst q; field; lra).
      destruct (gtb (q * 100) 5) eqn:G.
      * apply gtb_gt in G.
        repeat split; intros; try reflexivity; try discriminate; nra.
      * apply gtb_le in G.
        destruct (ltb (q * 100) (-5)) eqn:T.
        -- apply ltb_lt in T.
           repeat split; intros; try reflexivity; try discriminate; nra.
        -- apply ltb_ge in T.
           repeat split; intros; try reflexivity; try discriminate; nra.
  - intros L drives' n' L' Eo Er.
    destruct (Seven drives L) as [E _]. destruct (Seven drives' L') as [E' _].
    rewrite E, E'. unfold CommuteAnalyzer.trendOfSorted.
    rewrite !sortDrives_length. fold n. fold n'.
    now rewrite Eo, Er.
Qed.

Lemma calculateEfficiencyTrend_thresholds_witness :
  CommuteAnalyzer.calculateEfficiencyTrend Sample.lighter
  = CommuteAnalyzer.improving.
Proof.
  refine (proj1 (proj1 (proj2 (calculateEfficiencyTrend_thresholds
                                 Sample.lighter)) _ _) _).
  - simpl. lia.
  - unfold Sample.lighter.
    repeat (apply Forall_cons;
            [right; left; split; vm_compute; discriminate|]).
    apply Forall_nil.
  - vm_compute. discriminate.
Defined.

Lemma analyzeRoute_describes (g : string * list TessieDrive)
    (r : CommuteAnalyzer.CommuteRoute) :
  CommuteAnalyzer.analyzeRoute g = Ok r -> describes g r.
Proof.
  destruct g as [k ds]. unfold CommuteAnalyzer.analyzeRoute, describes.
  cbn [fst snd].
  pose proof (afterTrend_perm ds) as P.
  destruct (CommuteAnalyzer.afterTrend ds) as [|d0 rest]; [discriminate|].
  intro E. injection E as <-. exists d0.
  split; [|repeat split].
  apply (Permutation_in _ P). now left.
Qed.

Lemma mapRoutes_in (groups : list (string * list TessieDrive)) :
  forall rs r,
    CommuteAnalyzer.mapRoutes groups = Ok rs -> In r rs ->
    exists g, In g groups /\ CommuteAnalyzer.analyzeRoute g = Ok r.
Proof.
  induction groups as [|g gs IH]; intros rs r E I;
    cbn [CommuteAnalyzer.mapRoutes] in E.
  - injection E as <-. destruct I.
  - destruct (CommuteAnalyzer.analyzeRoute g) as [r0|msg] eqn:A;
      [|discriminate].
    cbn [bind] in E.
    destruct (CommuteAnalyzer.mapRoutes gs) as [rs0|msg] eqn:M;
      [|discriminate].
    cbn [bind] in E. injection E as <-.
    destruct I as [<-|I].
    + exists g. split; [now left|exact A].
    + destruct (IH rs0 r eq_refl I) as (g' & Ig & Ag).
      exists g'. split; [now right|exact Ag].
Qed.

Lemma analyzeCommutes_routes_in (drives : list TessieDrive)
    (r : CommuteAnalyzer.CommuteAnalysis)
    (route : CommuteAnalyzer.CommuteRoute) :
  CommuteAnalyzer.analyzeCommutes drives = Ok r ->
  In route (CommuteAnalyzer.routes r) ->
  exists g,
    In g (filter CommuteAnalyzer.frequentEnough
                 (CommuteAnalyzer.groupDrivesByRoute drives))
    /\ CommuteAnalyzer.analyzeRoute g = Ok route.
Proof.
  unfold CommuteAnalyzer.analyzeCommutes.
  destruct (List.length drives <? 10)%nat.
  - intro E. injection E as <-. intros [].
  - destruct (CommuteAnalyzer.mapRoutes _) as [rs|msg] eqn:M; [|discriminate].
    cbn [bind]. intro E. injection E as <-.
    cbn [CommuteAnalyzer.routes]. intro I.
    exact (mapRoutes_in _ rs route M I).
Qed.

(** X14. Every route that [analyzeCommutes] reports takes its two
    endpoints from one of the given drives, and that drive carries the
    route's key, so the key of the reported endpoints is the route's id.
    Its average rate lies between 0 and 50 kWh/100mi and its weekly
    frequency is not negative. *)
Theorem analyzeCommutes_route_endpoints (drives : list TessieDrive)
    (r : CommuteAnalyzer.CommuteAnalysis)
    (route : CommuteAnalyzer.CommuteRoute) :
  CommuteAnalyzer.analyzeCommutes drives = Ok r ->
  In route (CommuteAnalyzer.routes r) ->
  (exists d,
      In d drives
      /\ CommuteAnalyzer.from_location route = starting_location d
      /\ CommuteAnalyzer.to_location route = ending_location d
      /\ CommuteAnalyzer.name route = CommuteAnalyzer.generateRouteName d)
  /\ CommuteAnalyzer.generateRouteId (CommuteAnalyzer.from_location route)
                                     (CommuteAnalyzer.to_location route)
     = CommuteAnalyzer.route_id route
  /\ (0 <= CommuteAnalyzer.avg_efficiency_kwh_per_100mi route
      /\ CommuteAnalyzer.avg_efficiency_kwh_per_100mi route <= 50)
  /\ 0 <= CommuteAnalyzer.frequency route.
Proof.
  intros E I.
  destruct (analyzeCommutes_routes_in drives r route E I) as (g & Ig & A).
  destruct (retained_members drives g Ig) as [Mg _].
  destruct (analyzeRoute_describes g route A)
    as (d0 & I0 & Eid & Ef & Et & En & _ & Ee & _).
  rewrite Mg in I0. apply filter_In in I0. destruct I0 as [Id K].
  apply String.eqb_eq in K. unfold routeKey in K.
  split; [|split; [|split]].
  - exists d0. repeat split; assumption.
  - rewrite Ef, Et, Eid. exact K.
  - rewrite Ee. apply avgEfficiencyForDrives_range.
  - rewrite (analyzeCommutes_route_frequency drives r route E I).
    apply weeklyFrequency_nonneg.
Qed.

Lemma analyzeCommutes_route_endpoints_witness :
  exists r route,
    CommuteAnalyzer.analyzeCommutes Sample.tenDrives = Ok r
    /\ In route (CommuteAnalyzer.routes r)
    /\ CommuteAnalyzer.generateRouteId (CommuteAnalyzer.from_location route)
                                       (CommuteAnalyzer.to_location route)
       = CommuteAnalyzer.route_id route.
Proof.
  destruct (CommuteAnalyzer.analyzeCommutes Sample.tenDrives)
    as [r|msg] eqn:E; [|vm_compute in E; discriminate E].
  destruct (CommuteAnalyzer.routes r) as [|route rest] eqn:R.
  { exfalso. vm_compute in E. injection E as <-. discriminate R. }
  exists r, route. split; [reflexivity|]. split; [rewrite R; now left|].
  refine (proj1 (proj2
    (analyzeCommutes_route_endpoints Sample.tenDrives r route E _))).
  rewrite R. now left.
Defined.

Lemma fold_add_map {A : Type} (f : A -> Q) (l : list A) :
  forall acc,
    fold_left (fun total x => total + f x) l acc == acc + sum (map f l).
Proof.
  induction l as [|x l IH]; intro acc; cbn [fold_left map].
  - unfold sum. simpl. lra.
  - rewrite IH, sum_cons. lra.
Qed.

Lemma sum_nonneg (xs : list Q) : Forall (fun x => 0 <= x) xs -> 0 <= sum xs.
Proof.
  induction 1 as [|x xs H _ IH].
  - unfold sum. simpl. lra.
  - rewrite sum_cons. lra.
Qed.

Lemma commuteAverage_nonneg (xs : list Q) :
  Forall (fun x => 0 <= x) xs -> 0 <= CommuteAnalyzer.average xs.
Proof.
  intro F. unfold CommuteAnalyzer.average.
  destruct xs as [|x xs]; [simpl; lra|].
  change (List.length (x :: xs) =? 0)%nat with false. cbv iota.
  apply round2_nonneg. apply Qle_shift_div_l.
  - change 0 with (inject_Z 0). rewrite <- Zlt_Qlt. simpl. lia.
  - rewrite Qmult_0_l. now apply sum_nonneg.
Qed.

Lemma calculateAvgEfficiency_range (rs : list CommuteAnalyzer.CommuteRoute) :
  Forall (fun route =>
            0 <= CommuteAnalyzer.avg_efficiency_kwh_per_100mi route <= 50) rs ->
  0 <= CommuteAnalyzer.calculateAvgEfficiency rs
  /\ CommuteAnalyzer.calculateAvgEfficiency rs <= 50.
Proof.
  intro F. unfold CommuteAnalyzer.calculateAvgEfficiency.
  destruct rs as [|r0 rs']; [simpl; lra|].
  set (rs := r0 :: rs') in *.
  change (List.length rs =? 0)%nat with false. cbv iota.
  pose proof (fold_add_map
                CommuteAnalyzer.avg_efficiency_kwh_per_100mi rs 0) as T.
  assert (B : Forall (fun x => 0 <= x <= 50)
                (map CommuteAnalyzer.avg_efficiency_kwh_per_100mi rs))
    by now apply Forall_map.
  destruct (sum_bounds 0 50 _ B) as [L H].
  rewrite length_map in L, H.
  set (n := inject_Z (Z.of_nat (List.length rs))) in *.
  assert (P : 0 < n).
  { subst n. change 0 with (inject_Z 0). rewrite <- Zlt_Qlt. simpl. lia. }
  pose proof (round2_whole 0) as R0. pose proof (round2_whole 50) as R50.
  change (inject_Z 0) with 0 in R0. change (inject_Z 50) with 50 in R50.
  set (total := fold_left _ rs 0) in *.
  assert (M0 : 0 <= total / n) by (apply Qle_shift_div_l; [exact P|lra]).
  assert (M50 : total / n <= 50) by (apply Qle_shift_div_r; [exact P|lra]).
  apply round2_mono in M0, M50.
  rewrite R0 in M0. rewrite R50 in M50. now split.
Qed.

Lemma commuteMiles_nonneg (rs : list CommuteAnalyzer.CommuteRoute) :
  Forall (fun route =>
            0 <= CommuteAnalyzer.typical_distance route
            /\ 0 <= CommuteAnalyzer.frequency route) rs ->
  0 <= fold_left
         (fun total route =>
            total + CommuteAnalyzer.typical_distance route
                    * CommuteAnalyzer.frequency route)
         rs 0.
Proof.
  intro F.
  rewrite (fold_add_map
             (fun route => CommuteAnalyzer.typical_distance route
                           * CommuteAnalyzer.frequency route) rs 0).
  assert (0 <= sum (map (fun route =>
                           CommuteAnalyzer.typical_distance route
                           * CommuteAnalyzer.frequency route) rs)).
  { apply sum_nonneg. apply Forall_map.
    eapply Forall_impl; [|exact F]. intros route [T Fq]. nra. }
  lra.
Qed.

(** X15. When no drive has a negative distance, the totals that
    [analyzeCommutes] reports are consistent: the route count is the
    number of routes, the weekly miles and their cost are not negative,
    and the average rate lies between 0 and 50 kWh/100mi. *)
Theorem analyzeCommutes_totals (drives : list TessieDrive)
    (r : CommuteAnalyzer.CommuteAnalysis) :
  Forall (fun d => 0 <= odometer_distance d) drives ->
  CommuteAnalyzer.analyzeCommutes drives = Ok r ->
  CommuteAnalyzer.routes_detected r
  = Z.of_nat (List.length (CommuteAnalyzer.routes r))
  /\ 0 <= CommuteAnalyzer.total_commute_miles r
  /\ 0 <= CommuteAnalyzer.total_commute_cost r
  /\ (0 <= CommuteAnalyzer.avg_commute_efficiency r
      /\ CommuteAnalyzer.avg_commute_efficiency r <= 50).
Proof.
  intros D E.
  assert (R : Forall (fun route =>
                        (0 <= CommuteAnalyzer.typical_distance route
                         /\ 0 <= CommuteAnalyzer.frequency route)
                        /\ 0 <= CommuteAnalyzer.avg_efficiency_kwh_per_100mi
                                  route <= 50)
                     (CommuteAnalyzer.routes r)).
  { apply Forall_forall. intros route I.
    destruct (analyzeCommutes_routes_in drives r route E I) as (g & Ig & A).
    destruct (retained_members drives g Ig) as [Mg _].
    destruct (analyzeRoute_describes g route A)
      as (_ & _ & _ & _ & _ & _ & Ed & Ee & _ & Ef).
    rewrite Ed, Ee, Ef. split; [split|].
    - apply commuteAverage_nonneg. apply Forall_map. rewrite Mg.
      apply Forall_forall. intros d Id. apply filter_In in Id.
      rewrite Forall_forall in D. apply D. tauto.
    - apply weeklyFrequency_nonneg.
    - apply avgEfficiencyForDrives_range. }
  revert E R. unfold CommuteAnalyzer.analyzeCommutes.
  destruct (List.length drives <? 10)%nat.
  - intro E. injection E as <-. intros _. cbn.
    repeat split; discriminate.
  - destruct (CommuteAnalyzer.mapRoutes _) as [rs|msg]; [|discriminate].
    cbn [bind]. intro E. injection E as <-.
    cbn [CommuteAnalyzer.routes CommuteAnalyzer.routes_detected
         CommuteAnalyzer.total_commute_miles
         CommuteAnalyzer.total_commute_cost
         CommuteAnalyzer.avg_commute_efficiency].
    intro R.
    assert (M : 0 <= fold_left
                       (fun total route =>
                          total + CommuteAnalyzer.typical_distance route
                                  * CommuteAnalyzer.frequency route) rs 0).
    { apply commuteMiles_nonneg. eapply Forall_impl; [|exact R].
      intros route [H _]. exact H. }
    split; [reflexivity|]. split; [now apply round2_nonneg|]. split.
    + apply round2_nonneg. unfold CommuteAnalyzer.calculateCommuteCost,
        CommuteAnalyzer.HOME_RATE_PER_KWH.
      set (miles := fold_left _ rs 0) in *.
      unfold Qdiv. change (/ 4) with (1 # 4). lra.
    + apply calculateAvgEfficiency_range. eapply Forall_impl; [|exact R].
      intros route [_ H]. exact H.
Qed.

Lemma analyzeCommutes_totals_witness :
  exists r,
    CommuteAnalyzer.analyzeCommutes Sample.tenDrives = Ok r
    /\ 0 <= CommuteAnalyzer.total_commute_miles r.
Proof.
  destruct (CommuteAnalyzer.analyzeCommutes Sample.tenDrives)
    as [r|msg] eqn:E; [|vm_compute in E; discriminate E].
  exists r. split; [reflexivity|].
  refine (proj1 (proj2 (analyzeCommutes_totals Sample.tenDrives r _ E))).
  unfold Sample.tenDrives, Sample.roundTrips.
  repeat constructor; simpl; discriminate.
Defined.

(** ** Charging sessions *)

Lemma tallySession_adds (b : ChargingAnalyzer.ByLocation)
    (s : ChargingAnalyzer.ChargingSession) :
  tallyCount (ChargingAnalyzer.tallySession b s) = (tallyCount b + 1)%Z
  /\ tallyCost (ChargingAnalyzer.tallySession b s)
     == tallyCost b + ChargingAnalyzer.cost_estimate s
  /\ tallyKwh (ChargingAnalyzer.tallySession b s)
     == tallyKwh b + ChargingAnalyzer.energy_added_kwh s.
Proof.
  unfold ChargingAnalyzer.tallySession, tallyCount, tallyCost, tallyKwh.
  destruct (ChargingAnalyzer.location_type s);
    cbn [ChargingAnalyzer.at_home ChargingAnalyzer.at_supercharger
         ChargingAnalyzer.at_public ChargingAnalyzer.at_work
         ChargingAnalyzer.at_unknown ChargingAnalyzer.tally
         ChargingAnalyzer.n_sessions ChargingAnalyzer.sum_cost
         ChargingAnalyzer.sum_kwh];
    (split; [lia|split; lra]).
Qed.

Lemma tallySession_fold (sessions : list ChargingAnalyzer.ChargingSession) :
  forall b,
    tallyCount (fold_left ChargingAnalyzer.tallySession sessions b)
    = (tallyCount b + Z.of_nat (List.length sessions))%Z
    /\ tallyCost (fold_left ChargingAnalyzer.tallySession sessions b)
       == tallyCost b + sum (map ChargingAnalyzer.cost_estimate sessions)
    /\ tallyKwh (fold_left ChargingAnalyzer.tallySession sessions b)
       == tallyKwh b + sum (map ChargingAnalyzer.energy_added_kwh sessions).
Proof.
  induction sessions as [|s sessions IH]; intro b.
  - cbn [fold_left map List.length]. unfold sum. simpl.
    split; [lia|split; lra].
  - cbn [fold_left map]. destruct (IH (ChargingAnalyzer.tallySession b s))
      as (C & K & W).
    destruct (tallySession_adds b s) as (C1 & K1 & W1).
    rewrite C, K, W, C1, K1, W1, !sum_cons.
    change (List.length (s :: sessions)) with (S (List.length sessions)).
    split; [lia|split; lra].
Qed.

Lemma generateRecommendations_lines (getHours : Q -> Z)
    (sessions : list ChargingAnalyzer.ChargingSession)
    (b : ChargingAnalyzer.ByLocation) :
  ChargingAnalyzer.generateRecommendations getHours sessions b <> []
  /\ ~ In ChargingAnalyzer.NoSessionsFound
          (ChargingAnalyzer.generateRecommendations getHours sessions b).
Proof.
  unfold ChargingAnalyzer.generateRecommendations.
  set (recs := (_ ++ _ ++ _ ++ _)%list).
  assert (N : ~ In ChargingAnalyzer.NoSessionsFound recs).
  { subst recs. intro I.
    repeat (apply in_app_or in I; destruct I as [I|I]);
      match type of I with
      | In _ (if ?c then _ else _) => destruct c
      end; simpl in I; intuition discriminate. }
  destruct recs as [|r recs'] eqn:E.
  - simpl. split; [discriminate|]. intros [H|[]]. discriminate H.
  - change (0 <? List.length (r :: recs'))%nat with true. cbv iota.
    split; [discriminate|exact N].
Qed.

(** X16. In the result of [analyzeChargingCosts] the five lines of the
    breakdown by location add up to the whole: their session counts to
    the number of sessions, their costs and their energy to the sums
    over the sessions.  The recommendations are never empty, and the
    no-sessions line appears exactly for an empty array. *)
Theorem analyzeChargingCosts_breakdown (getHours : Q -> Z)
    (rates : ChargingAnalyzer.ChargeRates)
    (sessions : list ChargingAnalyzer.ChargingSession) :
  let a := ChargingAnalyzer.analyzeChargingCosts getHours rates sessions in
  let b := ChargingAnalyzer.sessions_by_location a in
  ChargingAnalyzer.total_sessions a = Z.of_nat (List.length sessions)
  /\ tallyCount b = Z.of_nat (List.length sessions)
  /\ tallyCost b == sum (map ChargingAnalyzer.cost_estimate sessions)
  /\ tallyKwh b == sum (map ChargingAnalyzer.energy_added_kwh sessions)
  /\ ChargingAnalyzer.total_cost a == round2 (tallyCost b)
  /\ ChargingAnalyzer.total_kwh a == round2 (tallyKwh b)
  /\ ChargingAnalyzer.recommendations a <> []
  /\ (In ChargingAnalyzer.NoSessionsFound (ChargingAnalyzer.recommendations a)
      <-> sessions = []).
Proof.
  intros a b. subst b a. unfold ChargingAnalyzer.analyzeChargingCosts.
  destruct sessions as [|s0 rest].
  - cbn. repeat split; try reflexivity; try discriminate; auto.
  - set (sessions := s0 :: rest).
    change (List.length sessions =? 0)%nat with false. cbv iota.
    cbn [ChargingAnalyzer.total_sessions ChargingAnalyzer.sessions_by_location
         ChargingAnalyzer.total_cost ChargingAnalyzer.total_kwh
         ChargingAnalyzer.recommendations].
    destruct (tallySession_fold sessions ChargingAnalyzer.noSessions)
      as (C & K & W).
    change (tallyCount ChargingAnalyzer.noSessions) with 0%Z in C.
    assert (K' : tallyCost
                   (fold_left ChargingAnalyzer.tallySession sessions
                      ChargingAnalyzer.noSessions)
                 == sum (map ChargingAnalyzer.cost_estimate sessions)).
    { rewrite K. unfold tallyCost. simpl. lra. }
    assert (W' : tallyKwh
                   (fold_left ChargingAnalyzer.tallySession sessions
                      ChargingAnalyzer.noSessions)
                 == sum (map ChargingAnalyzer.energy_added_kwh sessions)).
    { rewrite W. unfold tallyKwh. simpl. lra. }
    destruct (generateRecommendations_lines getHours sessions
                (fold_left ChargingAnalyzer.tallySession sessions
                   ChargingAnalyzer.noSessions)) as [G1 G2].
    split; [reflexivity|]. split; [rewrite C; lia|].
    split; [exact K'|]. split; [exact W'|].
    split; [now rewrite (round2_compat _ _ K')|].
    split; [now rewrite (round2_compat _ _ W')|].
    split; [exact G1|]. split; [intro I; now apply G2 in I|discriminate].
Qed.

Lemma getCount_setCount (m : list (string * Z)) (k k' : string) (v : Z) :
  ChargingAnalyzer.getCount (ChargingAnalyzer.setCount m k v) k'
  = if String.eqb k k' then v else ChargingAnalyzer.getCount m k'.
Proof.
  induction m as [|[k0 v0] m IH];
    cbn [ChargingAnalyzer.setCount ChargingAnalyzer.getCount].
  - destruct (String.eqb_spec k k'); reflexivity.
  - destruct (String.eqb_spec k0 k) as [E|N].
    + subst k0. cbn [ChargingAnalyzer.getCount].
      destruct (String.eqb_spec k k'); reflexivity.
    + cbn [ChargingAnalyzer.getCount]. rewrite IH.
      destruct (String.eqb_spec k0 k') as [E'|N']; [|reflexivity].
      subst k0. destruct (String.eqb_spec k k'); [congruence|reflexivity].
Qed.

Lemma incl_add (set : list string) (x : string) :
  incl set (ChargingAnalyzer.add set x).
Proof.
  unfold ChargingAnalyzer.add. destruct (ChargingAnalyzer.has set x).
  - apply incl_refl.
  - apply incl_appl, incl_refl.
Qed.

Lemma grows_refl (st : ChargingAnalyzer.Learned) : grows st st.
Proof.
  split; [apply incl_refl|]. split; [apply incl_refl|]. intro k. lia.
Qed.

Lemma grows_trans (a b c : ChargingAnalyzer.Learned) :
  grows a b -> grows b c -> grows a c.
Proof.
  intros (H1 & W1 & C1) (H2 & W2 & C2).
  split; [eapply incl_tran; eassumption|].
  split; [eapply incl_tran; eassumption|].
  intro k. specialize (C1 k). specialize (C2 k). lia.
Qed.

(** X17. [classifyLocation] never forgets: known home and work
    locations stay and no count decreases.  It changes what it has
    learned only on a stay of more than 240 minutes, and adds a home
    location only when that location had already been counted more than
    five times.  It answers [public] only for stays strictly between 30
    and 240 minutes, and [unknown] only for stays of at most 30 minutes
    or of exactly 240; a stay under an hour with a gain above 40 points
    is a Supercharger. *)
Theorem classifyLocation_cases (st : ChargingAnalyzer.Learned)
    (location : string) (duration batteryGained : Q) :
  let t := fst (ChargingAnalyzer.classifyLocation
                  st location duration batteryGained) in
  let st' := snd (ChargingAnalyzer.classifyLocation
                    st location duration batteryGained) in
  grows st st'
  /\ (duration <= 240 -> st' = st)
  /\ (ChargingAnalyzer.homeLocations st' = ChargingAnalyzer.homeLocations st
      \/ (5 < ChargingAnalyzer.getCount
                (ChargingAnalyzer.frequentLocations st) location)%Z
         /\ t = ChargingAnalyzer.home)
  /\ (t = ChargingAnalyzer.public -> 30 < duration /\ duration < 240)
  /\ (t = ChargingAnalyzer.unknown -> duration <= 30 \/ duration == 240)
  /\ (duration < 60 -> 40 < batteryGained -> t = ChargingAnalyzer.supercharger).
Proof.
  intros t st'. subst t st'. unfold ChargingAnalyzer.classifyLocation.
  destruct (_ || _)%bool.
  { cbn [fst snd]. split; [apply grows_refl|].
    repeat split; try discriminate; auto. }
  destruct (ltb duration 60 && gtb batteryGained 40)%bool eqn:Fast.
  { cbn [fst snd]. split; [apply grows_refl|].
    repeat split; try discriminate; auto. }
  assert (NotFast : duration < 60 -> 40 < batteryGained -> False).
  { intros A B. apply andb_false_iff in Fast.
    destruct Fast as [F|F]; [apply ltb_ge in F|apply gtb_le in F]; lra. }
  destruct (ChargingAnalyzer.has (ChargingAnalyzer.homeLocations st) location).
  { cbn [fst snd]. split; [apply grows_refl|].
    repeat split; try discriminate; auto; intros; exfalso; auto. }
  destruct (ChargingAnalyzer.has (ChargingAnalyzer.workLocations st) location).
  { cbn [fst snd]. split; [apply grows_refl|].
    repeat split; try discriminate; auto; intros; exfalso; auto. }
  destruct (gtb duration 240) eqn:Long.
  - apply gtb_gt in Long.
    assert (G : forall homes,
               incl (ChargingAnalyzer.homeLocations st) homes ->
               grows st
                 {| ChargingAnalyzer.homeLocations := homes;
                    ChargingAnalyzer.workLocations :=
                      ChargingAnalyzer.workLocations st;
                    ChargingAnalyzer.frequentLocations :=
                      ChargingAnalyzer.setCount
                        (ChargingAnalyzer.frequentLocations st) location
                        (ChargingAnalyzer.getCount
                           (ChargingAnalyzer.frequentLocations st) location
                         + 1) |}).
    { intros homes I. split; [exact I|]. split; [apply incl_refl|].
      intro k. cbn [ChargingAnalyzer.frequentLocations].
      rewrite getCount_setCount.
      destruct (String.eqb_spec location k) as [E|N]; [subst k|]; lia. }
    destruct (5 <? _)%Z eqn:Often.
    + apply Z.ltb_lt in Often. cbn [fst snd].
      split; [apply G; cbn [ChargingAnalyzer.homeLocations]; apply incl_add|].
      split; [intro; exfalso; lra|].
      split; [right; now split|].
      repeat split; try discriminate; intros; exfalso; lra.
    + cbn [fst snd]. split; [apply G, incl_refl|].
      split; [intro; exfalso; lra|].
      split; [now left|].
      destruct (gtb duration 480);
        repeat split; try discriminate; intros; exfalso; lra.
  - apply gtb_le in Long.
    destruct (gtb duration 30 && ltb duration 240)%bool eqn:Mid.
    + apply andb_true_iff in Mid. destruct Mid as [M1 M2].
      apply gtb_gt in M1. apply ltb_lt in M2. cbn [fst snd].
      split; [apply grows_refl|].
      split; [reflexivity|]. split; [now left|].
      split; [now split|]. split; [discriminate|].
      intros A B. exfalso. auto.
    + cbn [fst snd]. split; [apply grows_refl|].
      split; [reflexivity|]. split; [now left|].
      split; [discriminate|]. split.
      * intros _. apply andb_false_iff in Mid.
        destruct Mid as [M|M]; [apply gtb_le in M|apply ltb_ge in M].
        -- now left.
        -- right. lra.
      * intros A B. exfalso. auto.
Qed.

Lemma classifyLocation_grows (st : ChargingAnalyzer.Learned)
    (location : string) (duration batteryGained : Q) :
  grows st (snd (ChargingAnalyzer.classifyLocation
                   st location duration batteryGained)).
Proof.
  unfold ChargingAnalyzer.classifyLocation.
  repeat match goal with
         | |- context [if ?c then _ else _] => destruct c
         end;
    cbn [snd]; try apply grows_refl;
    (split; [cbn [ChargingAnalyzer.homeLocations];
             first [apply incl_add|apply incl_refl]|];
     split; [apply incl_refl|];
     intro k; cbn [ChargingAnalyzer.frequentLocations];
     rewrite getCount_setCount;
     destruct (String.eqb_spec location k) as [E|N]; [subst k|]; lia).
Qed.

Section ChargingFacts.

Variable getHours : Q -> Z.
Variable rates : ChargingAnalyzer.ChargeRates.

Let createChargingSession :=
  ChargingAnalyzer.createChargingSession getHours rates.
Let detectLoop := ChargingAnalyzer.detectLoop getHours rates.
Let detectChargingSessions :=
  ChargingAnalyzer.detectChargingSessions getHours rates.

Lemma createChargingSession_fields (st : ChargingAnalyzer.Learned)
    (prev next : TessieDrive) :
  let s := fst (createChargingSession st prev next
                  (starting_battery next - ending_battery prev)) in
  ChargingAnalyzer.c_started_at s = ended_at prev
  /\ ChargingAnalyzer.c_ended_at s = started_at next
  /\ ChargingAnalyzer.c_location s = ending_location prev
  /\ ChargingAnalyzer.c_starting_battery s = ending_battery prev
  /\ ChargingAnalyzer.c_ending_battery s = starting_battery next
  /\ (2 < starting_battery next - ending_battery prev -> soundSession s)
  /\ grows st (snd (createChargingSession st prev next
                      (starting_battery next - ending_battery prev))).
Proof.
  subst createChargingSession. unfold ChargingAnalyzer.createChargingSession.
  pose proof (classifyLocation_grows st (ending_location prev)
                ((started_at next - ended_at prev) / 60)
                (starting_battery next - ending_battery prev)) as G.
  destruct (ChargingAnalyzer.classifyLocation _ _ _ _) as [t st1].
  cbn [fst snd] in *.
  cbn [ChargingAnalyzer.c_started_at ChargingAnalyzer.c_ended_at
       ChargingAnalyzer.c_location ChargingAnalyzer.c_starting_battery
       ChargingAnalyzer.c_ending_battery].
  repeat (split; [reflexivity|]). split; [|exact G].
  intro Gain. unfold soundSession, sessionEnergy.
  cbn [ChargingAnalyzer.c_started_at ChargingAnalyzer.c_ended_at
       ChargingAnalyzer.c_starting_battery ChargingAnalyzer.c_ending_battery
       ChargingAnalyzer.energy_added_kwh ChargingAnalyzer.miles_added
       ChargingAnalyzer.cost_estimate ChargingAnalyzer.cost_per_kwh
       ChargingAnalyzer.c_duration_minutes].
  split; [exact Gain|]. repeat (split; [apply round2_withinCent|]).
  rewrite <- (round2_hundredths 150 1.5) by reflexivity.
  apply round2_mono. unfold Qdiv. change (/ 100) with (1 # 100). lra.
Qed.

Lemma createChargingSession_closes (st : ChargingAnalyzer.Learned)
    (prev next : TessieDrive) (batteryGained : Q) :
  closes (fst (createChargingSession st prev next batteryGained)) (prev, next).
Proof.
  subst createChargingSession. unfold ChargingAnalyzer.createChargingSession.
  destruct (ChargingAnalyzer.classifyLocation _ _ _ _) as [t st1].
  unfold closes. cbn [fst snd]. now repeat split.
Qed.

Lemma detectLoop_step (st : ChargingAnalyzer.Learned)
    (prev d : TessieDrive) (rest : list TessieDrive) :
  detectLoop st prev (d :: rest)
  = if gtb (starting_battery d - ending_battery prev) 2
    then
      let c := createChargingSession st prev d
                 (starting_battery d - ending_battery prev) in
      (fst c :: fst (detectLoop (snd c) d rest),
       snd (detectLoop (snd c) d rest))
    else detectLoop st d rest.
Proof.
  subst detectLoop createChargingSession.
  cbn [ChargingAnalyzer.detectLoop].
  destruct (gtb (starting_battery d - ending_battery prev) 2); [|reflexivity].
  cbv zeta.
  destruct (ChargingAnalyzer.createChargingSession _ _ _ _ _ _) as [s st1].
  cbn [fst snd].
  destruct (ChargingAnalyzer.detectLoop _ _ _ _ _) as [ss st2].
  reflexivity.
Qed.

Lemma detectLoop_sound (rest : list TessieDrive) :
  forall st prev,
    Forall soundSession (fst (detectLoop st prev rest))
    /\ (List.length (fst (detectLoop st prev rest)) <= List.length rest)%nat
    /\ grows st (snd (detectLoop st prev rest))
    /\ sum (map sessionEnergy (fst (detectLoop st prev rest)))
       == gapEnergyFrom prev rest.
Proof.
  induction rest as [|d rest IH]; intros st prev.
  - subst detectLoop. cbn. split; [constructor|].
    split; [lia|]. split; [apply grows_refl|reflexivity].
  - rewrite detectLoop_step. cbn [gapEnergyFrom].
    destruct (gtb (starting_battery d - ending_battery prev) 2) eqn:G.
    + apply gtb_gt in G. cbv zeta.
      destruct (createChargingSession_fields st prev d)
        as (_ & _ & _ & B0 & B1 & S & Gr).
      set (c := createChargingSession st prev d
                  (starting_battery d - ending_battery prev)) in *.
      destruct (IH (snd c) d) as (F & L & Gr' & E).
      cbn [fst snd map List.length].
      split; [constructor; [now apply S|exact F]|].
      split; [lia|]. split; [exact (grows_trans _ _ _ Gr Gr')|].
      rewrite sum_cons, E. unfold sessionEnergy at 1. rewrite B0, B1.
      unfold TripCalculator.BATTERY_CAPACITY_KWH. lra.
    + destruct (IH st d) as (F & L & Gr & E).
      split; [exact F|]. split; [cbn [List.length]; lia|].
      split; [exact Gr|]. rewrite E. lra.
Qed.

Lemma detectLoop_finds (rest : list TessieDrive) :
  forall st prev a b,
    adjacentIn a b (prev :: rest) ->
    2 < starting_battery b - ending_battery a ->
    exists s,
      In s (fst (detectLoop st prev rest))
      /\ ChargingAnalyzer.c_started_at s = ended_at a
      /\ ChargingAnalyzer.c_ended_at s = started_at b
      /\ ChargingAnalyzer.c_location s = ending_location a.
Proof.
  induction rest as [|d rest IH]; intros st prev a b (front & back & E) Gain.
  - destruct front as [|x [|y front]]; discriminate E.
  - rewrite detectLoop_step.
    destruct front as [|x front].
    + injection E as -> -> _.
      assert (G : gtb (starting_battery b - ending_battery a) 2 = true).
      { destruct (gtb _ 2) eqn:G; [reflexivity|].
        apply gtb_le in G. lra. }
      rewrite G. cbv zeta.
      destruct (createChargingSession_fields st a b) as (F1 & F2 & F3 & _).
      eexists. split; [now left|]. now repeat split.
    + injection E as -> E.
      assert (A : adjacentIn a b (d :: rest)) by (now exists front, back).
      destruct (gtb (starting_battery d - ending_battery x) 2).
      * cbv zeta.
        destruct (IH (snd (createChargingSession st x d
                             (starting_battery d - ending_battery x)))
                     d a b A Gain) as (s & I & F).
        exists s. split; [now right|exact F].
      * exact (IH st d a b A Gain).
Qed.

Lemma detectLoop_closes (rest : list TessieDrive) :
  forall st prev,
    Forall2 closes (fst (detectLoop st prev rest))
            (filter charged (pairsFrom prev rest)).
Proof.
  induction rest as [|d rest IH]; intros st prev.
  - subst detectLoop. cbn. constructor.
  - rewrite detectLoop_step. cbn [pairsFrom filter].
    unfold charged at 1. cbn [fst snd].
    destruct (gtb (starting_battery d - ending_battery prev) 2).
    + cbv zeta. cbn [fst]. constructor.
      * apply createChargingSession_closes.
      * apply IH.
    + apply IH.
Qed.

End ChargingFacts.

(** X18. [detectChargingSessions] reports, in order, one session for
    each gap between consecutive drives of the start order over which the
    battery rose by more than 2 points, and nothing else: the session is
    named after the two drives, lasts from the end of the first to the
    start of the second, and carries their battery levels.  Its energy,
    miles, cost and duration are, to the cent, 0.75 kWh per point, 4
    miles per kWh, the energy at the session's rate and the minutes of
    the gap, and its energy is at least 1.5 kWh.  There are no more
    sessions than gaps between drives, what the analyzer has learned only
    grows, and the energy of the sessions, before rounding, is the
    charging energy that the trip cost estimate finds in the same
    gaps. *)
Theorem detectChargingSessions_sound (getHours : Q -> Z)
    (rates : ChargingAnalyzer.ChargeRates) (st : ChargingAnalyzer.Learned)
    (drives : list TessieDrive) :
  let r := ChargingAnalyzer.detectChargingSessions getHours rates st drives in
  Forall2 closes (fst r) (filter charged (gapsOf (sortDrives drives)))
  /\ Forall soundSession (fst r)
  /\ (List.length (fst r) <= List.length drives - 1)%nat
  /\ grows st (snd r)
  /\ sum (map sessionEnergy (fst r)) == gapEnergy (sortDrives drives).
Proof.
  intro r. subst r. unfold ChargingAnalyzer.detectChargingSessions.
  pose proof (sortDrives_length drives) as L.
  destruct (sortDrives drives) as [|f rest].
  - cbn. split; [constructor|]. split; [constructor|]. split; [lia|].
    split; [apply grows_refl|reflexivity].
  - destruct (detectLoop_sound getHours rates rest st f) as (F & N & G & E).
    cbn [gapEnergy gapsOf]. cbn [List.length] in L.
    split; [apply detectLoop_closes|].
    split; [exact F|]. split; [lia|]. split; [exact G|exact E].
Qed.

Lemma collectStops_adjacent (g : list TessieDrive) (stop : DriveStop) :
  In stop (collectStops g) ->
  exists a b, adjacentIn a b g /\ In stop (stopBetween a b).
Proof.
  induction g as [|a g IH]; [intros []|].
  destruct g as [|b g]; [intros []|].
  rewrite collectStops_step. intro I. apply in_app_or in I.
  destruct I as [I|I].
  - exists a, b. split; [now exists [], g|exact I].
  - destruct (IH I) as (x & y & (front & back & E) & S).
    exists x, y. split; [|exact S].
    exists (a :: front), back. now rewrite E.
Qed.

Lemma adjacentIn_concat {A : Type} (a b : A) (block : list A)
    (blocks : list (list A)) :
  In block blocks -> adjacentIn a b block ->
  adjacentIn a b (List.concat blocks).
Proof.
  intros I (front & back & E).
  apply in_split in I. destruct I as (before & after & ->).
  rewrite concat_app. cbn [List.concat]. rewrite E.
  exists (List.concat before ++ front)%list, (back ++ List.concat after)%list.
  rewrite <- !app_assoc. reflexivity.
Qed.

(** X19. Every charging stop inside a merged drive is also a charging
    session of the detector: the session spans the same gap, from the
    end of one drive to the start of the next, at the same location. *)
Theorem chargingStops_are_sessions (getHours : Q -> Z)
    (rates : ChargingAnalyzer.ChargeRates) (st : ChargingAnalyzer.Learned)
    (drives : list TessieDrive) :
  exists out,
    mergeDrives drives = Ok out
    /\ forall m stop,
         In m out -> In stop (stops m) -> stop_type stop = charging ->
         exists s,
           In s (fst (ChargingAnalyzer.detectChargingSessions
                        getHours rates st drives))
           /\ ChargingAnalyzer.c_started_at s = stop_started_at stop
           /\ ChargingAnalyzer.c_ended_at s = stop_ended_at stop
           /\ ChargingAnalyzer.c_location s = location stop.
Proof.
  rewrite mergeDrives_segments. eexists. split; [reflexivity|].
  unfold ChargingAnalyzer.detectChargingSessions.
  destruct (sortDrives drives) as [|f rest]; [intros m stop []|].
  intros m stop Im Is T.
  apply in_map_iff in Im. destruct Im as (g & <- & Ig).
  change (stops (mergedOf g)) with (collectStops (members g)) in Is.
  destruct (collectStops_adjacent _ _ Is) as (a & b & Adj & Sb).
  assert (Adj' : adjacentIn a b (f :: rest)).
  { change (f :: rest) with (f :: [] ++ rest)%list.
    rewrite <- (segments_concat rest f f []).
    apply (adjacentIn_concat a b (members g)); [|exact Adj].
    now apply in_map. }
  unfold stopBetween in Sb.
  destruct (gtb ((started_at b - ended_at a) / 60) 0); [|destruct Sb].
  destruct Sb as [<-|[]].
  cbn [stop_type stop_started_at stop_ended_at location] in *.
  assert (Gain : 2 < starting_battery b - ending_battery a).
  { destruct (gtb (starting_battery b - ending_battery a) 5) eqn:G.
    - apply gtb_gt in G. lra.
    - destruct (ltb _ 7) in T; discriminate T. }
  exact (detectLoop_finds getHours rates rest st f a b Adj' Gain).
Qed.

(** ** Autopilot figures of merged drives *)

Lemma buildMerged_autopilot (f : TessieDrive) (os : list TessieDrive) :
  Forall (fun d => 0 <= odometer_distance d) (f :: os) ->
  0 <= total_distance (buildMerged f os)
  /\ 0 <= autopilot_distance (buildMerged f os)
  /\ autopilot_distance (buildMerged f os)
     <= 0.9 * total_distance (buildMerged f os) + (1 # 200)
  /\ 0 <= autopilot_percentage (buildMerged f os).
Proof.
  intro F. unfold buildMerged.
  cbn [total_distance autopilot_distance autopilot_percentage].
  set (total := sum (map odometer_distance (f :: os))).
  assert (T : 0 <= total).
  { subst total. apply sum_nonneg. now apply Forall_map. }
  pose proof (round2_nonneg total T) as RT.
  match goal with
  | |- context [predictAutopilotUsage ?d ?a ?m ?t] =>
      destruct (predictAutopilotUsage_form d a m t) as [E|(l & L & _ & E)];
      set (p := predictAutopilotUsage d a m t) in *
  end.
  - rewrite E. split; [exact RT|]. split; [lra|]. split; [lra|].
    destruct (gtb total 0); [|lra].
    apply Qle_shift_div_l; [reflexivity|].
    change (0 * 100) with (inject_Z 0). rewrite <- Zle_Qle.
    apply Math_round_nonneg. unfold Qdiv. rewrite Qmult_0_l. lra.
  - assert (P0 : 0 <= p) by (rewrite E; apply round2_nonneg; nra).
    split; [exact RT|]. split; [exact P0|]. split.
    + rewrite E. pose proof (round2_upper (round2 total * l)). nra.
    + destruct (gtb total 0) eqn:G; [|lra]. apply gtb_gt in G.
      apply Qle_shift_div_l; [reflexivity|].
      change (0 * 100) with (inject_Z 0). rewrite <- Zle_Qle.
      apply Math_round_nonneg.
      assert (0 <= p / total) by (apply Qle_shift_div_l; lra).
      lra.
Qed.

(** X20. When no drive has a negative distance, every merged drive has
    a non-negative total distance, a non-negative autopilot distance
    that exceeds nine tenths of the total by at most half a hundredth,
    and a non-negative autopilot percentage. *)
Theorem mergeDrives_autopilot (drives : list TessieDrive)
    (out : list MergedDrive) :
  Forall (fun d => 0 <= odometer_distance d) drives ->
  mergeDrives drives = Ok out ->
  Forall (fun m =>
            0 <= total_distance m
            /\ 0 <= autopilot_distance m
            /\ autopilot_distance m <= 0.9 * total_distance m + (1 # 200)
            /\ 0 <= autopilot_percentage m)
         out.
Proof.
  intro D. rewrite mergeDrives_segments. intro E. injection E as <-.
  pose proof (sortDrives_perm drives) as P.
  destruct (sortDrives drives) as [|f rest]; [constructor|].
  apply Forall_map. apply Forall_forall. intros [g os] I.
  apply buildMerged_autopilot.
  apply Forall_forall. intros d Id.
  rewrite Forall_forall in D. apply D.
  apply (Permutation_in _ P).
  exact (segments_members_in f rest (g, os) d I Id).
Qed.

Lemma mergeDrives_autopilot_witness :
  exists out,
    mergeDrives Sample.morning = Ok out
    /\ Forall (fun m => 0 <= autopilot_distance m) out.
Proof.
  eexists. split; [reflexivity|].
  eapply Forall_impl;
    [|refine (mergeDrives_autopilot Sample.morning _ _ eq_refl)].
  - intros m (_ & H & _). exact H.
  - unfold Sample.morning. repeat constructor; simpl; discriminate.
Defined.

(** ** Learned locations *)

Lemma has_false (set : list string) (x : string) :
  ChargingAnalyzer.has set x = false -> ~ In x set.
Proof.
  unfold ChargingAnalyzer.has. intros H I.
  assert (E : existsb (String.eqb x) set = true).
  { apply existsb_exists. exists x. split; [exact I|apply String.eqb_refl]. }
  congruence.
Qed.

Lemma add_cases (set : list string) (x : string) :
  ChargingAnalyzer.add set x = set
  \/ (~ In x set /\ ChargingAnalyzer.add set x = (set ++ [x])%list).
Proof.
  unfold ChargingAnalyzer.add.
  destruct (ChargingAnalyzer.has set x) eqn:H; [now left|right].
  split; [now apply has_false|reflexivity].
Qed.

Lemma learnedWorks_fold (homes : list string)
    (entries : list (string * ChargingAnalyzer.Stay)) :
  forall (known works : list string),
    incl known works ->
    (forall w, In w works -> In w known \/ ~ In w homes) ->
    let works' :=
      fold_left
        (fun works entry =>
           if (10 <? ChargingAnalyzer.stay_count (snd entry))%Z
              && gtb (ChargingAnalyzer.stay_duration (snd entry)
                      / inject_Z (ChargingAnalyzer.stay_count (snd entry))) 6
              && negb (ChargingAnalyzer.has homes (fst entry))
           then ChargingAnalyzer.add works (fst entry) else works)
        entries works in
    incl known works'
    /\ (forall w, In w works' -> In w known \/ ~ In w homes).
Proof.
  induction entries as [|e entries IH]; intros known works I N;
    cbn [fold_left]; [now split|].
  apply IH.
  - destruct (_ && _ && _)%bool; [|exact I].
    eapply incl_tran; [exact I|apply incl_add].
  - intros w Iw.
    destruct ((10 <? _)%Z && _ && negb (ChargingAnalyzer.has homes (fst e)))%bool
      eqn:C; [|now apply N].
    apply andb_true_iff in C. destruct C as [_ C].
    apply negb_true_iff in C.
    destruct (add_cases works (fst e)) as [E|[_ E]]; rewrite E in Iw;
      [now apply N|].
    apply in_app_or in Iw. destruct Iw as [Iw|[<-|[]]]; [now apply N|].
    right. now apply has_false.
Qed.

(** X21. [learnLocations] never forgets a home or work location and
    leaves the counts alone.  It adds at most one home location, never
    the empty one, and every work location it adds is not among the home
    locations.  With fewer than two drives it learns nothing. *)
Theorem learnLocations_grows (getHours : Q -> Z)
    (st : ChargingAnalyzer.Learned) (drives : list TessieDrive) :
  let st' := ChargingAnalyzer.learnLocations getHours st drives in
  grows st st'
  /\ ChargingAnalyzer.frequentLocations st'
     = ChargingAnalyzer.frequentLocations st
  /\ (ChargingAnalyzer.homeLocations st' = ChargingAnalyzer.homeLocations st
      \/ exists h,
           h <> EmptyString
           /\ ~ In h (ChargingAnalyzer.homeLocations st)
           /\ ChargingAnalyzer.homeLocations st'
              = (ChargingAnalyzer.homeLocations st ++ [h])%list)
  /\ (forall w,
        In w (ChargingAnalyzer.workLocations st') ->
        In w (ChargingAnalyzer.workLocations st)
        \/ ~ In w (ChargingAnalyzer.homeLocations st'))
  /\ ((List.length drives <= 1)%nat ->
      ChargingAnalyzer.homeLocations st' = ChargingAnalyzer.homeLocations st
      /\ ChargingAnalyzer.workLocations st'
         = ChargingAnalyzer.workLocations st).
Proof.
  intro st'. subst st'. unfold ChargingAnalyzer.learnLocations.
  set (freq := match drives with
               | [] => []
               | first :: rest => ChargingAnalyzer.stayLoop getHours first rest []
               end).
  set (h := ChargingAnalyzer.mostOvernights freq).
  set (homes := if String.eqb h EmptyString
                then ChargingAnalyzer.homeLocations st
                else ChargingAnalyzer.add (ChargingAnalyzer.homeLocations st) h).
  cbn [ChargingAnalyzer.homeLocations ChargingAnalyzer.workLocations
       ChargingAnalyzer.frequentLocations].
  destruct (learnedWorks_fold homes freq
              (ChargingAnalyzer.workLocations st)
              (ChargingAnalyzer.workLocations st))
    as [WI WN]; [apply incl_refl|intros w Iw; now left|].
  assert (HI : incl (ChargingAnalyzer.homeLocations st) homes).
  { subst homes. destruct (String.eqb h EmptyString);
      [apply incl_refl|apply incl_add]. }
  split; [|split; [reflexivity|split; [|split; [exact WN|]]]].
  - split; [exact HI|]. split; [exact WI|]. intro k.
    cbn [ChargingAnalyzer.frequentLocations]. lia.
  - subst homes. destruct (String.eqb_spec h EmptyString) as [E|N];
      [now left|].
    destruct (add_cases (ChargingAnalyzer.homeLocations st) h) as [E|[M E]];
      [now left|].
    right. exists h. now repeat split.
  - intro L.
    assert (F : freq = []).
    { subst freq. destruct drives as [|d [|d' rest]]; try reflexivity.
      simpl in L. lia. }
    subst homes h. rewrite F. split; reflexivity.
Qed.

(** ** Potential savings *)

Lemma superchargerKwh_nonneg (sessions : list ChargingAnalyzer.ChargingSession) :
  forall b,
    Forall (fun s => 0 <= ChargingAnalyzer.energy_added_kwh s) sessions ->
    0 <= ChargingAnalyzer.sum_kwh (ChargingAnalyzer.at_supercharger b) ->
    0 <= ChargingAnalyzer.sum_kwh
           (ChargingAnalyzer.at_supercharger
              (fold_left ChargingAnalyzer.tallySession sessions b)).
Proof.
  induction sessions as [|s sessions IH]; intros b F B; [exact B|].
  inversion F as [|? ? Fs F']; subst. cbn [fold_left].
  apply IH; [exact F'|].
  unfold ChargingAnalyzer.tallySession.
  destruct (ChargingAnalyzer.location_type s);
    cbn [ChargingAnalyzer.at_supercharger ChargingAnalyzer.tally
         ChargingAnalyzer.sum_kwh]; lra.
Qed.

(** X22. When the sessions add no negative energy, the Supercharger
    rate is at least the home rate it is compared with and the peak rate
    is at least the off-peak rate, the potential savings that
    [analyzeChargingCosts] reports are not negative. *)
Theorem potential_savings_nonneg (getHours : Q -> Z)
    (rates : ChargingAnalyzer.ChargeRates)
    (sessions : list ChargingAnalyzer.ChargingSession) :
  Forall (fun s => 0 <= ChargingAnalyzer.energy_added_kwh s) sessions ->
  orderedRates rates ->
  0 <= ChargingAnalyzer.potential_savings
         (ChargingAnalyzer.analyzeChargingCosts getHours rates sessions).
Proof.
  intros F R. unfold ChargingAnalyzer.analyzeChargingCosts.
  destruct (List.length sessions =? 0)%nat; [simpl; lra|].
  cbn [ChargingAnalyzer.potential_savings]. apply round2_nonneg.
  unfold ChargingAnalyzer.calculatePotentialSavings.
  assert (K0 : 0 <= ChargingAnalyzer.sum_kwh
                      (ChargingAnalyzer.at_supercharger
                         (fold_left ChargingAnalyzer.tallySession sessions
                            ChargingAnalyzer.noSessions))).
  { apply superchargerKwh_nonneg; [exact F|simpl; lra]. }
  set (kwh := ChargingAnalyzer.sum_kwh _) in *.
  assert (P : 0 <= sum (map ChargingAnalyzer.energy_added_kwh
                          (filter (ChargingAnalyzer.peakHome getHours)
                                  sessions))).
  { apply sum_nonneg. apply Forall_map. apply Forall_forall.
    intros s I. apply filter_In in I. rewrite Forall_forall in F.
    apply F. tauto. }
  set (peakKwh := sum _) in *.
  unfold orderedRates in R.
  destruct (ChargingAnalyzer.time_of_use rates) as [[offPeak peak]|].
  - destruct R as [R1 R2].
    set (homeRate := if eqb offPeak 0 then _ else offPeak) in *. nra.
  - nra.
Qed.

Lemma potential_savings_nonneg_witness :
  0 <= ChargingAnalyzer.potential_savings
         (ChargingAnalyzer.analyzeChargingCosts (fun _ => 12%Z)
            ChargingAnalyzer.defaultRates
            (fst (ChargingAnalyzer.detectChargingSessions (fun _ => 12%Z)
                    ChargingAnalyzer.defaultRates
                    ChargingAnalyzer.noLocations Sample.topUp))).
Proof.
  apply potential_savings_nonneg.
  - vm_compute. repeat constructor; discriminate.
  - vm_compute. split; discriminate.
Defined.

(** ** Route keys and groups *)

Lemma split_parts_commaFree (s : string) :
  Forall (fun p => commaFree p = true) (Str.split "," s).
Proof.
  induction s as [|c s IH]; cbn [Str.split].
  - repeat constructor.
  - destruct (Ascii.eqb c ",") eqn:C.
    + constructor; [reflexivity|exact IH].
    + destruct (Str.split "," s) as [|p ps].
      * constructor; [|constructor]. cbn [commaFree]. now rewrite C.
      * inversion IH as [|? ? Hp Hps]; subst.
        constructor; [|exact Hps]. cbn [commaFree]. now rewrite C, Hp.
Qed.

Lemma trimStart_commaFree (s : string) :
  commaFree s = true -> commaFree (Str.trimStart s) = true.
Proof.
  induction s as [|c s IH]; [reflexivity|].
  intro H. cbn [Str.trimStart].
  destruct (Str.isWhite c); [|exact H].
  cbn [commaFree] in H. apply andb_true_iff in H. now apply IH.
Qed.

Lemma trimEnd_commaFree (s : string) :
  commaFree s = true -> commaFree (Str.trimEnd s) = true.
Proof.
  induction s as [|c s IH]; [reflexivity|].
  intro H. cbn [commaFree] in H. apply andb_true_iff in H.
  destruct H as [C F]. specialize (IH F). cbn [Str.trimEnd].
  destruct (Str.trimEnd s) as [|c' t].
  - destruct (Str.isWhite c); [reflexivity|].
    cbn [commaFree]. now rewrite C.
  - cbn [commaFree] in *. now rewrite C, IH.
Qed.

Lemma trim_commaFree (s : string) :
  commaFree s = true -> commaFree (Str.trim s) = true.
Proof.
  intro H. unfold Str.trim. now apply trimEnd_commaFree, trimStart_commaFree.
Qed.

Lemma part_commaFree (s : string) (i : nat) :
  commaFree (CommuteAnalyzer.part (Str.split "," s) i) = true.
Proof.
  unfold CommuteAnalyzer.part.
  destruct (nth_in_or_default i (Str.split "," s) EmptyString) as [I|E].
  - pose proof (split_parts_commaFree s) as F.
    rewrite Forall_forall in F. now apply F.
  - now rewrite E.
Qed.

Lemma split_two_parts (x y : string) :
  commaFree x = true -> commaFree y = true ->
  Str.split "," (x ++ ", " ++ y) = [x; (" " ++ y)%string].
Proof.
  intros X Y.
  change (x ++ ", " ++ y)%string with (x ++ String "," (" " ++ y))%string.
  rewrite split_app, (split_commaFree x X).
  rewrite (split_commaFree (" " ++ y)); [reflexivity|].
  cbn [append commaFree]. exact Y.
Qed.

Lemma normalizeLocation_twice (location : string) :
  CommuteAnalyzer.normalizeLocation (CommuteAnalyzer.normalizeLocation location)
  = CommuteAnalyzer.normalizeLocation location.
Proof.
  destruct (3 <=? List.length (Str.split "," location))%nat eqn:L.
  - assert (E : CommuteAnalyzer.normalizeLocation location
                = (Str.trim (CommuteAnalyzer.part (Str.split "," location)
                               (List.length (Str.split "," location) - 3))
                   ++ ", "
                   ++ Str.trim (CommuteAnalyzer.part (Str.split "," location)
                                  (List.length (Str.split "," location) - 2)))
                  %string).
    { unfold CommuteAnalyzer.normalizeLocation. now rewrite L. }
    rewrite E. apply normalizeLocation_short.
    rewrite split_two_parts; [simpl; lia| |];
      apply trim_commaFree, part_commaFree.
  - apply Nat.leb_gt in L.
    rewrite (normalizeLocation_short location L).
    now apply normalizeLocation_short.
Qed.

(** X23. Normalizing a location is idempotent: a normalized label has
    fewer than three comma-separated parts and is kept whole, so the
    route key computed from normalized endpoints is the key of the
    original endpoints. *)
Theorem normalizeLocation_idempotent (a b : string) :
  CommuteAnalyzer.normalizeLocation (CommuteAnalyzer.normalizeLocation a)
  = CommuteAnalyzer.normalizeLocation a
  /\ CommuteAnalyzer.generateRouteId (CommuteAnalyzer.normalizeLocation a)
                                     (CommuteAnalyzer.normalizeLocation b)
     = CommuteAnalyzer.generateRouteId a b
  /\ ((3 <= List.length (Str.split "," a))%nat ->
      List.length (Str.split "," (CommuteAnalyzer.normalizeLocation a))
      = 2%nat).
Proof.
  split; [apply normalizeLocation_twice|]. split.
  - unfold CommuteAnalyzer.generateRouteId.
    now rewrite !normalizeLocation_twice.
  - intro L. unfold CommuteAnalyzer.normalizeLocation.
    apply Nat.leb_le in L. rewrite L.
    rewrite split_two_parts; [reflexivity| |];
      apply trim_commaFree, part_commaFree.
Qed.

Lemma pushDrive_perm (k : string) (d : TessieDrive)
    (routes : list (string * list TessieDrive)) :
  Permutation (List.concat (map snd (CommuteAnalyzer.pushDrive k d routes)))
              (d :: List.concat (map snd routes)).
Proof.
  induction routes as [|[k' ds] routes IH]; cbn [CommuteAnalyzer.pushDrive].
  - reflexivity.
  - destruct (String.eqb k' k); cbn [map snd List.concat].
    + rewrite <- app_assoc. cbn [app].
      apply Permutation_sym, Permutation_middle.
    + rewrite IH. apply Permutation_sym, Permutation_middle.
Qed.

Lemma groupLoop_perm (drives : list TessieDrive) :
  forall routes,
    Permutation
      (List.concat
         (map snd
            (fold_left
               (fun routes drive =>
                  CommuteAnalyzer.pushDrive
                    (CommuteAnalyzer.generateRouteId
                       (starting_location drive) (ending_location drive))
                    drive routes)
               drives routes)))
      (List.concat (map snd routes) ++ drives).
Proof.
  induction drives as [|d ds IH]; intro routes; cbn [fold_left].
  - now rewrite app_nil_r.
  - rewrite IH, pushDrive_perm. cbn [app].
    apply Permutation_middle.
Qed.

Lemma blocks_length {A : Type} (blocks : list (list A)) :
  Forall (fun b => b <> []) blocks ->
  (List.length blocks <= List.length (List.concat blocks))%nat.
Proof.
  induction 1 as [|b blocks N _ IH]; [simpl; lia|].
  cbn [List.concat List.length]. rewrite length_app.
  destruct b; [congruence|]. cbn [List.length]. lia.
Qed.

(** X24. [groupDrivesByRoute] partitions the drives: every drive is in
    exactly one group, no group is empty, no two groups share a key, and
    a group holds, in their order, the drives that carry its key.  There
    are no more groups than drives. *)
Theorem groupDrivesByRoute_partition (drives : list TessieDrive) :
  let groups := CommuteAnalyzer.groupDrivesByRoute drives in
  Permutation (List.concat (map snd groups)) drives
  /\ NoDup (map fst groups)
  /\ Forall (fun g => snd g <> [] /\ snd g = withKey (fst g) drives) groups
  /\ (List.length groups <= List.length drives)%nat.
Proof.
  intro groups.
  assert (P : Permutation (List.concat (map snd groups)) drives).
  { subst groups. unfold CommuteAnalyzer.groupDrivesByRoute.
    now rewrite groupLoop_perm. }
  destruct (groupDrivesByRoute_groups drives) as [N L]. fold groups in N, L.
  assert (F : Forall (fun g => snd g <> [] /\ snd g = withKey (fst g) drives)
                     groups).
  { apply Forall_forall. intros [k ds] I.
    apply (lookup_In _ _ _ N) in I. rewrite L in I. cbn [fst snd].
    destruct (withKey k drives); [discriminate|].
    injection I as <-. split; [discriminate|reflexivity]. }
  split; [exact P|]. split; [exact N|]. split; [exact F|].
  rewrite <- (Permutation_length P), <- (length_map snd groups).
  apply blocks_length. apply Forall_map.
  eapply Forall_impl; [|exact F]. intros g [H _]. exact H.
Qed.

(** ** The weekly summary *)

Lemma sameDay_eq (a b : CommuteAnalyzer.Weekday) :
  CommuteAnalyzer.sameDay a b = true <-> a = b.
Proof. destruct a, b; simpl; split; congruence. Qed.

Lemma fillDay_drives (getDay : Q -> CommuteAnalyzer.Weekday)
    (drives : list TessieDrive) :
  forall init d,
    (0 < CommuteAnalyzer.day_drives
           (fold_left (CommuteAnalyzer.fillDay getDay) drives init d))%Z ->
    (forall d', 0 <= CommuteAnalyzer.day_drives (init d'))%Z ->
    (0 < CommuteAnalyzer.day_drives (init d))%Z
    \/ exists drive, In drive drives /\ getDay (started_at drive) = d.
Proof.
  induction drives as [|x drives IH]; intros init d P N; [now left|].
  cbn [fold_left] in P.
  destruct (IH (CommuteAnalyzer.fillDay getDay init x) d P) as [H|H].
  - intro d'. unfold CommuteAnalyzer.fillDay.
    destruct (CommuteAnalyzer.sameDay d' (getDay (started_at x)));
      [|apply N].
    cbn [CommuteAnalyzer.countDrive CommuteAnalyzer.day_drives].
    specialize (N (getDay (started_at x))). lia.
  - unfold CommuteAnalyzer.fillDay in H.
    destruct (CommuteAnalyzer.sameDay d (getDay (started_at x))) eqn:S.
    + right. exists x. split; [now left|].
      symmetry. now apply sameDay_eq.
    + now left.
  - destruct H as (drive & I & E). right. exists drive.
    split; [now right|exact E].
Qed.

Lemma compareDay_consistent
    (dailyStats : CommuteAnalyzer.Weekday -> CommuteAnalyzer.DayStats)
    (e : CommuteAnalyzer.Extremes) (day : CommuteAnalyzer.Weekday) :
  consistentExtremes e -> chosenHaveDrives dailyStats e ->
  consistentExtremes (CommuteAnalyzer.compareDay dailyStats e day)
  /\ chosenHaveDrives dailyStats (CommuteAnalyzer.compareDay dailyStats e day).
Proof.
  intros C H. unfold CommuteAnalyzer.compareDay.
  destruct (0 <? CommuteAnalyzer.day_drives (dailyStats day))%Z eqn:D;
    [|now split].
  apply Z.ltb_lt in D.
  set (x := CommuteAnalyzer.day_efficiency (dailyStats day)).
  destruct C as [(B & W & BE & WE)|(b & w & eb & B & W & BE & P & L)].
  - rewrite BE. cbn [andb].
    destruct (gtb x 0) eqn:G.
    + apply gtb_gt in G.
      cbn [CommuteAnalyzer.worstEfficiency CommuteAnalyzer.bestDay
           CommuteAnalyzer.bestEfficiency CommuteAnalyzer.worstDay].
      assert (G' : gtb x (CommuteAnalyzer.worstEfficiency e) = true).
      { destruct (gtb x _) eqn:G'; [reflexivity|].
        apply gtb_le in G'. lra. }
      rewrite G'. split.
      * right. exists day, day, x. cbn. repeat split; try lra.
      * intros d [E|E]; cbn in E; injection E as <-; exact D.
    + apply gtb_le in G.
      assert (G' : gtb x (CommuteAnalyzer.worstEfficiency e) = false).
      { destruct (gtb x _) eqn:G'; [|reflexivity].
        apply gtb_gt in G'. lra. }
      rewrite G'. split; [left; now repeat split|exact H].
  - rewrite BE.
    destruct (ltb x eb && gtb x 0)%bool eqn:T.
    + apply andb_true_iff in T. destruct T as [T1 T2].
      apply ltb_lt in T1. apply gtb_gt in T2.
      cbn [CommuteAnalyzer.worstEfficiency CommuteAnalyzer.bestDay
           CommuteAnalyzer.bestEfficiency CommuteAnalyzer.worstDay].
      assert (G' : gtb x (CommuteAnalyzer.worstEfficiency e) = false).
      { destruct (gtb x _) eqn:G'; [|reflexivity].
        apply gtb_gt in G'. lra. }
      rewrite G'. split.
      * right. exists day, w, x. cbn. repeat split; try assumption; lra.
      * intros d [E|E]; cbn in E.
        -- injection E as <-. exact D.
        -- apply H. now right.
    + destruct (gtb x (CommuteAnalyzer.worstEfficiency e)) eqn:G'.
      * apply gtb_gt in G'. split.
        -- right. exists b, day, eb. cbn. repeat split; try assumption; lra.
        -- intros d [E|E]; cbn in E.
           ++ apply H. now left.
           ++ injection E as <-. exact D.
      * split; [|exact H]. right. exists b, w, eb. now repeat split.
Qed.

Lemma compareDays_consistent
    (dailyStats : CommuteAnalyzer.Weekday -> CommuteAnalyzer.DayStats)
    (someDays : list CommuteAnalyzer.Weekday) :
  forall e,
    consistentExtremes e -> chosenHaveDrives dailyStats e ->
    consistentExtremes
      (fold_left (CommuteAnalyzer.compareDay dailyStats) someDays e)
    /\ chosenHaveDrives dailyStats
         (fold_left (CommuteAnalyzer.compareDay dailyStats) someDays e).
Proof.
  induction someDays as [|day someDays IH]; intros e C H; [now split|].
  cbn [fold_left].
  destruct (compareDay_consistent dailyStats e day C H) as [C' H'].
  now apply IH.
Qed.

Lemma calculateWeeklySummary_iff (getDay : Q -> CommuteAnalyzer.Weekday)
    (drives : list TessieDrive) :
  CommuteAnalyzer.best_day
    (CommuteAnalyzer.calculateWeeklySummary getDay drives) = None
  <-> CommuteAnalyzer.worst_day
        (CommuteAnalyzer.calculateWeeklySummary getDay drives) = None.
Proof.
  unfold CommuteAnalyzer.calculateWeeklySummary.
  cbn [CommuteAnalyzer.best_day CommuteAnalyzer.worst_day].
  set (stats := fold_left (CommuteAnalyzer.fillDay getDay) drives
                  CommuteAnalyzer.noDayStats).
  destruct (compareDays_consistent stats CommuteAnalyzer.days
              CommuteAnalyzer.noExtremes) as [C _].
  { left. now repeat split. }
  { intros d [E|E]; discriminate E. }
  destruct C as [(B & W & _)|(b & w & eb & B & W & _)]; rewrite B, W;
    split; congruence.
Qed.

(** X25. In the weekly summary the best day is ['N/A'] exactly when
    the worst day is; a day that is named best or worst is the day of
    one of the drives; and the average rate lies between 0 and 50
    kWh/100mi. *)
Theorem calculateWeeklySummary_days (getDay : Q -> CommuteAnalyzer.Weekday)
    (drives : list TessieDrive) :
  let s := CommuteAnalyzer.calculateWeeklySummary getDay drives in
  (CommuteAnalyzer.best_day s = None <-> CommuteAnalyzer.worst_day s = None)
  /\ (forall d,
        CommuteAnalyzer.best_day s = Some d
        \/ CommuteAnalyzer.worst_day s = Some d ->
        exists drive, In drive drives /\ getDay (started_at drive) = d)
  /\ (0 <= CommuteAnalyzer.avg_efficiency s
      /\ CommuteAnalyzer.avg_efficiency s <= 50).
Proof.
  intro s. subst s. unfold CommuteAnalyzer.calculateWeeklySummary.
  cbn [CommuteAnalyzer.best_day CommuteAnalyzer.worst_day
       CommuteAnalyzer.avg_efficiency].
  set (stats := fold_left (CommuteAnalyzer.fillDay getDay) drives
                  CommuteAnalyzer.noDayStats).
  destruct (compareDays_consistent stats CommuteAnalyzer.days
              CommuteAnalyzer.noExtremes) as [C H].
  { left. now repeat split. }
  { intros d [E|E]; discriminate E. }
  set (e := fold_left _ CommuteAnalyzer.days CommuteAnalyzer.noExtremes) in *.
  split; [|split].
  - destruct C as [(B & W & _)|(b & w & eb & B & W & _)]; rewrite B, W;
      split; congruence.
  - intros d Cd. specialize (H d Cd).
    destruct (fillDay_drives getDay drives CommuteAnalyzer.noDayStats d H)
      as [Z|X]; [intro d'; simpl; lia| |exact X].
    simpl in Z. lia.
  - destruct (avgEfficiencyForDrives_range drives) as [A0 A50].
    pose proof (round2_whole 0) as R0. pose proof (round2_whole 50) as R50.
    change (inject_Z 0) with 0 in R0. change (inject_Z 50) with 50 in R50.
    apply round2_mono in A0, A50. rewrite R0 in A0. rewrite R50 in A50.
    now split.
Qed.

Lemma routeRecommendations_lines (route : CommuteAnalyzer.CommuteRoute)
    (line : CommuteAnalyzer.CommuteRecommendation) :
  In line (CommuteAnalyzer.routeRecommendations route) ->
  match line with
  | CommuteAnalyzer.EfficiencyDeclining nm =>
      nm = CommuteAnalyzer.name route
      /\ CommuteAnalyzer.recent_trend route = CommuteAnalyzer.declining
  | CommuteAnalyzer.HighEnergyUsage nm rate =>
      nm = CommuteAnalyzer.name route
      /\ rate = CommuteAnalyzer.avg_efficiency_kwh_per_100mi route
      /\ 30 < rate
  | CommuteAnalyzer.MostFrequentRoute nm perWeek _ =>
      nm = CommuteAnalyzer.name route
      /\ perWeek = CommuteAnalyzer.frequency route /\ 10 < perWeek
  | _ => False
  end.
Proof.
  unfold CommuteAnalyzer.routeRecommendations. intro I.
  apply in_app_or in I. destruct I as [I|I].
  - destruct (CommuteAnalyzer.recent_trend route) eqn:T;
      [destruct I| |destruct I].
    destruct I as [<-|[]]. now split.
  - apply in_app_or in I. destruct I as [I|I].
    + destruct (gtb _ 30) eqn:G in I; [|destruct I].
      destruct I as [<-|[]]. apply gtb_gt in G. now repeat split.
    + destruct (gtb _ 10) eqn:G in I; [|destruct I].
      destruct I as [<-|[]]. apply gtb_gt in G. now repeat split.
Qed.

(** X26. The commute recommendations always hold the pre-conditioning
    tip, so they are never empty.  The line on the best and worst day
    appears exactly when the weekly summary names a best day; the line
    on regular routes exactly when there are more than two routes; and a
    line on declining efficiency or on high energy usage is always about
    one of the routes, whose trend is declining or whose rate exceeds 30
    kWh/100mi. *)
Theorem generateCommuteRecommendations_lines
    (getDay : Q -> CommuteAnalyzer.Weekday) (drives : list TessieDrive)
    (routes : list CommuteAnalyzer.CommuteRoute) :
  let summary := CommuteAnalyzer.calculateWeeklySummary getDay drives in
  let lines :=
    CommuteAnalyzer.generateCommuteRecommendations routes summary in
  In CommuteAnalyzer.ProTip lines
  /\ ((exists b w, In (CommuteAnalyzer.BestAndWorstDay b w) lines)
      <-> CommuteAnalyzer.best_day summary <> None)
  /\ (forall n, In (CommuteAnalyzer.RegularRoutes n) lines
                <-> n = List.length routes /\ (2 < n)%nat)
  /\ (forall nm, In (CommuteAnalyzer.EfficiencyDeclining nm) lines ->
                 exists route,
                   In route routes /\ CommuteAnalyzer.name route = nm
                   /\ CommuteAnalyzer.recent_trend route
                      = CommuteAnalyzer.declining)
  /\ (forall nm rate,
        In (CommuteAnalyzer.HighEnergyUsage nm rate) lines ->
        exists route,
          In route routes /\ CommuteAnalyzer.name route = nm
          /\ CommuteAnalyzer.avg_efficiency_kwh_per_100mi route = rate
          /\ 30 < rate).
Proof.
  intros summary lines.
  destruct (calculateWeeklySummary_iff getDay drives) as [BW WB].
  fold summary in BW, WB. clearbody summary.
  assert (Split : forall line,
             In line lines <->
             (exists route, In route routes
                /\ In line (CommuteAnalyzer.routeRecommendations route))
             \/ (line = CommuteAnalyzer.RegularRoutes (List.length routes)
                 /\ (2 < List.length routes)%nat)
             \/ line = CommuteAnalyzer.ProTip
             \/ (exists b w,
                   CommuteAnalyzer.best_day summary = Some b
                   /\ CommuteAnalyzer.worst_day summary = Some w
                   /\ line = CommuteAnalyzer.BestAndWorstDay b w)).
  { intro line. subst lines.
    unfold CommuteAnalyzer.generateCommuteRecommendations.
    rewrite !in_app_iff, in_flat_map.
    split.
    - intros [H|[H|[H|H]]].
      + now left.
      + right. left. destruct (2 <? List.length routes)%nat eqn:R;
          [|destruct H].
        destruct H as [<-|[]]. apply Nat.ltb_lt in R. now split.
      + right. right. left. destruct H as [<-|[]]. reflexivity.
      + right. right. right.
        destruct (CommuteAnalyzer.best_day summary) as [b|]; [|destruct H].
        destruct (CommuteAnalyzer.worst_day summary) as [w|]; [|destruct H].
        destruct H as [<-|[]]. now exists b, w.
    - intros [H|[[-> R]|[->|(b & w & B & W & ->)]]].
      + now left.
      + right. left. apply Nat.ltb_lt in R. rewrite R. now left.
      + right. right. left. now left.
      + right. right. right. rewrite B, W. now left. }
  split; [apply Split; tauto|]. split; [|split; [|split]].
  - split.
    + intros (b & w & I). apply Split in I.
      destruct I as [(route & _ & I)|[[E _]|[E|(b' & w' & B & _)]]];
        try discriminate E; [|congruence].
      apply routeRecommendations_lines in I. destruct I.
    + intro N. destruct (CommuteAnalyzer.best_day summary) as [b|] eqn:B;
        [|congruence].
      destruct (CommuteAnalyzer.worst_day summary) as [w|] eqn:W.
      * exists b, w. apply Split. right. right. right.
        exists b, w. repeat split; first [assumption|reflexivity].
      * specialize (WB eq_refl). discriminate WB.
  - intro n. split.
    + intro I. apply Split in I.
      destruct I as [(route & _ & I)|[[E L]|[E|(b' & w' & _ & _ & E)]]];
        try discriminate E.
      * apply routeRecommendations_lines in I. destruct I.
      * injection E as ->. now split.
    + intros [-> L]. apply Split. right. left. now split.
  - intros nm I. apply Split in I.
    destruct I as [(route & Ir & I)|[[E _]|[E|(b' & w' & _ & _ & E)]]];
      try discriminate E.
    apply routeRecommendations_lines in I. destruct I as [-> T].
    exists route. now repeat split.
  - intros nm rate I. apply Split in I.
    destruct I as [(route & Ir & I)|[[E _]|[E|(b' & w' & _ & _ & E)]]];
      try discriminate E.
    apply routeRecommendations_lines in I. destruct I as (-> & -> & G).
    exists route. now repeat split.
Qed.

(** ** Charging reminders *)

(** X27. The charging schedule does not depend on the charge that is
    needed: it always starts at 11 PM and ends at 7 AM.  The estimated
    savings are, to the cent, 16.5 cents per missing point below 80%
    (the difference of the peak and the off-peak cost, rounded to
    hundredths), never negative, and 0 from 80% on. *)
Theorem calculateOptimalSchedule_window (batteryLevel dailyMiles : Q) :
  let s :=
    ChargingReminderSystem.calculateOptimalSchedule batteryLevel dailyMiles in
  ChargingReminderSystem.optimal_start_hour s = 11
  /\ ChargingReminderSystem.optimal_end_hour s == 7
  /\ withinCent (ChargingReminderSystem.estimated_cost_savings s)
                (Math_max 0 (80 - batteryLevel) * 0.165)
  /\ 0 <= ChargingReminderSystem.estimated_cost_savings s
  /\ (80 <= batteryLevel ->
      ChargingReminderSystem.estimated_cost_savings s == 0).
Proof.
  intro s. subst s. unfold ChargingReminderSystem.calculateOptimalSchedule.
  cbn [ChargingReminderSystem.optimal_start_hour
       ChargingReminderSystem.optimal_end_hour
       ChargingReminderSystem.estimated_cost_savings].
  unfold ChargingReminderSystem.OPTIMAL_CHARGE_LEVEL,
    ChargingReminderSystem.OFF_PEAK_END.
  destruct (Math_max_spec 0 (80 - batteryLevel)) as (M0 & M1 & M).
  set (need := Math_max 0 (80 - batteryLevel)) in *.
  assert (S : ChargingReminderSystem.calculateOffPeakSavings need
              == need * 0.165).
  { unfold ChargingReminderSystem.calculateOffPeakSavings,
      ChargingReminderSystem.PEAK_RATE, ChargingReminderSystem.OFF_PEAK_RATE.
    field. }
  split; [reflexivity|]. split; [|split; [|split]].
  - assert (C : (0 <= Math_ceil (need * 3 / 25))%Z).
    { assert (H : 0 <= need * 3 / 25)
        by (apply Qle_shift_div_l; [reflexivity|lra]).
      unfold Math_ceil. pose proof (Qle_ceiling (need * 3 / 25)) as L.
      rewrite Zle_Qle. change (inject_Z 0) with 0. lra. }
    rewrite Zle_Qle in C. change (inject_Z 0) with 0 in C.
    destruct (Math_min_spec (7 + inject_Z (Math_ceil (need * 3 / 25))) 7)
      as (_ & U & [E|E]); rewrite E in U |- *; lra.
  - pose proof (round2_withinCent
                  (ChargingReminderSystem.calculateOffPeakSavings need)) as W.
    unfold withinCent in *. rewrite <- S. exact W.
  - apply round2_nonneg. rewrite S. nra.
  - intro L. rewrite (round2_compat _ 0); [apply (round2_whole 0)|].
    rewrite S. destruct M as [E|E]; rewrite E in M0 |- *; lra.
Qed.


Lemma insert_byPriority_sorted (x : ChargingReminderSystem.ChargingReminder)
    (l : list ChargingReminderSystem.ChargingReminder) :
  StronglySorted byWeight l ->
  StronglySorted byWeight (insert ChargingReminderSystem.byPriority x l).
Proof.
  induction 1 as [|y ys Hs IH Hall]; cbn [insert].
  - repeat constructor.
  - destruct (gtb (ChargingReminderSystem.byPriority x y) 0) eqn:G.
    + apply gtb_gt in G. unfold ChargingReminderSystem.byPriority in G.
      constructor; [exact IH|].
      eapply Permutation_Forall; [symmetry; apply insert_perm|].
      constructor; [unfold byWeight; lra|exact Hall].
    + apply gtb_le in G. unfold ChargingReminderSystem.byPriority in G.
      constructor; [now constructor|].
      constructor; [unfold byWeight; lra|].
      eapply Forall_impl; [|exact Hall].
      unfold byWeight. intros z Hz. lra.
Qed.

Lemma sort_byPriority_sorted
    (l : list ChargingReminderSystem.ChargingReminder) :
  StronglySorted byWeight (sort ChargingReminderSystem.byPriority l).
Proof.
  induction l as [|x xs IH]; cbn [sort]; [constructor|].
  now apply insert_byPriority_sorted.
Qed.

Lemma insert_urgent_first (x : ChargingReminderSystem.ChargingReminder)
    (l : list ChargingReminderSystem.ChargingReminder) :
  ChargingReminderSystem.priority x = ChargingReminderSystem.urgent ->
  insert ChargingReminderSystem.byPriority x l = x :: l.
Proof.
  intro U. destruct l as [|y ys]; [reflexivity|]. cbn [insert].
  unfold ChargingReminderSystem.byPriority. rewrite U.
  destruct (gtb _ 0) eqn:G; [|reflexivity].
  apply gtb_gt in G. exfalso.
  destruct (ChargingReminderSystem.priority y); simpl in G; lra.
Qed.

Lemma generateReminders_urgent (hour : Z)
    (vehicleState : ChargingReminderSystem.VehicleState) (dailyMiles : Q)
    (nextTripDistance weatherTemp : option Q) :
  let rangeMiles :=
    ChargingReminderSystem.orZero
      (ChargingReminderSystem.battery_range vehicleState) in
  let reminders :=
    ChargingReminderSystem.generateReminders
      hour vehicleState dailyMiles nextTripDistance weatherTemp in
  (rangeMiles < 20 ->
   exists rest, reminders = criticalRange rangeMiles :: rest)
  /\ (forall r, In r reminders ->
                ChargingReminderSystem.priority r
                = ChargingReminderSystem.urgent ->
                rangeMiles < 20 /\ r = criticalRange rangeMiles)
  /\ (List.length reminders <= 7)%nat.
Proof.
  intros rangeMiles reminders. subst reminders.
  unfold ChargingReminderSystem.generateReminders.
  fold rangeMiles.
  unfold ChargingReminderSystem.EMERGENCY_RANGE_THRESHOLD.
  set (first := if ltb rangeMiles 20 then _ else _).
  set (plug := if (_ && _ && _)%bool then _ else _).
  set (tou := if (_ && _)%bool then _ else []).
  set (weather := match weatherTemp with Some _ => _ | None => [] end).
  set (trip := match nextTripDistance with Some _ => _ | None => [] end).
  set (daily := if (_ && _)%bool then _ else []).
  set (health := if (_ && _)%bool then _ else []).
  assert (Others : forall r,
             In r (plug ++ tou ++ weather ++ trip ++ daily ++ health)%list ->
             ChargingReminderSystem.priority r
             <> ChargingReminderSystem.urgent).
  { intros r I. subst plug tou weather trip daily health.
    repeat (apply in_app_or in I; destruct I as [I|I]);
      repeat match type of I with
             | In _ (if ?c then _ else _) => destruct c
             | In _ (match ?o with Some _ => _ | None => _ end) => destruct o
             | In _ [] => destruct I
             | In _ [_] => destruct I as [<-|[]]
             end;
      cbn [ChargingReminderSystem.priority];
      try match goal with
          | |- context [if ?c then _ else _] => destruct c
          end;
      discriminate. }
  assert (Short : forall (c : bool)
                         (x : ChargingReminderSystem.ChargingReminder),
             (List.length (if c then [x] else []) <= 1)%nat)
    by (intros [|] x; simpl; lia).
  split; [|split].
  - intro L. apply ltb_lt in L. subst first. rewrite L.
    eexists. reflexivity.
  - intros r I U. apply in_app_or in I. destruct I as [I|I].
    + subst first. destruct (ltb rangeMiles 20) eqn:L.
      * apply ltb_lt in L. destruct I as [<-|[]]. now split.
      * match type of I with
        | In _ (if ?c then _ else _) => destruct c
        end; [|destruct I].
        destruct I as [<-|[]]. cbn in U. discriminate U.
    + now apply Others in I.
  - rewrite !length_app.
    assert (L1 : (List.length first <= 1)%nat).
    { subst first. destruct (ltb rangeMiles 20); [simpl; lia|]. apply Short. }
    assert (L2 : (List.length plug <= 1)%nat) by apply Short.
    assert (L3 : (List.length tou <= 1)%nat) by apply Short.
    assert (L4 : (List.length weather <= 1)%nat).
    { subst weather. destruct weatherTemp; [|simpl; lia].
      match goal with
      | |- context [if ?c then [?x] else ?e] => destruct c
      end; [simpl; lia|apply Short]. }
    assert (L5 : (List.length trip <= 1)%nat).
    { subst trip. destruct nextTripDistance; [|simpl; lia].
      match goal with
      | |- context [if ?c then ?t else []] => destruct c
      end; [apply Short|simpl; lia]. }
    assert (L6 : (List.length daily <= 1)%nat) by apply Short.
    assert (L7 : (List.length health <= 1)%nat) by apply Short.
    lia.
Qed.

(** X29. The recommendations of [generateChargingStrategy] are the
    reminders in the order of their priority, most urgent first, none
    lost and none added, and at most seven.  One of them is urgent
    exactly when the range is under 20 miles, and then the critical
    range alert comes first. *)
Theorem generateChargingStrategy_recommendations (hour : Z)
    (vehicleState : ChargingReminderSystem.VehicleState) (dailyMiles : Q)
    (nextTripDistance weatherTemp : option Q) :
  let rangeMiles :=
    ChargingReminderSystem.orZero
      (ChargingReminderSystem.battery_range vehicleState) in
  let s :=
    ChargingReminderSystem.generateChargingStrategy
      hour vehicleState dailyMiles nextTripDistance weatherTemp in
  StronglySorted byWeight (ChargingReminderSystem.recommendations s)
  /\ Permutation (ChargingReminderSystem.recommendations s)
       (ChargingReminderSystem.generateReminders
          hour vehicleState dailyMiles nextTripDistance weatherTemp)
  /\ (List.length (ChargingReminderSystem.recommendations s) <= 7)%nat
  /\ ((exists r, In r (ChargingReminderSystem.recommendations s)
                 /\ ChargingReminderSystem.priority r
                    = ChargingReminderSystem.urgent)
      <-> rangeMiles < 20)
  /\ (rangeMiles < 20 ->
      exists rest,
        ChargingReminderSystem.recommendations s
        = criticalRange rangeMiles :: rest).
Proof.
  intros rangeMiles s. subst s.
  unfold ChargingReminderSystem.generateChargingStrategy.
  cbn [ChargingReminderSystem.recommendations].
  destruct (generateReminders_urgent hour vehicleState dailyMiles
              nextTripDistance weatherTemp) as (Head & Only & Count).
  fold rangeMiles in Head, Only.
  set (reminders := ChargingReminderSystem.generateReminders
                      hour vehicleState dailyMiles nextTripDistance
                      weatherTemp) in *.
  pose proof (sort_perm ChargingReminderSystem.byPriority reminders) as P.
  split; [apply sort_byPriority_sorted|]. split; [exact P|].
  split; [now rewrite (Permutation_length P)|]. split; [split|].
  - intros (r & I & U). apply (Permutation_in _ P) in I.
    now destruct (Only r I U).
  - intro L. destruct (Head L) as (rest & E).
    exists (criticalRange rangeMiles). split; [|reflexivity].
    apply (Permutation_in _ (Permutation_sym P)). rewrite E. now left.
  - intro L. destruct (Head L) as (rest & E). rewrite E. cbn [sort].
    rewrite insert_urgent_first; [|reflexivity].
    eexists. reflexivity.
Qed.

(** ** Battery consumption of a merged drive *)

Lemma Math_round_pos_iff (x : Q) : (0 < Math_round x)%Z <-> (1 # 2) <= x.
Proof.
  unfold Math_round.
  pose proof (Qfloor_le (x + (1 # 2))) as L.
  pose proof (Qlt_floor (x + (1 # 2))) as U.
  rewrite inject_Z_plus in U. change (inject_Z 1) with 1 in U.
  split.
  - intro P. assert (K : (1 <= Qfloor (x + (1 # 2)))%Z) by lia.
    rewrite Zle_Qle in K. change (inject_Z 1) with 1 in K. lra.
  - intro H.
    assert (K : (0 < Qfloor (x + (1 # 2)) + 1)%Z).
    { rewrite Zlt_Qlt, inject_Z_plus.
      change (inject_Z 0) with 0. change (inject_Z 1) with 1. lra. }
    assert (K1 : 1 <= x + (1 # 2)) by lra.
    apply Qfloor_resp_le in K1. change (Qfloor 1) with 1%Z in K1. lia.
Qed.

Lemma round2_pos_iff (x : Q) : 0 < round2 x <-> (1 # 200) <= x.
Proof.
  unfold round2.
  assert (E : 0 < inject_Z (Math_round (x * 100)) / 100
              <-> (0 < Math_round (x * 100))%Z).
  { rewrite Zlt_Qlt. change (inject_Z 0) with 0.
    unfold Qdiv. change (/ 100) with (1 # 100). split; intro; lra. }
  rewrite E, Math_round_pos_iff. split; intro; lra.
Qed.

Lemma round2_pos_cent (x : Q) : 0 < round2 x -> (1 # 100) <= round2 x.
Proof.
  unfold round2. intro P.
  assert (K : (0 < Math_round (x * 100))%Z).
  { rewrite Zlt_Qlt. change (inject_Z 0) with 0.
    unfold Qdiv in P. change (/ 100) with (1 # 100) in P. lra. }
  assert (K1 : (1 <= Math_round (x * 100))%Z) by lia.
  rewrite Zle_Qle in K1. change (inject_Z 1) with 1 in K1.
  unfold Qdiv. change (/ 100) with (1 # 100). lra.
Qed.

(** X30. [analyzeBatteryConsumption] reports an efficiency exactly when
    the merged drive has a positive distance and consumed at least 0.005
    battery points net: a drive whose charging stops put back as much as
    it used gets none.  The estimated energy is positive under the same
    condition on the consumption, and a reported efficiency is never
    negative. *)
Theorem analyzeBatteryConsumption_efficiency (drive : MergedDrive) :
  let r := analyzeBatteryConsumption drive in
  fst (fst r) = round2 (energy_consumed drive)
  /\ (0 < snd (fst r) <-> (1 # 200) <= energy_consumed drive)
  /\ (snd r <> None
      <-> 0 < total_distance drive /\ (1 # 200) <= energy_consumed drive)
  /\ (forall v, snd r = Some v -> 0 <= v).
Proof.
  intro r. subst r. unfold analyzeBatteryConsumption. cbn [fst snd].
  set (p := round2 (energy_consumed drive)).
  set (k := round2 (p / 100 * 75)).
  assert (K : 0 < k <-> (1 # 200) <= energy_consumed drive).
  { unfold k. rewrite round2_pos_iff. split.
    - intro H. apply round2_pos_iff.
      fold p. unfold Qdiv in H. change (/ 100) with (1 # 100) in H. lra.
    - intro H. apply round2_pos_iff in H. apply round2_pos_cent in H.
      fold p in H. unfold Qdiv. change (/ 100) with (1 # 100). lra. }
  split; [reflexivity|]. split; [exact K|]. split.
  - destruct (gtb (total_distance drive) 0) eqn:D;
      destruct (gtb k 0) eqn:G; cbn [andb];
      try apply gtb_gt in D; try apply gtb_le in D;
      try apply gtb_gt in G; try apply gtb_le in G.
    + split; [intros _|discriminate]. split; [exact D|now apply K].
    + split; [congruence|]. intros [_ H]. apply K in H. lra.
    + split; [congruence|]. intros [H _]. lra.
    + split; [congruence|]. intros [H _]. lra.
  - intros v. destruct (gtb (total_distance drive) 0) eqn:D;
      destruct (gtb k 0) eqn:G; cbn [andb]; try discriminate.
    apply gtb_gt in D. apply gtb_gt in G.
    intro E. injection E as <-. apply round2_nonneg.
    apply Qle_shift_div_l; lra.
Qed.
